(** * Revision-candidaturas: ingestion, date normalisation, search and
      duplicate detection

    A shallow embedding of the core of the application:

    - [src/services/fileParser.ts]: [formatDate], [processDataForDates],
      [parseFile] and its inner [processAndResolve];
    - [src/components/Report.tsx]: [getCandidateIdentifier] and the memoised
      [duplicatedCandidatesByUnion];
    - the application component: [normalizeText] and the two search effects,
      [handleCheckboxChange], [exportData] and the rows it saves;
    - the settings dialog: [handleUnionToggle];
    - [src/components/DataTable.tsx]: the column widths, its own
      [getCandidateIdentifier], and the window of rows it renders;
    - the duplicates dialog: its [duplicatedCandidatesByUnion].

    Conventions of the embedding.

    - A JavaScript string is a [string]: the bytes of its UTF-8 encoding.
      On well-formed text, substring tests, splitting at an ASCII character
      and removal of ASCII characters agree with the same operations on
      UTF-16 code units, because UTF-8 is self-synchronising.
    - A row ([TableRow = Record<string, any>]) is the list of its own
      enumerable properties, in the order [Object.keys] lists them.
    - A number is the rational value of a double; subtraction and
      multiplication round to the nearest double as IEEE 754 binary64 does
      (module [Double]).
    - The marks of a row ([checkedState[rowIndex]]) are an object made by an
      object literal: a read under a name it has no own property for gives
      the member of [Object.prototype] of that name, if there is one.
    - A [Date] is its time value: [Some t] (milliseconds since the epoch) or
      [None] for an invalid date. Calendar arithmetic follows ECMA-262
      (Day, DayFromYear, YearFromTime, MonthFromTime, DateFromTime,
      MakeDay, MakeDate, TimeClip, LocalTime, UTC).
    - What the platform supplies and the repository does not define
      (case mapping, Unicode normalisation, the local time zone, free-form
      date parsing, number and date printing, collation) is a field of the
      class [Host]. *)

From Stdlib Require Import ZArith QArith Qround Qabs Qpower Qreduction Qcanon.
From Stdlib Require Import Lia Lqa Ascii String.
From stdpp Require Import gmap strings list sorting.

Open Scope Z_scope.

(** ** JavaScript strings *)

Module JsString.

Definition chr (n : nat) : string := String (ascii_of_nat n) EmptyString.

Definition bytes (l : list nat) : string :=
  fold_right (fun n s => String (ascii_of_nat n) s) EmptyString l.

Definition is_digit (c : ascii) : bool :=
  let n := nat_of_ascii c in (48 <=? n)%nat && (n <=? 57)%nat.

Definition ascii_lower (c : ascii) : ascii :=
  let n := nat_of_ascii c in
  if (65 <=? n)%nat && (n <=? 90)%nat then ascii_of_nat (n + 32) else c.

Fixpoint map_chars (f : ascii -> ascii) (s : string) : string :=
  match s with
  | EmptyString => EmptyString
  | String c s' => String (f c) (map_chars f s')
  end.

Fixpoint filter_chars (keep : ascii -> bool) (s : string) : string :=
  match s with
  | EmptyString => EmptyString
  | String c s' =>
      if keep c then String c (filter_chars keep s') else filter_chars keep s'
  end.

(** [String.prototype.includes] *)
Fixpoint includes (s sub : string) : bool :=
  if String.prefix sub s then true
  else match s with
       | EmptyString => false
       | String _ s' => includes s' sub
       end.

(** [/pat/i.test(s)] for a pattern [pat] of lower-case ASCII letters. Without
    the [u] flag a character outside ASCII never folds onto an ASCII one, so
    the test is a substring test after folding the ASCII capitals. *)
Definition test_ci (pat s : string) : bool :=
  includes (map_chars ascii_lower s) pat.

(** [String.prototype.split] at a one-character separator. *)
Fixpoint split (sep : ascii) (s : string) : list string :=
  match s with
  | EmptyString => [EmptyString]
  | String c s' =>
      if Ascii.eqb c sep then EmptyString :: split sep s'
      else match split sep s' with
           | h :: t => String c h :: t
           | [] => [String c EmptyString]
           end
  end.

(** [Array.prototype.join] on strings. *)
Fixpoint join (sep : string) (l : list string) : string :=
  match l with
  | [] => EmptyString
  | [x] => x
  | x :: l' => String.append x (String.append sep (join sep l'))
  end.

Fixpoint strip_prefix (p s : string) : option string :=
  match p, s with
  | EmptyString, _ => Some s
  | String a p', String b s' =>
      if Ascii.eqb a b then strip_prefix p' s' else None
  | String _ _, EmptyString => None
  end.

(** The WhiteSpace and LineTerminator code points of ECMA-262, UTF-8 encoded:
    U+0009..U+000D, U+0020, U+00A0, U+1680, U+2000..U+200A, U+2028, U+2029,
    U+202F, U+205F, U+3000, U+FEFF. *)
Definition whitespace : list string :=
  [ chr 9; chr 10; chr 11; chr 12; chr 13; chr 32;
    bytes [194; 160]; bytes [225; 154; 128];
    bytes [226; 128; 128]; bytes [226; 128; 129]; bytes [226; 128; 130];
    bytes [226; 128; 131]; bytes [226; 128; 132]; bytes [226; 128; 133];
    bytes [226; 128; 134]; bytes [226; 128; 135]; bytes [226; 128; 136];
    bytes [226; 128; 137]; bytes [226; 128; 138];
    bytes [226; 128; 168]; bytes [226; 128; 169]; bytes [226; 128; 175];
    bytes [226; 129; 159]; bytes [227; 128; 128]; bytes [239; 187; 191] ]%nat.

Fixpoint strip_any (codes : list string) (s : string) : option string :=
  match codes with
  | [] => None
  | p :: codes' =>
      match strip_prefix p s with
      | Some r => Some r
      | None => strip_any codes' s
      end
  end.

Fixpoint strip_leading (codes : list string) (fuel : nat) (s : string) : string :=
  match fuel with
  | O => s
  | S fuel' =>
      match strip_any codes s with
      | Some r => strip_leading codes fuel' r
      | None => s
      end
  end.

Definition trimStart (s : string) : string :=
  strip_leading whitespace (String.length s) s.

Definition trimEnd (s : string) : string :=
  String.rev
    (strip_leading (map String.rev whitespace) (String.length s) (String.rev s)).

(** [String.prototype.trim] *)
Definition trim (s : string) : string := trimEnd (trimStart s).

(** [parseInt(s, 10)] on a run of decimal digits (a capture of [\d{m,n}]). *)
Definition digit_val (c : ascii) : Z := Z.of_nat (nat_of_ascii c) - 48.

Fixpoint parseInt_acc (acc : Z) (s : string) : Z :=
  match s with
  | EmptyString => acc
  | String c s' => parseInt_acc (10 * acc + digit_val c) s'
  end.

Definition parseInt (s : string) : Z := parseInt_acc 0 s.

(** [String(n)] for an integer [n] (a calendar component): the decimal
    digits, least significant first onto [acc]. A number has no more decimal
    than binary digits, which bounds the recursion. *)
Definition digit_char (d : Z) : ascii := ascii_of_nat (Z.to_nat (48 + d)).

Fixpoint digits_of (fuel : nat) (n : Z) (acc : string) : string :=
  match fuel with
  | O => acc
  | S fuel' =>
      let acc' := String (digit_char (n mod 10)) acc in
      if n <? 10 then acc' else digits_of fuel' (n / 10) acc'
  end.

Definition string_of_Z (n : Z) : string :=
  if n <? 0 then String "-" (digits_of (S (Z.to_nat (Z.log2 (- n)))) (- n) EmptyString)
  else digits_of (S (Z.to_nat (Z.log2 n))) n EmptyString.

(** [s.padStart(2, '0')] *)
Definition padStart2 (s : string) : string :=
  match String.length s with
  | O => "00"
  | S O => String "0" s
  | _ => s
  end.

(** The maximal run of decimal digits at the head of [s], and the rest. *)
Fixpoint span_digits (s : string) : string * string :=
  match s with
  | EmptyString => (EmptyString, EmptyString)
  | String c s' =>
      if is_digit c then
        let '(d, r) := span_digits s' in (String c d, r)
      else (EmptyString, s)
  end.

End JsString.

(** ** The platform *)

(** What the JavaScript engine and its locale data supply.

    - [toLowerCase], [normalizeNFD]: [String.prototype.toLowerCase] and
      [String.prototype.normalize("NFD")];
    - [LocalTZA t isUTC]: the local time zone adjustment of ECMA-262, in
      milliseconds;
    - [Date_parse]: the time value of [new Date(s)] for a string [s]
      ([None] when the result is an invalid date);
    - [Number_toString], [Date_toString]: what [String(v)]
      gives for a number and for a [Date];
    - [localeCompare]: [a.localeCompare(b)];
    - [keys_of_null_message]: the message of the [TypeError] that
      [Object.keys(null)] throws. *)
Class Host := {
  toLowerCase : string -> string;
  normalizeNFD : string -> string;
  LocalTZA : Z -> bool -> Z;
  Date_parse : string -> option Z;
  Number_toString : Q -> string;
  Date_toString : option Z -> string;
  localeCompare : string -> string -> Z;
  keys_of_null_message : string
}.

(** ** Dates (ECMA-262, section "Date Objects") *)

Module DateTime.

Definition msPerDay : Z := 86400000.

Definition Day (t : Z) : Z := t / msPerDay.

Definition TimeWithinDay (t : Z) : Z := t mod msPerDay.

Definition DaysInYear (y : Z) : Z :=
  if negb (y mod 4 =? 0) then 365
  else if negb (y mod 100 =? 0) then 366
  else if negb (y mod 400 =? 0) then 365
  else 366.

Definition DayFromYear (y : Z) : Z :=
  365 * (y - 1970) + (y - 1969) / 4 - (y - 1901) / 100 + (y - 1601) / 400.

(** The largest [y] with [DayFromYear y <= n]: an estimate from the mean
    length of a Gregorian year, corrected by at most one. *)
Definition YearFromDay (n : Z) : Z :=
  let e := 1970 + (400 * n) / 146097 in
  if n <? DayFromYear e then e - 1
  else if DayFromYear (e + 1) <=? n then e + 1
  else e.

Definition YearFromTime (t : Z) : Z := YearFromDay (Day t).

Definition InLeapYear (y : Z) : Z := if DaysInYear y =? 366 then 1 else 0.

Definition DayWithinYear (n : Z) : Z := n - DayFromYear (YearFromDay n).

(** The day within the year on which month [m] (0-based) starts. *)
Definition MonthStart (leap m : Z) : Z :=
  match m with
  | 0 => 0
  | 1 => 31
  | 2 => 59 + leap
  | 3 => 90 + leap
  | 4 => 120 + leap
  | 5 => 151 + leap
  | 6 => 181 + leap
  | 7 => 212 + leap
  | 8 => 243 + leap
  | 9 => 273 + leap
  | 10 => 304 + leap
  | 11 => 334 + leap
  | _ => 365 + leap
  end.

(** The month (0-based) of day [d] of a year, as the table of MonthFromTime
    gives it. *)
Definition MonthOfYearDay (leap d : Z) : Z :=
  if d <? 31 then 0
  else if d <? 59 + leap then 1
  else if d <? 90 + leap then 2
  else if d <? 120 + leap then 3
  else if d <? 151 + leap then 4
  else if d <? 181 + leap then 5
  else if d <? 212 + leap then 6
  else if d <? 243 + leap then 7
  else if d <? 273 + leap then 8
  else if d <? 304 + leap then 9
  else if d <? 334 + leap then 10
  else 11.

Definition MonthFromDay (n : Z) : Z :=
  MonthOfYearDay (InLeapYear (YearFromDay n)) (DayWithinYear n).

Definition DateFromDay (n : Z) : Z :=
  DayWithinYear n - MonthStart (InLeapYear (YearFromDay n)) (MonthFromDay n) + 1.

Definition MonthFromTime (t : Z) : Z := MonthFromDay (Day t).

Definition DateFromTime (t : Z) : Z := DateFromDay (Day t).

Definition MakeTime (hour min sec ms : Z) : Z :=
  hour * 3600000 + min * 60000 + sec * 1000 + ms.

Definition MakeDay (year month date : Z) : Z :=
  let ym := year + month / 12 in
  let mn := month mod 12 in
  DayFromYear ym + MonthStart (InLeapYear ym) mn + date - 1.

Definition MakeDate (day time : Z) : Z := day * msPerDay + time.

Definition maxTime : Z := 8640000000000000.

(** A [Date]: its time value, [None] for NaN. *)
Definition Date : Type := option Z.

Definition TimeClip (t : Z) : Date :=
  if Z.abs t <=? maxTime then Some t else None.

(** Truncation towards zero (ToIntegerOrInfinity on a finite number). *)
Definition Qtruncate (q : Q) : Z :=
  if Qle_bool 0 q then Qfloor q else Qceiling q.

(** [new Date(value)] for a finite number [value]. *)
Definition new_Date_value (value : Q) : Date :=
  if Qle_bool (Qabs value) (inject_Z maxTime) then Some (Qtruncate value)
  else None.

Section Local.
Context `{Host}.

Definition LocalTime (t : Z) : Z := t + LocalTZA t true.

Definition UTC (t : Z) : Z := t - LocalTZA t false.

(** [new Date(year, month, date)] *)
Definition new_Date_ymd (year month date : Z) : Date :=
  let yr := if (0 <=? year) && (year <=? 99) then 1900 + year else year in
  TimeClip (UTC (MakeDate (MakeDay yr month date) (MakeTime 0 0 0 0))).

(** [date.getTime()] is the time value itself; [isNaN] of it: *)
Definition isNaN_time (d : Date) : bool :=
  match d with Some _ => false | None => true end.

Definition getFullYear (d : Date) : option Z :=
  t ← d; Some (YearFromTime (LocalTime t)).

Definition getMonth (d : Date) : option Z :=
  t ← d; Some (MonthFromTime (LocalTime t)).

Definition getDate (d : Date) : option Z :=
  t ← d; Some (DateFromTime (LocalTime t)).

End Local.

End DateTime.

(** ** Numbers

    The arithmetic of JavaScript numbers: IEEE 754 binary64, each operation
    giving the double nearest to the exact result, a tie going to the double
    with an even significand. A double is kept as the rational it is. The
    exponent is not bounded here: a result too large for a double stays a
    large rational where the source has [Infinity] (both are out of the range
    of [Date]), and no result of the code modelled is small enough to be
    subnormal. *)

Module Double.

(** The exponent of the leading binary digit of a positive rational [x]:
    the [k] with [2^k <= x < 2^(k+1)]. *)
Definition ilog2 (x : Q) : Z :=
  let k := Z.log2 (Qnum x) - Z.log2 (Zpos (Qden x)) in
  if Qle_bool (2 ^ k) x then k else k - 1.

(** The nearest integer, a tie going to the even one. *)
Definition nearest_even (x : Q) : Z :=
  let f := Qfloor x in
  match (x - inject_Z f ?= 1 # 2)%Q with
  | Lt => f
  | Gt => f + 1
  | Eq => if Z.even f then f else f + 1
  end.

(** The double nearest to [x]: [x] is scaled to a significand of 53 binary
    digits, which is rounded to an integer and scaled back. *)
Definition round (x : Q) : Q :=
  let x := Qred x in
  if Qeq_bool x 0 then 0%Q
  else
    let e := ilog2 (Qabs x) - 52 in
    (inject_Z (nearest_even (x * 2 ^ (- e))) * 2 ^ e)%Q.

(** [x - y] and [x * y] on doubles. *)
Definition sub (x y : Q) : Q := round (x - y).

Definition mul (x y : Q) : Q := round (x * y).

End Double.

(** ** Cell values and rows ([src/types.ts]) *)

(** The scalar a cell holds. A number is a finite one (a file yields no
    other), kept as the rational it is; arithmetic on numbers rounds as the
    double-precision arithmetic of the source does (module [Double]).
    [VObject str] is any other object (a nested array or object of a JSON
    file), known by the string [String] gives. *)
Inductive Value : Type :=
  | VUndefined
  | VNull
  | VBool (b : bool)
  | VNum (q : Q)
  | VStr (s : string)
  | VDate (d : DateTime.Date)
  | VObject (str : string).

(** [TableRow]: the own enumerable properties, in [Object.keys] order. *)
Definition TableRow : Type := list (string * Value).

Module Obj.

Definition keys (row : TableRow) : list string := map fst row.

Definition values (row : TableRow) : list Value := map snd row.

(** [row[k]] as an own property: [None] where JavaScript gives [undefined]
    for a property the row does not have. *)
Fixpoint get (row : TableRow) (k : string) : option Value :=
  match row with
  | [] => None
  | (k', v) :: row' => if String.eqb k' k then Some v else get row' k
  end.

Definition prop (row : TableRow) (k : string) : Value :=
  match get row k with Some v => v | None => VUndefined end.

(** [row[k] = v]: an existing property keeps its place, a new one is added
    last. *)
Fixpoint set (k : string) (v : Value) (row : TableRow) : TableRow :=
  match row with
  | [] => [(k, v)]
  | (k', v') :: row' =>
      if String.eqb k' k then (k', v) :: row' else (k', v') :: set k v row'
  end.

(** [a ?? b] *)
Definition nullish (v dflt : Value) : Value :=
  match v with
  | VUndefined | VNull => dflt
  | _ => v
  end.

Section Conversions.
Context `{Host}.

(** [String(v)] *)
Definition ToString (v : Value) : string :=
  match v with
  | VUndefined => "undefined"
  | VNull => "null"
  | VBool true => "true"
  | VBool false => "false"
  | VNum q => Number_toString q
  | VStr s => s
  | VDate d => Date_toString d
  | VObject str => str
  end.

(** The string [Array.prototype.join] uses for an element. *)
Definition join_item (v : Value) : string :=
  match v with
  | VUndefined | VNull => EmptyString
  | _ => ToString v
  end.

End Conversions.

(** A [Set<string>] in insertion order. *)
Definition Set_add (x : string) (s : list string) : list string :=
  if decide (x ∈ s) then s else s ++ [x].

Definition Set_from (l : list string) : list string :=
  fold_left (fun s x => Set_add x s) l [].

End Obj.

(** ** [src/services/fileParser.ts] *)

Module FileParser.
Import JsString DateTime Obj.

Record ParseResult : Type := {
  headers : list string;
  data : list TableRow
}.

Section Parser.
Context `{Host}.

(** [String(n)] for what a [Date] getter returns; [None] is NaN. *)
Definition String_number (n : option Z) : string :=
  match n with
  | Some z => string_of_Z z
  | None => "NaN"
  end.

Definition formatDate (date : Date) : string :=
  if isNaN_time date then EmptyString
  else
    let day := padStart2 (String_number (getDate date)) in
    let month := padStart2 (String_number (m ← getMonth date; Some (m + 1))) in
    let year := String_number (getFullYear date) in
    String.append day (String.append "-" (String.append month (String.append "-" year))).

Definition is_separator (c : ascii) : bool :=
  Ascii.eqb c "/" || Ascii.eqb c "-".

Definition between (lo hi n : nat) : bool := (lo <=? n)%nat && (n <=? hi)%nat.

(** [originalValue.match(/^(\d{1,2})[/-](\d{1,2})[/-](\d{2,4})$/)]: the three
    captures. A separator is not a digit, so each greedy group can only be the
    whole run of digits before the next separator (or before the end), and
    backtracking never yields another match. *)
Definition match_dmy (s : string) : option (string * string * string) :=
  let '(p1, r1) := span_digits s in
  if between 1 2 (String.length p1) then
    match r1 with
    | String c1 s2 =>
        if is_separator c1 then
          let '(p2, r2) := span_digits s2 in
          if between 1 2 (String.length p2) then
            match r2 with
            | String c2 s3 =>
                if is_separator c2 then
                  let '(p3, r3) := span_digits s3 in
                  if between 2 4 (String.length p3) then
                    match r3 with
                    | EmptyString => Some (p1, p2, p3)
                    | String _ _ => None
                    end
                  else None
                else None
            | EmptyString => None
            end
          else None
        else None
    | EmptyString => None
    end
  else None.

(** The variable [date] at the end of the [if]-chain: [None] is [null]. *)
Definition date_of_cell (originalValue : Value) : option Date :=
  match originalValue with
  | VDate d => Some d
  | VNum q =>
      if negb (Qle_bool q 25569) then
        Some (new_Date_value
                (Double.mul (Double.mul (Double.sub q 25569) 86400) 1000))
      else None
  | VStr s =>
      match match_dmy s with
      | Some (p1, p2, p3) =>
          let day := parseInt p1 in
          let month := parseInt p2 - 1 in
          let year := parseInt p3 in
          let year := if year <? 100 then year + 2000 else year in
          Some (new_Date_ymd year month day)
      | None =>
          let parsedDate := Date_parse s in
          if negb (isNaN_time parsedDate) then Some parsedDate else None
      end
  | _ => None
  end.

(** [date && !isNaN(date.getTime()) && date.getFullYear() > 1000] *)
Definition accepted (date : option Date) : bool :=
  match date with
  | Some d =>
      negb (isNaN_time d) &&
      match getFullYear d with Some y => 1000 <? y | None => false end
  | None => false
  end.

(** One turn of the loop over [dateHeaders]. *)
Definition normalize_header (newRow : TableRow) (header : string) : TableRow :=
  let originalValue := prop newRow header in
  let date := date_of_cell originalValue in
  if accepted date then
    match date with
    | Some d => set header (VStr (formatDate d)) newRow
    | None => newRow
    end
  else newRow.

Definition is_date_header (h : string) : bool :=
  includes (toLowerCase h) "fecha" || includes (toLowerCase h) "antigüedad".

Definition processDataForDates (data : list TableRow) (headers : list string)
  : list TableRow :=
  let dateHeaders := List.filter is_date_header headers in
  match dateHeaders with
  | [] => data
  | _ => map (fun row => fold_left normalize_header dateHeaders row) data
  end.

(** What the loop body makes of one cell value: the value the cell of a date
    column holds after [normalize_header] (lemma [normalize_header_get]). *)
Definition normalize_value (originalValue : Value) : Value :=
  match date_of_cell originalValue with
  | Some d => if accepted (Some d) then VStr (formatDate d) else originalValue
  | None => originalValue
  end.

End Parser.

(** *** [parseFile] *)

(** What a [catch] clause receives: an [Error] with its message, or anything
    else. *)
Inductive Thrown : Type :=
  | ThrownError (message : string)
  | ThrownOther.

(** The event a [FileReader] ends with: [onerror], or [onload] with
    [event.target?.result]. *)
Inductive ReadEvent (A : Type) : Type :=
  | ReadFailed
  | ReadLoaded (result : option A).
Arguments ReadFailed {A}.
Arguments ReadLoaded {A} result.

(** The root of a parsed JSON text. An element of an array is [None] when it
    is [null] (its keys cannot be listed), else its own properties. *)
Inductive JsonValue : Type :=
  | JsonArray (elems : list (option TableRow))
  | JsonOther.

(** How [Papa.parse] calls back: [error], or [complete] with [results.errors]
    (their messages) and [results.data]. An element of the data is [None] when
    it is not an object. *)
Inductive PapaEvent : Type :=
  | PapaError (message : string)
  | PapaComplete (errors : list string) (data : option (list (option TableRow))).

(** What [XLSX.read] returns: the sheet names in document order, and what
    [XLSX.utils.sheet_to_json] gives for a sheet name. *)
Record Workbook : Type := {
  SheetNames : list string;
  sheet_to_json : string -> Thrown + list TableRow
}.

(** A [File] with what the readers and the two libraries make of its content:
    the repository hands the content to them and only sees these results. *)
Record File : Type := {
  name : string;
  papa : PapaEvent;
  text : ReadEvent string;
  JSON_parse : Thrown + JsonValue;
  workbook : ReadEvent (Thrown + Workbook)
}.

(** How the promise settles. *)
Inductive Settled : Type :=
  | Resolve (result : ParseResult)
  | Reject (message : string).

Section ParseFile.
Context `{Host}.

(** The inner [processAndResolve], on rows that are objects: the result it
    resolves with. *)
Definition processAndResolve (data : list TableRow) : ParseResult :=
  match data with
  | [] => {| headers := []; data := [] |}
  | _ =>
      let allHeaders := Set_from (flat_map keys data) in
      let processedData := processDataForDates data allHeaders in
      {| headers := allHeaders; data := processedData |}
  end.

(** The same on the elements of a JSON array: past the test for an empty
    array, [Object.keys] throws a [TypeError] at an element that is [null]. *)
Definition processAndResolve_json (elems : list (option TableRow))
  : Thrown + ParseResult :=
  match mapM id elems with
  | Some rows => inr (processAndResolve rows)
  | None => inl (ThrownError keys_of_null_message)
  end.

Definition extension (file : File) : string :=
  toLowerCase (List.last (split "." (name file)) EmptyString).

(** [!Object.values(row).every(val => val === null || val === '')] on an
    element that is an object. *)
Definition csv_keeps (row : option TableRow) : bool :=
  match row with
  | Some r =>
      negb (forallb (fun val =>
                       match val with
                       | VNull => true
                       | VStr EmptyString => true
                       | _ => false
                       end) (values r))
  | None => false
  end.

Definition settle (r : Thrown + ParseResult) (onError : string -> string)
    (onOther : string) : Settled :=
  match r with
  | inr result => Resolve result
  | inl (ThrownError message) => Reject (onError message)
  | inl ThrownOther => Reject onOther
  end.

Definition falsy_text (result : option string) : bool :=
  match result with
  | None | Some EmptyString => true
  | Some _ => false
  end.

Definition parseFile (file : File) : Settled :=
  let extension := extension file in
  if String.eqb extension "csv" then
    match papa file with
    | PapaComplete errors data =>
        match errors with
        | _ :: _ => Reject (join (chr 10) errors)
        | [] =>
            match data with
            | None => Resolve {| headers := []; data := [] |}
            | Some rows =>
                Resolve (processAndResolve (omap id (List.filter csv_keeps rows)))
            end
        end
    | PapaError message => Reject (String.append "Error al parsear CSV: " message)
    end
  else if String.eqb extension "json" then
    match text file with
    | ReadLoaded result =>
        if falsy_text result then Reject "No se pudo leer el archivo JSON."
        else
          match JSON_parse file with
          | inr (JsonArray elems) =>
              settle (processAndResolve_json elems)
                (String.append "JSON inválido: ")
                "Error al parsear el archivo JSON."
          | inr JsonOther =>
              Reject "El archivo JSON debe contener un array de objetos."
          | inl e =>
              settle (inl e) (String.append "JSON inválido: ")
                "Error al parsear el archivo JSON."
          end
    | ReadFailed => Reject "Error al leer el archivo."
    end
  else if String.eqb extension "xlsx" || String.eqb extension "xls" then
    match workbook file with
    | ReadLoaded None => Reject "No se pudo leer el archivo de Excel."
    | ReadLoaded (Some read) =>
        let onError := String.append "Error al procesar el archivo de Excel: " in
        let onOther := "Ocurrió un error desconocido al procesar el archivo de Excel." in
        match read with
        | inl e => settle (inl e) onError onOther
        | inr wb =>
            match SheetNames wb with
            | [] => Reject "El archivo de Excel no contiene hojas."
            | EmptyString :: _ => Reject "El archivo de Excel no contiene hojas."
            | sheetName :: _ =>
                match sheet_to_json wb sheetName with
                | inl e => settle (inl e) onError onOther
                | inr rows => Resolve (processAndResolve rows)
                end
            end
        end
    | ReadFailed => Reject "Error al leer el archivo."
    end
  else Reject (String.append "Tipo de archivo no soportado: ." extension).

End ParseFile.

End FileParser.

(** ** Sorting *)

Module JsArray.

(** [Array.prototype.sort(compare)]: a stable sort, by insertion from the
    right. [x] goes behind the elements that compare strictly below it, and in
    front of its equals further right. (With a comparison that is not a
    consistent order the engine's result is some permutation; so is this
    one.) *)
Fixpoint insert_sorted {A : Type} (compare : A -> A -> Z) (x : A) (l : list A) : list A :=
  match l with
  | [] => [x]
  | y :: l' =>
      if 0 <? compare x y then y :: insert_sorted compare x l'
      else x :: y :: l'
  end.

Definition sort_by {A : Type} (compare : A -> A -> Z) (l : list A) : list A :=
  fold_right (insert_sorted compare) [] l.

(** The comparison of [sort()] without an argument, on strings: by code
    units. On UTF-8 bytes this is the order of code points, which is that of
    UTF-16 code units except between a supplementary character and one of
    U+E000..U+FFFF. *)
Definition default_compare (a b : string) : Z :=
  match String.compare a b with
  | Lt => -1
  | Eq => 0
  | Gt => 1
  end.

Definition sort (l : list string) : list string := sort_by default_compare l.

End JsArray.

(** ** [src/components/Report.tsx] *)

Module Report.
Import JsString Obj JsArray.

(** An entry of [candidatesMap]: a set of unions and the first row seen. *)
Record Candidate : Type := {
  cand_unions : list string;
  cand_row : TableRow
}.

(** An element of [actualDuplicates]. *)
Record Duplicate : Type := {
  dup_identifier : string;
  dup_unions : list string;
  dup_row : TableRow
}.

(** An element of a list of [groupedByUnion]. *)
Record Entry : Type := {
  identifier : string;
  otherUnions : list string;
  row : TableRow
}.

(** The names of the members of [Object.prototype] (ECMA-262, with the
    accessors of its annex B that browsers have): what an object made by an
    object literal inherits. Each is a function, or for [__proto__] the
    prototype itself, and counts as true in a condition. *)
Definition Object_prototype_names : list string :=
  ["constructor"; "hasOwnProperty"; "isPrototypeOf"; "propertyIsEnumerable";
   "toLocaleString"; "toString"; "valueOf"; "__proto__";
   "__defineGetter__"; "__defineSetter__"; "__lookupGetter__";
   "__lookupSetter__"]%string.

Definition inherited (name : string) : bool :=
  bool_decide (name ∈ Object_prototype_names).

(** [checkedState[rowIndex]?.[union]] as a condition. The row indices are
    numbers, and no member of [Object.prototype] has such a name: a row
    without marks reads as [undefined]. The marks of a row are an object made
    by an object literal: under a name it has no own property for, the read
    gives what it inherits from [Object.prototype]. *)
Definition checked (checkedState : gmap nat (gmap string bool))
    (rowIndex : nat) (union : string) : bool :=
  match checkedState !! rowIndex with
  | Some marks =>
      match marks !! union with
      | Some b => b
      | None => inherited union
      end
  | None => false
  end.

(** A [Map<string, Candidate>] in insertion order. *)
Definition Map_has (m : list (string * Candidate)) (k : string) : bool :=
  existsb (fun e => String.eqb (fst e) k) m.

(** [candidatesMap.get(identifier)!.unions.add(union)] *)
Fixpoint add_union (m : list (string * Candidate)) (k union : string)
  : list (string * Candidate) :=
  match m with
  | [] => []
  | (k', c) :: m' =>
      if String.eqb k' k then
        (k', {| cand_unions := Set_add union (cand_unions c);
                cand_row := cand_row c |}) :: m'
      else (k', c) :: add_union m' k union
  end.

Section Report.
Context `{Host}.

Definition cell (row : TableRow) (k : string) : string :=
  ToString (nullish (prop row k) (VStr EmptyString)).

Definition getCandidateIdentifier (row : TableRow) : string :=
  let keys := keys row in
  let surnameKeys := sort (List.filter (test_ci "apellidos") keys) in
  let nameKeys :=
    sort (List.filter
            (fun k => test_ci "nombre" k && negb (test_ci "apellidos" k)) keys) in
  let fullNameParts := map (cell row) surnameKeys ++ map (cell row) nameKeys in
  match fullNameParts with
  | _ :: _ => trim (join " " fullNameParts)
  | [] =>
      let allNameKeys :=
        sort (List.filter
                (fun k => test_ci "nombre" k || test_ci "apellidos" k
                          || test_ci "name" k || test_ci "candidato" k) keys) in
      match allNameKeys with
      | _ :: _ => trim (join " " (map (cell row) allNameKeys))
      | [] =>
          match List.find
                  (fun k => test_ci "dni" k || test_ci "nif" k || test_ci "id" k)
                  keys with
          | Some dniKey => ToString (prop row dniKey)
          | None =>
              ToString
                (nullish (List.hd VUndefined (values row))
                   (VStr "Candidato Desconocido"))
          end
      end
  end.

(** One turn of [data.forEach((row, rowIndex) => ...)]. *)
Definition visit_row (checkedState : gmap nat (gmap string bool))
    (allUnions : list string) (candidatesMap : list (string * Candidate))
    (indexed : nat * TableRow) : list (string * Candidate) :=
  let '(rowIndex, row) := indexed in
  let checkedUnionsForRow := List.filter (checked checkedState rowIndex) allUnions in
  match checkedUnionsForRow with
  | [] => candidatesMap
  | _ :: _ =>
      let identifier := getCandidateIdentifier row in
      let candidatesMap :=
        if Map_has candidatesMap identifier then candidatesMap
        else candidatesMap ++ [(identifier, {| cand_unions := []; cand_row := row |})] in
      fold_left (fun m union => add_union m identifier union)
        checkedUnionsForRow candidatesMap
  end.

Definition candidatesMap_of (data : list TableRow)
    (checkedState : gmap nat (gmap string bool)) (allUnions : list string)
  : list (string * Candidate) :=
  fold_left (visit_row checkedState allUnions) (imap (fun i row => (i, row)) data) [].

Definition actualDuplicates_of (candidatesMap : list (string * Candidate))
  : list Duplicate :=
  map (fun candidate =>
         {| dup_identifier := getCandidateIdentifier (cand_row candidate);
            dup_unions := sort (cand_unions candidate);
            dup_row := cand_row candidate |})
    (List.filter (fun candidate => (1 <? length (cand_unions candidate))%nat)
       (map snd candidatesMap)).

Definition candidatesInUnion (actualDuplicates : list Duplicate) (union : string)
  : list Entry :=
  map (fun dup =>
         {| identifier := dup_identifier dup;
            otherUnions :=
              List.filter (fun u => negb (String.eqb u union)) (dup_unions dup);
            row := dup_row dup |})
    (List.filter (fun dup => bool_decide (union ∈ dup_unions dup)) actualDuplicates).

(** One turn of [allUnions.forEach(union => ...)] on [groupedByUnion], which
    is kept as the map from a union to the list assigned under its name. (An
    assignment under the name [__proto__] makes no own property: it makes the
    list the prototype of the object, where the read [groupedByUnion[union]]
    finds it and [Object.keys] does not.) *)
Definition group_union (actualDuplicates : list Duplicate)
    (groupedByUnion : gmap string (list Entry)) (union : string)
  : gmap string (list Entry) :=
  match candidatesInUnion actualDuplicates union with
  | [] => groupedByUnion
  | candidatesInThisUnion =>
      <[union :=
          sort_by (fun a b => localeCompare (identifier a) (identifier b))
            candidatesInThisUnion]> groupedByUnion
  end.

(** The memoised value [duplicatedCandidatesByUnion] of the component. *)
Definition duplicatedCandidatesByUnion (data : list TableRow)
    (checkedState : gmap nat (gmap string bool)) (allUnions : list string)
  : gmap string (list Entry) :=
  let candidatesMap := candidatesMap_of data checkedState allUnions in
  let actualDuplicates := actualDuplicates_of candidatesMap in
  fold_left (group_union actualDuplicates) allUnions ∅.

End Report.

End Report.

(** ** The application component: text search *)

Module App.
Import JsString Obj.

(** The class of the combining marks U+0300..U+036F: in UTF-8, the two-byte
    sequences CC 80 .. CD AF. *)
Definition is_combining (a b : ascii) : bool :=
  let x := nat_of_ascii a in
  let y := nat_of_ascii b in
  ((x =? 204)%nat && (128 <=? y)%nat && (y <=? 191)%nat)
  || ((x =? 205)%nat && (128 <=? y)%nat && (y <=? 175)%nat).

Fixpoint strip_diacritics (s : string) : string :=
  match s with
  | EmptyString => EmptyString
  | String a s' =>
      match s' with
      | String b r =>
          if is_combining a b then strip_diacritics r
          else String a (strip_diacritics s')
      | EmptyString => String a EmptyString
      end
  end.

(** The punctuation class of the last [replace] of [normalizeText]. *)
Definition is_punctuation (c : ascii) : bool :=
  existsb (Ascii.eqb c)
    (list_ascii_of_string ".,/#!$%^&*;:{}=-_`~()").

Record Indexed : Type := {
  row : TableRow;
  originalIndex : nat
}.

Record Searchable : Type := {
  searchableString : string;
  searchable_index : nat
}.

Section Search.
Context `{Host}.

Definition normalizeText (text : string) : string :=
  match text with
  | EmptyString => EmptyString
  | _ =>
      filter_chars (fun c => negb (is_punctuation c))
        (toLowerCase (strip_diacritics (normalizeNFD text)))
  end.

(** [parsedData.map((row, index) => ({ row, originalIndex: index }))] *)
Definition withIndices (data : list TableRow) : list Indexed :=
  imap (fun index row => {| row := row; originalIndex := index |}) data.

(** The effect that fills [searchableData]. *)
Definition searchableData_of (originalData : list Indexed) : list Searchable :=
  map (fun d =>
         {| searchableString :=
              normalizeText (join " " (map join_item (values (row d))));
            searchable_index := originalIndex d |})
    originalData.

Definition searchTerms_of (searchTerm : string) : list string :=
  let normalizedSearch := normalizeText searchTerm in
  List.filter (fun term => negb (String.eqb (trim term) EmptyString))
    (split " " normalizedSearch).

(** The effect that fills [filteredData]. *)
Definition filteredData_of (searchTerm : string) (originalData : list Indexed)
    (searchableData : list Searchable) : list Indexed :=
  let searchTerms := searchTerms_of searchTerm in
  match searchTerms with
  | [] => originalData
  | _ :: _ =>
      let filteredIndexes : gset nat :=
        list_to_set
          (map searchable_index
             (List.filter
                (fun s => forallb (fun term => includes (searchableString s) term)
                            searchTerms)
                searchableData)) in
      List.filter (fun d => bool_decide (originalIndex d ∈ filteredIndexes))
        originalData
  end.

(** The rows shown for a data set and a search term, once both effects ran. *)
Definition search (data : list TableRow) (searchTerm : string) : list Indexed :=
  let originalData := withIndices data in
  filteredData_of searchTerm originalData (searchableData_of originalData).

End Search.

End App.

(** ** A host for the examples *)

Module ExampleHost.
Import JsString.

(** Lower case on Basic Latin and on the Latin-1 letters (U+00C0..U+00DE
    without U+00D7, in UTF-8 the pairs C3 80 .. C3 9E without C3 97). *)
Fixpoint lower (s : string) : string :=
  match s with
  | EmptyString => EmptyString
  | String a s' =>
      match s' with
      | String b r =>
          let y := nat_of_ascii b in
          if (nat_of_ascii a =? 195)%nat && (128 <=? y)%nat && (y <=? 158)%nat
             && negb (y =? 151)%nat
          then String a (String (ascii_of_nat (y + 32)) (lower r))
          else String (ascii_lower a) (lower s')
      | EmptyString => String (ascii_lower a) EmptyString
      end
  end.

(** The canonical decomposition of the accented letters of Spanish: the
    second byte of the letter in UTF-8 (after C3), its base letter and the
    second byte of its combining mark (after CC). *)
Definition decomposition : list (nat * (string * nat)) :=
  [ (129, ("A", 129)); (137, ("E", 129)); (141, ("I", 129)); (147, ("O", 129));
    (154, ("U", 129)); (156, ("U", 136)); (145, ("N", 131));
    (161, ("a", 129)); (169, ("e", 129)); (173, ("i", 129)); (179, ("o", 129));
    (186, ("u", 129)); (188, ("u", 136)); (177, ("n", 131)) ]%nat.

Fixpoint decompose (table : list (nat * (string * nat))) (y : nat)
  : option string :=
  match table with
  | [] => None
  | (y', (base, mark)) :: table' =>
      if (y' =? y)%nat then Some (String.append base (bytes [204; mark]%nat))
      else decompose table' y
  end.

Fixpoint nfd (s : string) : string :=
  match s with
  | EmptyString => EmptyString
  | String a s' =>
      match s' with
      | String b r =>
          if (nat_of_ascii a =? 195)%nat then
            match decompose decomposition (nat_of_ascii b) with
            | Some d => String.append d (nfd r)
            | None => String a (nfd s')
            end
          else String a (nfd s')
      | EmptyString => String a EmptyString
      end
  end.

Definition number_toString (q : Q) : string :=
  if Qeq_bool q (inject_Z (Qfloor q)) then string_of_Z (Qfloor q) else "NaN".

(** A host in a zone at a fixed offset [tza] (in milliseconds) from UTC. Its
    case mapping and normalisation are the platform's on Basic Latin and on
    the accented letters of Spanish; its free-form date parser recognises
    nothing. *)
Definition host (tza : Z) : Host := {|
  toLowerCase := lower;
  normalizeNFD := nfd;
  LocalTZA := fun _ _ => tza;
  Date_parse := fun _ => None;
  Number_toString := number_toString;
  Date_toString := fun _ => "Invalid Date";
  localeCompare := JsArray.default_compare;
  keys_of_null_message := "Cannot convert undefined or null to object"
|}.

(** Western European Time, the zone of the Canary Islands in winter. *)
Definition canarias : Host := host 0.

(** Eastern Standard Time (UTC-5). *)
Definition new_york : Host := host (-18000000).

End ExampleHost.

(** ** [src/components/Report.tsx]: what the report shows *)

Module ReportView.
Import JsString Obj.

(** An element of an array destructuring, as a template literal prints it:
    a missing element is [undefined]. *)
Definition element (parts : list string) (i : nat) : string :=
  nth i parts "undefined"%string.

(** [formatDisplayDate]. Neither [split] nor the template literal throws, so
    the [catch] clause is never entered. *)
Definition formatDisplayDate (dateString : string) : string :=
  match dateString with
  | EmptyString => "No especificada"
  | _ =>
      let parts := split "-" dateString in
      let year := element parts 0 in
      let month := element parts 1 in
      let day := element parts 2 in
      String.append day
        (String.append "/" (String.append month (String.append "/" year)))
  end.

(** [Object.keys(duplicatedCandidatesByUnion).length > 0]. The keys are the
    own properties: the unions a list was assigned under, but for the name
    [__proto__]. *)
Definition hasDuplicates (duplicatedCandidatesByUnion : gmap string (list Report.Entry))
  : bool :=
  (0 <? size (delete "__proto__"%string duplicatedCandidatesByUnion))%nat.

(** The body of the table of one union, in the PDF and in the Word document:
    the identifier and [candidate.otherUnions.join(', ')]. *)
Definition tableBody (candidates : list Report.Entry) : list (list string) :=
  map (fun candidate =>
         [Report.identifier candidate; join ", " (Report.otherUnions candidate)])
    candidates.

End ReportView.

(** ** The application component: marks and export *)

Module AppHandlers.
Import JsString Obj.

(** The updater [handleCheckboxChange] passes to [setCheckedState]:
    [{...prevState, [rowIndex]: {...prevState[rowIndex], [union]: isChecked}}]. *)
Definition mark (rowIndex : nat) (union : string) (isChecked : bool)
    (prevState : gmap nat (gmap string bool)) : gmap nat (gmap string bool) :=
  <[rowIndex := <[union := isChecked]> (default ∅ (prevState !! rowIndex))]> prevState.

(** [handleCheckboxChange]: the new values of the two state variables it
    sets, [checkedState] and [searchTerm]. *)
Definition handleCheckboxChange (rowIndex : nat) (union : string) (isChecked : bool)
    (checkedState : gmap nat (gmap string bool))
  : gmap nat (gmap string bool) * string :=
  (mark rowIndex union isChecked checkedState, EmptyString).

(** [newRow[k] = v] for a string [v], on an object made by an object literal.
    Under the name [__proto__], when the object has no own property of that
    name, the assignment goes to the accessor of [Object.prototype], which
    ignores a string; any other assignment makes or updates an own
    property. *)
Definition assign_text (k v : string) (newRow : TableRow) : TableRow :=
  if String.eqb k "__proto__" && negb (bool_decide (k ∈ keys newRow)) then newRow
  else set k (VStr v) newRow.

(** One row of [dataToExport] in [exportData]. *)
Definition export_row (visibleUnions : list string)
    (checkedState : gmap nat (gmap string bool)) (d : App.Indexed) : TableRow :=
  fold_left
    (fun newRow union =>
       assign_text union
         (if Report.checked checkedState (App.originalIndex d) union
          then "VERDADERO" else "FALSO")
         newRow)
    visibleUnions (App.row d).

Definition dataToExport (originalData : list App.Indexed)
    (visibleUnions : list string) (checkedState : gmap nat (gmap string bool))
  : list TableRow :=
  map (export_row visibleUnions checkedState) originalData.

(** [[...headers, ...visibleUnions]] *)
Definition export_headers (headers visibleUnions : list string) : list string :=
  headers ++ visibleUnions.

(** The name of the exported file:
    [`verificado_${fileName.split('.')[0]}.${format}`]. *)
Definition export_fileName (fileName format : string) : string :=
  String.append "verificado_"
    (String.append (List.hd EmptyString (split "." fileName))
       (String.append "." format)).

(** [originalData.map(d => d.row)], the rows [saveDataToDB] stores. *)
Definition rows_to_save (originalData : list App.Indexed) : list TableRow :=
  map App.row originalData.

End AppHandlers.

(** ** The settings dialog *)

Module DateModal.

(** The updater of [handleUnionToggle]. *)
Definition handleUnionToggle (union : string) (prev : list string) : list string :=
  if bool_decide (union ∈ prev)
  then List.filter (fun u => negb (String.eqb u union)) prev
  else prev ++ [union].

End DateModal.

(** ** [src/components/DataTable.tsx] *)

Module DataTable.
Import JsString Obj.

Definition ROW_HEIGHT : Z := 57.

Definition OVERSCAN_COUNT : Z := 5.

Definition UNION_COL_WIDTH : Z := 80.

(** Whether a value counts as true in a condition. (A number is finite.) *)
Definition truthy (v : Value) : bool :=
  match v with
  | VUndefined | VNull => false
  | VBool b => b
  | VNum q => negb (Qeq_bool q 0)
  | VStr s => negb (String.eqb s EmptyString)
  | VDate _ | VObject _ => true
  end.

Section Table.
Context `{Host}.

Definition getDataColumnWidth (header : string) : Z :=
  let normalizedHeader := toLowerCase header in
  if includes normalizedHeader "nombre" || includes normalizedHeader "apellidos"
     || includes normalizedHeader "candidato" then 280
  else if includes normalizedHeader "centro" then 250
  else if includes normalizedHeader "dni" || includes normalizedHeader "nif" then 120
  else if includes normalizedHeader "fecha" || includes normalizedHeader "antigüedad"
  then 140
  else 160.

(** The [getCandidateIdentifier] of this file (the one of the duplicates
    dialog is the same). *)
Definition getCandidateIdentifier (row : TableRow) : string :=
  let nameKeys :=
    List.filter
      (fun k => test_ci "nombre" k || test_ci "apellidos" k || test_ci "name" k)
      (keys row) in
  match nameKeys with
  | _ :: _ => trim (join " " (map (fun k => join_item (prop row k)) nameKeys))
  | [] =>
      match List.find truthy (values row) with
      | Some v => ToString v
      | None => "Candidato Desconocido"
      end
  end.

(** [unions.length * UNION_COL_WIDTH + headers.reduce(...)] *)
Definition totalWidth (unions headers : list string) : Z :=
  let unionsWidth := Z.of_nat (length unions) * UNION_COL_WIDTH in
  let dataWidth :=
    fold_left (fun sum header => sum + getDataColumnWidth header) headers 0 in
  unionsWidth + dataWidth.

End Table.

(** The range [onScroll] computes; [length] is [data.length]. The quotients
    are taken exactly. *)
Definition onScroll (scrollTop : Q) (clientHeight : Z) (length : Z) : Z * Z :=
  let newStart :=
    Z.max 0 (Qfloor (scrollTop / inject_Z ROW_HEIGHT) - OVERSCAN_COUNT) in
  let newEnd :=
    Z.min length
      (Qceiling ((scrollTop + inject_Z clientHeight) / inject_Z ROW_HEIGHT)
       + OVERSCAN_COUNT) in
  (newStart, newEnd).

(** The range of the layout effect, from the height of the container. *)
Definition initialRange (clientHeight : Z) (length : Z) : Z * Z :=
  let initialItemCount := Qceiling (inject_Z clientHeight / inject_Z ROW_HEIGHT) in
  let initialEnd := Z.min length (initialItemCount + OVERSCAN_COUNT * 2) in
  (0, initialEnd).

(** [Array.prototype.slice(start, end)] *)
Definition slice {A : Type} (start final : Z) (l : list A) : list A :=
  let len := Z.of_nat (length l) in
  let k := if start <? 0 then Z.max (len + start) 0 else Z.min start len in
  let e := if final <? 0 then Z.max (len + final) 0 else Z.min final len in
  take (Z.to_nat (e - k)) (drop (Z.to_nat k) l).

(** The memoised [topPadding], [bottomPadding] and [itemsToRender]. *)
Definition layout {A : Type} (data : list A) (visibleRange : Z * Z) : Z * Z * list A :=
  let '(start, final) := visibleRange in
  let top := start * ROW_HEIGHT in
  let bottom := Z.max 0 ((Z.of_nat (length data) - final) * ROW_HEIGHT) in
  let items := slice start final data in
  (top, bottom, items).

End DataTable.

(** ** The duplicates dialog ([DuplicatesModal])

    The dialog computes its own [duplicatedCandidatesByUnion], from the
    visible unions and with the [getCandidateIdentifier] it shares with the
    table; its entries carry no row. *)

Module DuplicatesModal.
Import JsString Obj JsArray.

(** An element of [actualDuplicates]. *)
Record Duplicate : Type := {
  dup_identifier : string;
  dup_unions : list string
}.

(** An element of a list of [groupedByUnion]. *)
Record Entry : Type := {
  identifier : string;
  otherUnions : list string
}.

Section Modal.
Context `{Host}.

(** One turn of [data.forEach((row, rowIndex) => ...)]. *)
Definition visit_row (checkedState : gmap nat (gmap string bool))
    (unions : list string) (candidatesMap : list (string * Report.Candidate))
    (indexed : nat * TableRow) : list (string * Report.Candidate) :=
  let '(rowIndex, row) := indexed in
  let checkedUnionsForRow := List.filter (Report.checked checkedState rowIndex) unions in
  match checkedUnionsForRow with
  | [] => candidatesMap
  | _ :: _ =>
      let identifier := DataTable.getCandidateIdentifier row in
      let candidatesMap :=
        if Report.Map_has candidatesMap identifier then candidatesMap
        else candidatesMap
             ++ [(identifier, {| Report.cand_unions := []; Report.cand_row := row |})] in
      fold_left (fun m union => Report.add_union m identifier union)
        checkedUnionsForRow candidatesMap
  end.

Definition candidatesMap_of (data : list TableRow)
    (checkedState : gmap nat (gmap string bool)) (unions : list string)
  : list (string * Report.Candidate) :=
  fold_left (visit_row checkedState unions) (imap (fun i row => (i, row)) data) [].

Definition actualDuplicates_of (candidatesMap : list (string * Report.Candidate))
  : list Duplicate :=
  map (fun candidate =>
         {| dup_identifier := DataTable.getCandidateIdentifier (Report.cand_row candidate);
            dup_unions := sort (Report.cand_unions candidate) |})
    (List.filter (fun candidate => (1 <? length (Report.cand_unions candidate))%nat)
       (map snd candidatesMap)).

Definition candidatesInUnion (actualDuplicates : list Duplicate) (union : string)
  : list Entry :=
  map (fun dup =>
         {| identifier := dup_identifier dup;
            otherUnions :=
              List.filter (fun u => negb (String.eqb u union)) (dup_unions dup) |})
    (List.filter (fun dup => bool_decide (union ∈ dup_unions dup)) actualDuplicates).

(** One turn of [unions.forEach(union => ...)] on [groupedByUnion], kept as
    in the report: the map from a union to the list assigned under its name. *)
Definition group_union (actualDuplicates : list Duplicate)
    (groupedByUnion : gmap string (list Entry)) (union : string)
  : gmap string (list Entry) :=
  match candidatesInUnion actualDuplicates union with
  | [] => groupedByUnion
  | candidatesInThisUnion =>
      <[union :=
          sort_by (fun a b => localeCompare (identifier a) (identifier b))
            candidatesInThisUnion]> groupedByUnion
  end.

(** The memoised value [duplicatedCandidatesByUnion] of the dialog. *)
Definition duplicatedCandidatesByUnion (data : list TableRow)
    (checkedState : gmap nat (gmap string bool)) (unions : list string)
  : gmap string (list Entry) :=
  let candidatesMap := candidatesMap_of data checkedState unions in
  let actualDuplicates := actualDuplicates_of candidatesMap in
  fold_left (group_union actualDuplicates) unions ∅.

End Modal.

End DuplicatesModal.

(** ** Notions used in the statements *)

Module Spec.
Import JsString DateTime Obj.

(** [f] holds on the [count] integers from [lo] on. *)
Fixpoint forall_range (f : Z -> bool) (lo : Z) (count : nat) : bool :=
  match count with
  | O => true
  | S count' => f lo && forall_range f (lo + 1) count'
  end.

Fixpoint digits_only (s : string) : bool :=
  match s with
  | EmptyString => true
  | String c s' => is_digit c && digits_only s'
  end.

Definition starts_with_digit (s : string) : bool :=
  match s with
  | EmptyString => false
  | String c _ => is_digit c
  end.

Definition digit_count (n : Z) : nat :=
  if n <? 10 then 1%nat else if n <? 100 then 2%nat
  else if n <? 1000 then 3%nat else if n <? 10000 then 4%nat else 5%nat.

(** What is checked of the numeral of every number below 10010: it consists
    of digits, [parseInt] reads the number back, it has the expected length,
    and below 100 the same holds of the numeral padded to two places. *)
Definition numeral_ok (n : Z) : bool :=
  let s := string_of_Z n in
  digits_only s && (parseInt s =? n)
  && Nat.eqb (String.length s) (digit_count n)
  && (if n <? 100
      then digits_only (padStart2 s) && (parseInt (padStart2 s) =? n)
           && Nat.eqb (String.length (padStart2 s)) 2
      else true).

(** The number of days of month [m] (0-based); [leap] is 1 in a leap year. *)
Definition DaysInMonth (leap m : Z) : Z :=
  MonthStart leap (m + 1) - MonthStart leap m.

(** [day]/[month]/[year] names a day of the calendar ([month] from 1). *)
Definition calendar_date (year month day : Z) : Prop :=
  1 <= month <= 12 /\ 1 <= day <= DaysInMonth (InLeapYear year) (month - 1).

(** Zero-padded [DD-MM-YYYY]. *)
Definition dd_mm_yyyy (day month year : Z) : string :=
  String.append (padStart2 (string_of_Z day))
    (String.append "-"
       (String.append (padStart2 (string_of_Z month))
          (String.append "-" (string_of_Z year)))).

(** The calendar date of day number [n] (days since 1 January 1970), written
    [DD-MM-YYYY]. *)
Definition civil_string (n : Z) : string :=
  dd_mm_yyyy (DateFromDay n) (MonthFromDay n + 1) (YearFromDay n).

(** A year of two digits is taken in the twenty-first century. *)
Definition expand_year (year : Z) : Z :=
  if year <? 100 then year + 2000 else year.

(** The distinct elements of a scan, each at the place of its first
    occurrence. *)
Fixpoint first_seen (ks : list string) : list string :=
  match ks with
  | [] => []
  | k :: ks' => k :: filter (fun x => x <> k) (first_seen ks')
  end.

(** The column classes of [getCandidateIdentifier]: the regular expressions
    it tests the keys with. *)
Definition is_surname (k : string) : bool := test_ci "apellidos" k.

Definition is_given_name (k : string) : bool :=
  test_ci "nombre" k && negb (test_ci "apellidos" k).

Definition is_name_like (k : string) : bool :=
  test_ci "nombre" k || test_ci "apellidos" k
  || test_ci "name" k || test_ci "candidato" k.

Definition is_identifier (k : string) : bool :=
  test_ci "dni" k || test_ci "nif" k || test_ci "id" k.

(** The row has a column of the class [p]. *)
Definition has_column (p : string -> bool) (row : TableRow) : Prop :=
  exists k, k ∈ keys row /\ p k = true.

(** [undefined] or [null]: what [??] replaces. *)
Definition is_nullish (v : Value) : Prop := v = VUndefined \/ v = VNull.

(** The value that stands for an unknown candidate. *)
Definition sentinel : string := "Candidato Desconocido".

(** The extensions [parseFile] has a branch for. *)
Definition supported : list string := ["csv"; "json"; "xlsx"; "xls"]%string.

Section Zone.
Context `{Host}.

(** The zone is less than a day away from UTC. *)
Definition zone_bounded : Prop :=
  forall t isUTC, - msPerDay < LocalTZA t isUTC < msPerDay.

(** Local midnight of day [n], taken to UTC and back, is an instant of day
    [n]. (Where a change of the zone's offset skips midnight, ECMA-262 reads
    the skipped time with the offset before the change, which gives an instant
    later on the same day.) *)
Definition midnight_on_day (n : Z) : Prop :=
  Day (LocalTime (UTC (MakeDate n 0))) = n.

(** This holds of every day number: no change of offset skips a whole day. *)
Definition zone_keeps_midnight : Prop := forall n, midnight_on_day n.

(** This holds of every local day that occurs, that is, of the local day of
    every instant. *)
Definition zone_days_have_midnight : Prop :=
  forall t, midnight_on_day (Day (LocalTime t)).

End Zone.

(** A cell of a date column: [v] is what row [i] of [data] holds in column
    [h], a header of [headers] that indicates dates. *)
Definition date_cell `{Host} (data : list TableRow) (headers : list string)
    (i : nat) (h : string) (v : Value) : Prop :=
  NoDup headers /\ h ∈ headers /\ FileParser.is_date_header h = true
  /\ exists row, data !! i = Some row /\ get row h = Some v.

(** What row [i] holds in column [h] after [processDataForDates]. *)
Definition cell_after `{Host} (data : list TableRow) (headers : list string)
    (i : nat) (h : string) : option Value :=
  row ← FileParser.processDataForDates data headers !! i; get row h.

(** *** Search *)

Section SearchSpec.
Context `{Host}.

(** The indexed text of a row: its values joined by spaces, normalised. *)
Definition searchable_text (r : TableRow) : string :=
  App.normalizeText (join " " (map join_item (values r))).

(** The text of the row contains every term. *)
Definition matches (terms : list string) (d : App.Indexed) : bool :=
  forallb (fun term => includes (searchable_text (App.row d)) term) terms.

End SearchSpec.

(** *** Duplicates *)

(** The mark the selection state holds for a row and a union: the boolean the
    state maps them to, the absence of an entry meaning unchecked. *)
Definition own_mark (checkedState : gmap nat (gmap string bool))
    (rowIndex : nat) (union : string) : bool :=
  match checkedState !! rowIndex with
  | Some marks => default false (marks !! union)
  | None => false
  end.

(** No union of the list has the name of a member of [Object.prototype]. *)
Definition plain_unions (allUnions : list string) : Prop :=
  forall u, u ∈ allUnions -> Report.inherited u = false.

Section DuplicateSpec.
Context `{Host}.

(** The unions checked for row [i]: the [checkedUnionsForRow] of the source,
    the unions of [allUnions] under which the read of the marks of the row
    counts as true. *)
Definition checked_unions (checkedState : gmap nat (gmap string bool))
    (allUnions : list string) (i : nat) : gset string :=
  list_to_set (List.filter (Report.checked checkedState i) allUnions).

(** The accumulated union set of the identity [X]: the union, over the
    rows that resolve to [X], of the unions checked for the row. *)
Definition accumulated (data : list TableRow)
    (checkedState : gmap nat (gmap string bool)) (allUnions : list string)
    (X : string) : gset string :=
  ⋃ (imap (fun i row =>
             if decide (Report.getCandidateIdentifier row = X)
             then checked_unions checkedState allUnions i
             else ∅) data).

(** The identity [X] is in the list of union [U]. *)
Definition listed (result : gmap string (list Report.Entry)) (U X : string) : Prop :=
  exists l e, result !! U = Some l /\ e ∈ l /\ Report.identifier e = X.

(** The identity [X] is in the list of union [U], with [V] among its other
    unions. *)
Definition listed_with (result : gmap string (list Report.Entry))
    (U X V : string) : Prop :=
  exists l e, result !! U = Some l /\ e ∈ l /\ Report.identifier e = X
              /\ V ∈ Report.otherUnions e.

End DuplicateSpec.

(** The entry of a key in a [Map] kept as a list. *)
Fixpoint Map_get (m : list (string * Report.Candidate)) (k : string)
  : option Report.Candidate :=
  match m with
  | [] => None
  | (k', c) :: m' => if String.eqb k' k then Some c else Map_get m' k
  end.

(** The candidate with one more union, and with more unions. *)
Definition with_union (u : string) (c : Report.Candidate) : Report.Candidate :=
  {| Report.cand_unions := Set_add u (Report.cand_unions c);
     Report.cand_row := Report.cand_row c |}.

Definition with_unions (cu : list string) (c : Report.Candidate) : Report.Candidate :=
  {| Report.cand_unions :=
       fold_left (fun s x => Set_add x s) cu (Report.cand_unions c);
     Report.cand_row := Report.cand_row c |}.

(** What [candidatesMap] holds once the rows have been visited: one entry for
    every identity with a checked union, with a row of that identity and its
    accumulated union set. *)
Definition candidates_ok `{Host} (data : list TableRow)
    (checkedState : gmap nat (gmap string bool)) (allUnions : list string)
    (m : list (string * Report.Candidate)) : Prop :=
  NoDup (m.*1)
  /\ (forall k c, Map_get m k = Some c ->
        Report.getCandidateIdentifier (Report.cand_row c) = k
        /\ NoDup (Report.cand_unions c)
        /\ forall u, u ∈ Report.cand_unions c
                     <-> u ∈ accumulated data checkedState allUnions k)
  /\ (forall k u, u ∈ accumulated data checkedState allUnions k ->
        is_Some (Map_get m k)).

(** The data of the examples: two rows of one candidate, one checked under
    CCOO and one under UGT, and a candidate checked under SB only. *)
Definition example_rows : list TableRow :=
  [ [("Nombre", VStr "Juan Pérez"); ("Centro", VStr "Telde")];
    [("Nombre", VStr "Juan Pérez"); ("Centro", VStr "Arucas")];
    [("Nombre", VStr "Ana Suárez"); ("Centro", VStr "Telde")] ].

Definition example_checked : gmap nat (gmap string bool) :=
  {[ 0%nat := {[ "CCOO"%string := true ]};
     1%nat := {[ "UGT"%string := true; "SB"%string := false ]};
     2%nat := {[ "SB"%string := true ]} ]}.

(** The unions of the application: the value the component [App] gives
    [allUnions], which it never sets again. *)
Definition example_unions : list string :=
  ["CCOO"; "UGT"; "SB"; "SITCA"; "OTRO"]%string.

End Spec.

(** ** Further notions the properties are stated with *)

Module Notions.
Import JsString DateTime Obj Spec.

(** The string has the character [c]. *)
Fixpoint has_char (c : ascii) (s : string) : bool :=
  match s with
  | EmptyString => false
  | String x s' => Ascii.eqb x c || has_char c s'
  end.

(** [a] does not come after [b] under the comparison function. *)
Definition compare_le {A : Type} (compare : A -> A -> Z) (a b : A) : Prop :=
  compare a b <= 0.

(** The comparison function is a consistent order, as
    [Array.prototype.sort] asks: two elements are never each strictly after
    the other, and not coming after is transitive. *)
Definition consistent_order {A : Type} (compare : A -> A -> Z) : Prop :=
  (forall a b, 0 < compare a b -> compare b a <= 0)
  /\ (forall a b c, compare a b <= 0 -> compare b c <= 0 -> compare a c <= 0).

(** The string is a date of the calendar written [DD-MM-YYYY], of a year
    after 1000. *)
Definition calendar_string (s : string) : Prop :=
  exists day month year,
    s = dd_mm_yyyy day month year /\ calendar_date year month day /\ 1000 < year.

(** The assignment [row[k] = text] makes or updates an own property of the
    row: always, but for the name [__proto__] on a row without an own
    property of that name. *)
Definition assignable (k : string) (row : TableRow) : Prop :=
  k <> "__proto__"%string \/ k ∈ keys row.

(** A value without content: what the filter on the rows of a CSV document
    tests, [val === null || val === '']. *)
Definition blank (v : Value) : bool :=
  match v with
  | VNull => true
  | VStr EmptyString => true
  | _ => false
  end.

(** The row has a value with content. *)
Definition has_content (row : TableRow) : Prop :=
  exists v, v ∈ values row /\ blank v = false.

(** Every box that reads as checked in [st] reads as checked in [st']. *)
Definition marks_included (st st' : gmap nat (gmap string bool)) : Prop :=
  forall i u, Report.checked st i u = true -> Report.checked st' i u = true.

(** An entry of the report as the duplicates dialog shows it: without the
    row. *)
Definition without_row (e : Report.Entry) : DuplicatesModal.Entry :=
  {| DuplicatesModal.identifier := Report.identifier e;
     DuplicatesModal.otherUnions := Report.otherUnions e |}.

(** A file for the examples: a CSV document of one row. *)
Definition example_file : FileParser.File :=
  {| FileParser.name := "Censo.2024.CSV";
     FileParser.papa :=
       FileParser.PapaComplete []
         (Some [Some [("Nombre", VStr "Ana Suárez"); ("Fecha alta", VStr "1/2/2020")]]);
     FileParser.text := FileParser.ReadFailed;
     FileParser.JSON_parse := inr FileParser.JsonOther;
     FileParser.workbook := FileParser.ReadFailed |}.

(** Two candidates, each checked under CCOO and UGT in the one row they
    have; the rows stand in the reverse of the alphabetical order. *)
Definition two_duplicates : list TableRow :=
  [ [("Nombre", VStr "Zoe Vera"); ("Centro", VStr "Telde")];
    [("Nombre", VStr "Ana Suárez"); ("Centro", VStr "Arucas")] ].

Definition two_duplicates_checked : gmap nat (gmap string bool) :=
  {[ 0%nat := {[ "CCOO"%string := true; "UGT"%string := true ]};
     1%nat := {[ "CCOO"%string := true; "UGT"%string := true ]} ]}.

(** What the report lists under CCOO for them. *)
Definition zoe_under_CCOO : Report.Entry :=
  {| Report.identifier := "Zoe Vera"; Report.otherUnions := ["UGT"%string];
     Report.row := [("Nombre", VStr "Zoe Vera"); ("Centro", VStr "Telde")] |}.

Definition two_duplicates_CCOO : list Report.Entry :=
  [ {| Report.identifier := "Ana Suárez"; Report.otherUnions := ["UGT"%string];
       Report.row := [("Nombre", VStr "Ana Suárez"); ("Centro", VStr "Arucas")] |};
    zoe_under_CCOO ].

End Notions.

(** * Properties *)

(** ** The calendar *)

Import JsString DateTime Obj Spec FileParser.

Ltac div_lia := Z.to_euclidean_division_equations; lia.

Lemma DaysInYear_cases y : DaysInYear y = 365 \/ DaysInYear y = 366.
Proof.
  unfold DaysInYear.
  repeat match goal with
         | |- context [negb (?a =? ?b)] => destruct (Z.eqb_spec a b); cbn [negb]
         end; auto.
Qed.

Lemma DayFromYear_succ y : DayFromYear (y + 1) = DayFromYear y + DaysInYear y.
Proof.
  unfold DayFromYear, DaysInYear.
  destruct (Z.eqb_spec (y mod 4) 0), (Z.eqb_spec (y mod 100) 0),
    (Z.eqb_spec (y mod 400) 0); cbn [negb]; div_lia.
Qed.

Lemma DayFromYear_mono y y' : y <= y' -> DayFromYear y <= DayFromYear y'.
Proof. unfold DayFromYear. intros. div_lia. Qed.

Lemma DayFromYear_lt y y' : y < y' -> DayFromYear y < DayFromYear y'.
Proof.
  intros. pose proof (DayFromYear_mono (y + 1) y' ltac:(lia)).
  pose proof (DayFromYear_succ y). pose proof (DaysInYear_cases y). lia.
Qed.

Lemma YearFromDay_spec n :
  DayFromYear (YearFromDay n) <= n < DayFromYear (YearFromDay n + 1).
Proof.
  unfold YearFromDay. cbv zeta.
  destruct (Z.ltb_spec n (DayFromYear (1970 + 400 * n / 146097))).
  - replace (1970 + 400 * n / 146097 - 1 + 1) with (1970 + 400 * n / 146097) by lia.
    split; [|lia]. unfold DayFromYear in *. div_lia.
  - destruct (Z.leb_spec (DayFromYear (1970 + 400 * n / 146097 + 1)) n).
    + split; [lia|]. unfold DayFromYear in *. div_lia.
    + lia.
Qed.

Lemma YearFromDay_unique n y :
  DayFromYear y <= n < DayFromYear (y + 1) -> YearFromDay n = y.
Proof.
  intros Hy. pose proof (YearFromDay_spec n) as Hs.
  destruct (Z.lt_trichotomy (YearFromDay n) y) as [Hlt | [Heq | Hgt]]; [|done|].
  - pose proof (DayFromYear_mono (YearFromDay n + 1) y ltac:(lia)). lia.
  - pose proof (DayFromYear_mono (y + 1) (YearFromDay n) ltac:(lia)). lia.
Qed.

Lemma YearFromDay_ge n y : DayFromYear y <= n -> y <= YearFromDay n.
Proof.
  intros Hy. pose proof (YearFromDay_spec n) as Hs.
  destruct (Z.le_gt_cases y (YearFromDay n)); [done|].
  pose proof (DayFromYear_mono (YearFromDay n + 1) y ltac:(lia)). lia.
Qed.

Lemma YearFromDay_lt n y : n < DayFromYear y -> YearFromDay n < y.
Proof.
  intros Hy. pose proof (YearFromDay_spec n) as Hs.
  destruct (Z.lt_ge_cases (YearFromDay n) y); [done|].
  pose proof (DayFromYear_mono y (YearFromDay n) ltac:(lia)). lia.
Qed.

Lemma DayWithinYear_range n :
  0 <= DayWithinYear n < DaysInYear (YearFromDay n).
Proof.
  unfold DayWithinYear. pose proof (YearFromDay_spec n).
  rewrite DayFromYear_succ in *. lia.
Qed.

Lemma InLeapYear_DaysInYear y : DaysInYear y = 365 + InLeapYear y.
Proof.
  unfold InLeapYear. destruct (DaysInYear_cases y) as [-> | ->]; reflexivity.
Qed.

Lemma InLeapYear_cases y : InLeapYear y = 0 \/ InLeapYear y = 1.
Proof. unfold InLeapYear. destruct (_ =? _); auto. Qed.

Lemma month_cases m :
  0 <= m <= 11 ->
  m = 0 \/ m = 1 \/ m = 2 \/ m = 3 \/ m = 4 \/ m = 5 \/ m = 6 \/ m = 7
  \/ m = 8 \/ m = 9 \/ m = 10 \/ m = 11.
Proof. lia. Qed.

Ltac split_month H :=
  let Hc := fresh "Hc" in
  pose proof (month_cases _ H) as Hc;
  repeat destruct Hc as [Hc | Hc]; subst;
  change (0 + 1) with 1 in *; change (1 + 1) with 2 in *;
  change (2 + 1) with 3 in *; change (3 + 1) with 4 in *;
  change (4 + 1) with 5 in *; change (5 + 1) with 6 in *;
  change (6 + 1) with 7 in *; change (7 + 1) with 8 in *;
  change (8 + 1) with 9 in *; change (9 + 1) with 10 in *;
  change (10 + 1) with 11 in *; change (11 + 1) with 12 in *;
  cbv [MonthStart] in *.

Ltac split_thresholds :=
  repeat match goal with
    | |- context [?a <? ?b] => destruct (Z.ltb_spec a b)
    end.

Lemma MonthOfYearDay_range leap d : 0 <= MonthOfYearDay leap d <= 11.
Proof. unfold MonthOfYearDay. split_thresholds; lia. Qed.

Lemma MonthOfYearDay_spec leap d :
  0 <= leap <= 1 -> 0 <= d < 365 + leap ->
  MonthStart leap (MonthOfYearDay leap d) <= d
  < MonthStart leap (MonthOfYearDay leap d + 1).
Proof.
  intros Hl Hd. unfold MonthOfYearDay. split_thresholds;
    match goal with |- context [MonthStart _ (?a + 1)] =>
      let v := eval cbv in (a + 1) in change (a + 1) with v end;
    cbv [MonthStart]; lia.
Qed.

Lemma MonthOfYearDay_unique leap d m :
  0 <= leap <= 1 -> 0 <= m <= 11 ->
  MonthStart leap m <= d < MonthStart leap (m + 1) ->
  MonthOfYearDay leap d = m.
Proof.
  intros Hl Hm Hd. unfold MonthOfYearDay. split_month Hm; split_thresholds; lia.
Qed.

Lemma MonthFromDay_range n : 0 <= MonthFromDay n <= 11.
Proof. apply MonthOfYearDay_range. Qed.

Lemma DateFromDay_range n :
  1 <= DateFromDay n <= DaysInMonth (InLeapYear (YearFromDay n)) (MonthFromDay n).
Proof.
  pose proof (DayWithinYear_range n) as Hd. rewrite InLeapYear_DaysInYear in Hd.
  pose proof (InLeapYear_cases (YearFromDay n)) as Hl.
  pose proof (MonthOfYearDay_spec (InLeapYear (YearFromDay n)) (DayWithinYear n)
                ltac:(lia) Hd).
  unfold DateFromDay, DaysInMonth, MonthFromDay. lia.
Qed.

Lemma MakeDay_in_year y m d :
  0 <= m <= 11 ->
  MakeDay y m d = DayFromYear y + MonthStart (InLeapYear y) m + d - 1.
Proof.
  intros Hm. unfold MakeDay. cbv zeta.
  rewrite Z.div_small, Z.mod_small, Z.add_0_r by lia. done.
Qed.

Lemma MakeDay_of_day n :
  MakeDay (YearFromDay n) (MonthFromDay n) (DateFromDay n) = n.
Proof.
  rewrite MakeDay_in_year by apply MonthFromDay_range.
  unfold DateFromDay, DayWithinYear. lia.
Qed.

Lemma MonthStart_bounds leap m :
  0 <= leap <= 1 -> 0 <= m <= 11 ->
  0 <= MonthStart leap m /\ MonthStart leap m < MonthStart leap (m + 1)
  /\ MonthStart leap (m + 1) <= 365 + leap.
Proof. intros Hl Hm. split_month Hm; lia. Qed.

Lemma day_of_MakeDay y m d :
  0 <= m <= 11 -> 1 <= d <= DaysInMonth (InLeapYear y) m ->
  YearFromDay (MakeDay y m d) = y /\ MonthFromDay (MakeDay y m d) = m
  /\ DateFromDay (MakeDay y m d) = d.
Proof.
  intros Hm Hd. unfold DaysInMonth in Hd.
  pose proof (InLeapYear_cases y) as Hl.
  pose proof (MonthStart_bounds (InLeapYear y) m ltac:(lia) Hm) as Hb.
  assert (Hy : YearFromDay (MakeDay y m d) = y).
  { apply YearFromDay_unique.
    rewrite MakeDay_in_year, DayFromYear_succ, InLeapYear_DaysInYear by done. lia. }
  assert (Hw : DayWithinYear (MakeDay y m d) = MonthStart (InLeapYear y) m + d - 1).
  { unfold DayWithinYear. rewrite Hy, MakeDay_in_year by done. lia. }
  assert (Hmo : MonthFromDay (MakeDay y m d) = m).
  { unfold MonthFromDay. rewrite Hy, Hw. apply MonthOfYearDay_unique; lia. }
  split; [done|]. split; [done|].
  unfold DateFromDay. rewrite Hmo, Hw, Hy. lia.
Qed.

(** ** Strings and numerals *)

Lemma forall_range_spec f lo count :
  forall_range f lo count = true ->
  forall z, lo <= z < lo + Z.of_nat count -> f z = true.
Proof.
  revert lo. induction count as [|count IH]; intros lo Hf z Hz; [lia|].
  cbn [forall_range] in Hf. apply andb_true_iff in Hf as [Hlo Hrest].
  destruct (Z.eq_dec z lo) as [-> | Hne]; [done|].
  apply (IH (lo + 1)); [done | lia].
Qed.

Lemma append_nil r : String.append EmptyString r = r.
Proof. reflexivity. Qed.

Lemma append_cons c a r :
  String.append (String c a) r = String c (String.append a r).
Proof. reflexivity. Qed.

Lemma span_digits_app a r :
  digits_only a = true -> starts_with_digit r = false ->
  span_digits (String.append a r) = (a, r).
Proof.
  intros Ha Hr. induction a as [|c a IH].
  - rewrite append_nil. destruct r as [|c r]; [done|].
    cbn [starts_with_digit span_digits] in *. by rewrite Hr.
  - cbn [digits_only] in Ha. apply andb_true_iff in Ha as [Hc Ha].
    rewrite append_cons. cbn [span_digits]. by rewrite Hc, IH.
Qed.

Lemma span_digits_spec s d r :
  span_digits s = (d, r) ->
  s = String.append d r /\ digits_only d = true /\ starts_with_digit r = false.
Proof.
  revert d r. induction s as [|c s IH]; intros d r Hs; cbn [span_digits] in Hs.
  - by inversion Hs.
  - destruct (is_digit c) eqn:Hc.
    + destruct (span_digits s) as [d' r'] eqn:Hsp. inversion Hs; subst.
      destruct (IH d' r eq_refl) as (-> & Hd & Hr).
      rewrite append_cons. cbn [digits_only]. by rewrite Hc, Hd.
    + inversion Hs; subst. rewrite append_nil.
      cbn [digits_only starts_with_digit]. by rewrite Hc.
Qed.

Lemma digit_val_range c : is_digit c = true -> 0 <= digit_val c <= 9.
Proof.
  unfold is_digit, digit_val. cbv zeta. intros Hc.
  apply andb_true_iff in Hc as [H1 H2].
  apply Nat.leb_le in H1, H2. lia.
Qed.

Lemma parseInt_acc_bounds s acc :
  digits_only s = true -> 0 <= acc ->
  acc * 10 ^ Z.of_nat (String.length s) <= parseInt_acc acc s
  < (acc + 1) * 10 ^ Z.of_nat (String.length s).
Proof.
  revert acc. induction s as [|c s IH]; intros acc Hs Hacc; cbn [parseInt_acc String.length].
  - change (10 ^ Z.of_nat 0) with 1. lia.
  - cbn [digits_only] in Hs. apply andb_true_iff in Hs as [Hc Hs].
    pose proof (digit_val_range c Hc) as Hd.
    specialize (IH (10 * acc + digit_val c) Hs ltac:(lia)).
    rewrite Nat2Z.inj_succ, Z.pow_succ_r by lia.
    assert (0 < 10 ^ Z.of_nat (String.length s)) by (apply Z.pow_pos_nonneg; lia).
    nia.
Qed.

Lemma parseInt_bounds s :
  digits_only s = true -> 0 <= parseInt s < 10 ^ Z.of_nat (String.length s).
Proof.
  intros Hs. pose proof (parseInt_acc_bounds s 0 Hs ltac:(lia)).
  unfold parseInt. lia.
Qed.

Lemma digits_of_length fuel n acc :
  (String.length acc <= String.length (digits_of fuel n acc))%nat.
Proof.
  revert n acc. induction fuel as [|fuel IH]; intros n acc; cbn [digits_of]; [lia|].
  destruct (n <? 10); [cbn; lia|].
  etrans; [|apply IH]. cbn. lia.
Qed.

Lemma string_of_Z_5_digits n :
  10000 <= n -> (5 <= String.length (string_of_Z n))%nat.
Proof.
  intros Hn. unfold string_of_Z.
  destruct (Z.ltb_spec n 0); [lia|].
  assert (13 <= Z.log2 n) by (apply Z.log2_le_pow2; lia).
  assert (Hf : exists f, Z.to_nat (Z.log2 n) = S (S (S (S f)))) by
    (exists (Z.to_nat (Z.log2 n) - 4)%nat; lia).
  destruct Hf as [f ->]. cbn [digits_of].
  assert (1000 <= n / 10) by (apply Z.div_le_lower_bound; lia).
  assert (100 <= n / 10 / 10) by (apply Z.div_le_lower_bound; lia).
  assert (10 <= n / 10 / 10 / 10) by (apply Z.div_le_lower_bound; lia).
  repeat match goal with
         | |- context [?a <? 10] => destruct (Z.ltb_spec a 10); [lia|]
         end.
  destruct (_ <? 10).
  - cbn. lia.
  - etrans; [|apply digits_of_length]. cbn. lia.
Qed.

Lemma numeral_table : forall_range numeral_ok 0 (Z.to_nat 10010) = true.
Proof. vm_compute. reflexivity. Qed.

Lemma numeral_facts n :
  0 <= n < 10010 ->
  digits_only (string_of_Z n) = true /\ parseInt (string_of_Z n) = n
  /\ (1000 <= n < 10000 -> String.length (string_of_Z n) = 4%nat)
  /\ (10000 <= n -> String.length (string_of_Z n) = 5%nat).
Proof.
  intros Hn. pose proof (forall_range_spec _ _ _ numeral_table n ltac:(lia)) as Hok.
  unfold numeral_ok in Hok. cbv zeta in Hok.
  apply andb_true_iff in Hok as [Hok _].
  apply andb_true_iff in Hok as [Hok Hlen].
  apply andb_true_iff in Hok as [Hdig Hparse].
  apply Z.eqb_eq in Hparse. apply Nat.eqb_eq in Hlen.
  unfold digit_count in Hlen.
  split; [done|]. split; [done|].
  split; intros Hr;
    destruct (Z.ltb_spec n 10), (Z.ltb_spec n 100), (Z.ltb_spec n 1000),
      (Z.ltb_spec n 10000); lia.
Qed.

Lemma padded_facts n :
  0 <= n < 100 ->
  digits_only (padStart2 (string_of_Z n)) = true
  /\ parseInt (padStart2 (string_of_Z n)) = n
  /\ String.length (padStart2 (string_of_Z n)) = 2%nat.
Proof.
  intros Hn. pose proof (forall_range_spec _ _ _ numeral_table n ltac:(lia)) as Hok.
  unfold numeral_ok in Hok. cbv zeta in Hok.
  apply andb_true_iff in Hok as [_ Hok].
  destruct (Z.ltb_spec n 100); [|lia].
  apply andb_true_iff in Hok as [Hok Hlen].
  apply andb_true_iff in Hok as [Hdig Hparse].
  apply Z.eqb_eq in Hparse. apply Nat.eqb_eq in Hlen. done.
Qed.

(** ** The day/month/year pattern *)

Lemma span_digits_all a : digits_only a = true -> span_digits a = (a, EmptyString).
Proof.
  intros Ha. induction a as [|c a IH]; [done|].
  cbn [digits_only] in Ha. apply andb_true_iff in Ha as [Hc Ha].
  cbn [span_digits]. by rewrite Hc, IH.
Qed.

Lemma match_dmy_formatted a b c :
  digits_only a = true -> digits_only b = true -> digits_only c = true ->
  String.length a = 2%nat -> String.length b = 2%nat ->
  match_dmy (String.append a (String.append "-" (String.append b (String.append "-" c))))
  = if between 2 4 (String.length c) then Some (a, b, c) else None.
Proof.
  intros Ha Hb Hc La Lb. unfold match_dmy.
  rewrite span_digits_app by done. rewrite La. cbn [between Nat.leb andb].
  rewrite append_cons, append_nil. cbn [is_separator Ascii.eqb Bool.eqb orb].
  rewrite span_digits_app by done. rewrite Lb. cbn [between Nat.leb andb].
  rewrite append_cons, append_nil. cbn [is_separator Ascii.eqb Bool.eqb orb].
  rewrite span_digits_all by done. by destruct (between 2 4 _).
Qed.

Lemma match_dmy_inv s p1 p2 p3 :
  match_dmy s = Some (p1, p2, p3) ->
  exists c1 c2,
    s = String.append p1 (String c1 (String.append p2 (String c2 p3)))
    /\ is_separator c1 = true /\ is_separator c2 = true
    /\ digits_only p1 = true /\ digits_only p2 = true /\ digits_only p3 = true
    /\ (1 <= String.length p1 <= 2)%nat /\ (1 <= String.length p2 <= 2)%nat
    /\ (2 <= String.length p3 <= 4)%nat.
Proof.
  unfold match_dmy. intros Hm.
  destruct (span_digits s) as [d1 r1] eqn:H1.
  destruct (between 1 2 (String.length d1)) eqn:L1; [|done].
  destruct r1 as [|c1 s2]; [done|].
  destruct (is_separator c1) eqn:Hc1; [|done].
  destruct (span_digits s2) as [d2 r2] eqn:H2.
  destruct (between 1 2 (String.length d2)) eqn:L2; [|done].
  destruct r2 as [|c2 s3]; [done|].
  destruct (is_separator c2) eqn:Hc2; [|done].
  destruct (span_digits s3) as [d3 r3] eqn:H3.
  destruct (between 2 4 (String.length d3)) eqn:L3; [|done].
  destruct r3; [|done]. inversion Hm; subst.
  apply span_digits_spec in H1 as (-> & D1 & _).
  apply span_digits_spec in H2 as (-> & D2 & _).
  apply span_digits_spec in H3 as (-> & D3 & _).
  unfold between in *.
  apply andb_true_iff in L1 as [?%Nat.leb_le ?%Nat.leb_le].
  apply andb_true_iff in L2 as [?%Nat.leb_le ?%Nat.leb_le].
  apply andb_true_iff in L3 as [?%Nat.leb_le ?%Nat.leb_le].
  exists c1, c2. replace (String.append p3 EmptyString) with p3.
  - repeat split; done || lia.
  - clear. induction p3 as [|c p IH]; [done|]. rewrite append_cons. by f_equal.
Qed.

Lemma pow10_le k n : (k <= n)%nat -> 10 ^ Z.of_nat k <= 10 ^ Z.of_nat n.
Proof. intros. apply Z.pow_le_mono_r; lia. Qed.

Lemma match_dmy_bounds s p1 p2 p3 :
  match_dmy s = Some (p1, p2, p3) ->
  0 <= parseInt p1 < 100 /\ 0 <= parseInt p2 < 100 /\ 0 <= parseInt p3 < 10000.
Proof.
  intros Hm. apply match_dmy_inv in Hm
    as (c1 & c2 & _ & _ & _ & D1 & D2 & D3 & L1 & L2 & L3).
  pose proof (parseInt_bounds p1 D1). pose proof (parseInt_bounds p2 D2).
  pose proof (parseInt_bounds p3 D3).
  pose proof (pow10_le (String.length p1) 2 ltac:(lia)).
  pose proof (pow10_le (String.length p2) 2 ltac:(lia)).
  pose proof (pow10_le (String.length p3) 4 ltac:(lia)).
  change (10 ^ Z.of_nat 2) with 100 in *. change (10 ^ Z.of_nat 4) with 10000 in *.
  lia.
Qed.

(** ** Lists *)

Lemma elem_of_List_filter {A} (f : A -> bool) (l : list A) x :
  x ∈ List.filter f l <-> x ∈ l /\ f x = true.
Proof. rewrite !list_elem_of_In. apply filter_In. Qed.

Lemma NoDup_List_filter {A} (f : A -> bool) (l : list A) :
  NoDup l -> NoDup (List.filter f l).
Proof.
  induction 1 as [|x l Hx Hl IH]; cbn [List.filter]; [constructor|].
  destruct (f x); [|done]. constructor; [|done].
  rewrite elem_of_List_filter. tauto.
Qed.

(** ** Rows *)

Lemma get_set_eq k v row : get (set k v row) k = Some v.
Proof.
  induction row as [|[k' v'] row IH]; cbn [set get].
  - by rewrite String.eqb_refl.
  - destruct (String.eqb_spec k' k) as [-> | Hne]; cbn [get].
    + by rewrite String.eqb_refl.
    + destruct (String.eqb_spec k' k); done.
Qed.

Lemma get_set_ne k k' v row : k <> k' -> get (set k v row) k' = get row k'.
Proof.
  intros Hne. induction row as [|[k0 v0] row IH]; cbn [set get].
  - destruct (String.eqb_spec k k'); done.
  - destruct (String.eqb_spec k0 k) as [-> | Hk]; cbn [get].
    + destruct (String.eqb_spec k k'); done.
    + by rewrite IH.
Qed.

Section Cells.
Context `{Host}.

Lemma accepted_normalize v d :
  date_of_cell v = Some d ->
  normalize_value v = if accepted (Some d) then VStr (formatDate d) else v.
Proof. intros Hd. unfold normalize_value. by rewrite Hd. Qed.

Lemma normalize_header_get row h h' :
  get (normalize_header row h) h'
  = if decide (h = h') then normalize_value <$> get row h else get row h'.
Proof.
  unfold normalize_header, normalize_value, prop. cbv zeta.
  destruct (get row h) as [v|] eqn:Hv; cbn [fmap option_fmap option_map].
  - destruct (date_of_cell v) as [d|] eqn:Hd.
    + destruct (accepted (Some d)).
      * case_decide as Hh; [subst; apply get_set_eq | by apply get_set_ne].
      * case_decide; by subst.
    + cbn [accepted]. case_decide; by subst.
  - cbn [date_of_cell accepted]. case_decide; by subst.
Qed.

Lemma fold_normalize_get hs row h :
  NoDup hs ->
  get (fold_left normalize_header hs row) h
  = if decide (h ∈ hs) then normalize_value <$> get row h else get row h.
Proof.
  intros Hnd. revert row. induction Hnd as [|h0 hs Hnotin Hnd IH]; intros row.
  - cbn [fold_left]. case_decide as Hin; [by apply elem_of_nil in Hin | done].
  - cbn [fold_left]. rewrite IH, !normalize_header_get.
    destruct (decide (h0 = h)) as [-> | Hne].
    + rewrite (decide_False (P := h ∈ hs)) by done.
      by rewrite (decide_True (P := h ∈ h :: hs)) by left.
    + destruct (decide (h ∈ hs)) as [Hin | Hout].
      * by rewrite (decide_True (P := h ∈ h0 :: hs)) by (right; done).
      * rewrite (decide_False (P := h ∈ h0 :: hs)); [done|].
        intros [-> | ?]%elem_of_cons; done.
Qed.

Lemma cell_after_date_cell data headers i h v :
  date_cell data headers i h v ->
  cell_after data headers i h = Some (normalize_value v).
Proof.
  intros (Hnd & Hin & Hdate & row & Hrow & Hget).
  unfold cell_after, processDataForDates. cbv zeta.
  assert (Hh : h ∈ List.filter is_date_header headers)
    by by apply elem_of_List_filter.
  assert (Hnd' : NoDup (List.filter is_date_header headers))
    by by apply NoDup_List_filter.
  destruct (List.filter is_date_header headers) as [|h0 hs] eqn:Hf.
  { by apply elem_of_nil in Hh. }
  rewrite list_lookup_fmap, Hrow. cbn [fmap option_fmap option_map mbind option_bind].
  rewrite fold_normalize_get by done. rewrite decide_True by done.
  by rewrite Hget.
Qed.

End Cells.

(** ** Double-precision arithmetic *)

Lemma nearest_even_ge_floor x : Qfloor x <= Double.nearest_even x.
Proof.
  unfold Double.nearest_even. cbv zeta.
  destruct (x - inject_Z (Qfloor x) ?= 1 # 2)%Q; [destruct (Z.even _)| |]; lia.
Qed.

Lemma nearest_even_Z x k : (x == inject_Z k)%Q -> Double.nearest_even x = k.
Proof.
  intros Hx. unfold Double.nearest_even. cbv zeta.
  assert (Hf : Qfloor x = k) by (rewrite (Qfloor_comp _ _ Hx); apply Qfloor_Z).
  rewrite Hf.
  assert (Hlt : (x - inject_Z k < 1 # 2)%Q) by (rewrite Hx; lra).
  pose proof (proj1 (Qlt_alt (x - inject_Z k) (1 # 2)) Hlt) as Hc.
  by rewrite Hc.
Qed.

Lemma pow2_pos e : (0 < 2 ^ e)%Q.
Proof. by apply Qpower_0_lt. Qed.

Lemma pow2_opp_r e : (2 ^ (- e) * 2 ^ e == 1)%Q.
Proof.
  rewrite <- Qpower_plus by done. replace (- e + e) with 0 by lia. reflexivity.
Qed.

Lemma pow2_Z e : 0 <= e -> (2 ^ e == inject_Z (2 ^ e))%Q.
Proof. intros He. symmetry. by apply (Zpower_Qpower 2). Qed.

Lemma ilog2_le x : (0 < x)%Q -> (2 ^ Double.ilog2 x <= x)%Q.
Proof.
  intros Hx. unfold Double.ilog2. cbv zeta.
  destruct (Qle_bool _ x) eqn:E; [by apply Qle_bool_iff|]. clear E.
  destruct x as [a b]. cbn [Qnum Qden].
  assert (Ha : 0 < a) by (unfold Qlt in Hx; cbn in Hx; lia).
  set (la := Z.log2 a). set (lb := Z.log2 (Z.pos b)).
  assert (Hla : 2 ^ la <= a) by (apply Z.log2_spec; lia).
  assert (Hlb : Z.pos b < 2 ^ (lb + 1)).
  { unfold lb. replace (Z.log2 (Z.pos b) + 1) with (Z.succ (Z.log2 (Z.pos b))) by lia.
    apply Z.log2_spec. lia. }
  assert (H0a : 0 <= la) by apply Z.log2_nonneg.
  assert (H0b : 0 <= lb) by apply Z.log2_nonneg.
  replace (la - lb - 1) with (la + - (lb + 1)) by lia.
  rewrite Qpower_plus, Qpower_opp by done.
  rewrite !pow2_Z by lia.
  apply Qle_shift_div_r.
  { apply (Qlt_le_trans _ (inject_Z (Z.pos b))); [reflexivity|].
    rewrite <- Zle_Qle. lia. }
  unfold Qle, Qmult, inject_Z. cbn [Qnum Qden]. nia.
Qed.

Lemma round_comp x y : (x == y)%Q -> Double.round x = Double.round y.
Proof. intros Hxy. unfold Double.round. by rewrite (Qred_complete _ _ Hxy). Qed.

Lemma Qred_inject_Z z : Qred (inject_Z z) = inject_Z z.
Proof. apply Qred_identity. cbn. apply Z.gcd_1_r. Qed.

(** An integer below [2^53] is a double. *)
Lemma round_Z x z :
  (x == inject_Z z)%Q -> Z.abs z < 2 ^ 53 -> (Double.round x == inject_Z z)%Q.
Proof.
  intros Hx Hz. rewrite (round_comp _ _ Hx). unfold Double.round. cbv zeta.
  rewrite Qred_inject_Z.
  destruct (Qeq_bool (inject_Z z) 0) eqn:E.
  { apply Qeq_bool_iff in E. by rewrite E. }
  assert (Hz0 : z <> 0).
  { intros ->. cbn in E. discriminate. }
  set (e := Double.ilog2 (Qabs (inject_Z z)) - 52).
  assert (He : e <= 0).
  { unfold e, Double.ilog2. cbn [Qabs inject_Z Qnum Qden]. cbv zeta.
    change (Z.log2 1) with 0.
    assert (Z.log2 (Z.abs z) < 53) by (apply Z.log2_lt_pow2; lia).
    destruct (Qle_bool _ _); lia. }
  assert (Hs : (inject_Z z * 2 ^ (- e) == inject_Z (z * 2 ^ (- e)))%Q).
  { rewrite inject_Z_mult, pow2_Z by lia. reflexivity. }
  rewrite (nearest_even_Z _ _ Hs).
  rewrite inject_Z_mult, <- pow2_Z by lia.
  rewrite <- Qmult_assoc, pow2_opp_r. lra.
Qed.

(** Rounding does not go below an integer that is a double. *)
Lemma round_ge x r :
  0 < r < 2 ^ 53 -> (inject_Z r <= x)%Q -> (inject_Z r <= Double.round x)%Q.
Proof.
  intros Hr Hx. unfold Double.round. cbv zeta.
  pose proof (Qred_correct x) as Hy. set (y := Qred x) in *.
  assert (Hr0 : (0 < inject_Z r)%Q) by (rewrite <- (Zlt_Qlt 0); lia).
  assert (Hy0 : (0 < y)%Q) by (rewrite Hy; lra).
  destruct (Qeq_bool y 0) eqn:E.
  { apply Qeq_bool_iff in E. lra. }
  assert (Habs : Qabs y = y).
  { destruct y as [a b]. cbn [Qabs]. f_equal. apply Z.abs_eq.
    unfold Qlt in Hy0. cbn in Hy0. lia. }
  rewrite Habs. pose proof (ilog2_le y Hy0) as Hk.
  set (k := Double.ilog2 y) in *. set (e := k - 52).
  pose proof (nearest_even_ge_floor (y * 2 ^ (- e))) as Hn.
  set (N := Double.nearest_even (y * 2 ^ (- e))) in *.
  pose proof (pow2_pos e) as Hpe. pose proof (pow2_pos (- e)) as Hpne.
  pose proof (pow2_opp_r e) as Hinv.
  destruct (Z_le_gt_dec e 0) as [He|He].
  - assert (Hfl : r * 2 ^ (- e) <= Qfloor (y * 2 ^ (- e))).
    { rewrite <- (Qfloor_Z (r * 2 ^ (- e))). apply Qfloor_resp_le.
      rewrite inject_Z_mult, <- pow2_Z by lia.
      apply Qmult_le_compat_r; [lra|lra]. }
    assert (HN : (inject_Z r * 2 ^ (- e) <= inject_Z N)%Q).
    { rewrite pow2_Z, <- inject_Z_mult by lia. rewrite <- Zle_Qle. lia. }
    apply (Qmult_le_compat_r _ _ (2 ^ e)) in HN; [|lra].
    rewrite <- Qmult_assoc, Hinv in HN. lra.
  - assert (Hw : (inject_Z (2 ^ 52) <= y * 2 ^ (- e))%Q).
    { rewrite <- pow2_Z by lia.
      replace 52 with (k + - e) by (unfold e; lia).
      rewrite Qpower_plus by done. apply Qmult_le_compat_r; [done|lra]. }
    assert (Hfl : 2 ^ 52 <= Qfloor (y * 2 ^ (- e))).
    { rewrite <- (Qfloor_Z (2 ^ 52)). by apply Qfloor_resp_le. }
    assert (HN : (inject_Z (2 ^ 52) <= inject_Z N)%Q) by (rewrite <- Zle_Qle; lia).
    assert (H2 : (2 <= 2 ^ e)%Q).
    { change 2%Q with (2 ^ 1)%Q at 1. apply Qpower_le_compat_l; [lia|done]. }
    assert (Hr53 : (inject_Z r <= inject_Z (2 ^ 52) * 2)%Q).
    { change 2%Q with (inject_Z 2). rewrite <- inject_Z_mult, <- Zle_Qle. lia. }
    apply (Qle_trans _ _ _ Hr53).
    apply (Qle_trans _ (inject_Z (2 ^ 52) * 2 ^ e)).
    + apply Qmult_le_l; [reflexivity|done].
    + apply Qmult_le_compat_r; [done|lra].
Qed.

(** ** The date normaliser *)

Section Normaliser.
Context `{Host}.

Lemma formatDate_civil t : formatDate (Some t) = civil_string (Day (LocalTime t)).
Proof. reflexivity. Qed.

Lemma Day_MakeDate n tza : 0 <= tza < msPerDay -> Day (MakeDate n 0 + tza) = n.
Proof. unfold Day, MakeDate, msPerDay. intros. div_lia. Qed.

Lemma year_after_epoch t :
  zone_bounded -> 0 <= t -> 1000 < YearFromTime (LocalTime t).
Proof.
  intros Hz Ht. pose proof (Hz t true) as Hb.
  assert (-1 <= Day (LocalTime t)).
  { unfold Day, LocalTime, msPerDay in *. div_lia. }
  pose proof (YearFromDay_ge (Day (LocalTime t)) 1969) as Hy.
  change (DayFromYear 1969) with (-365) in Hy.
  unfold YearFromTime. lia.
Qed.

(** The argument of [new Date] for a whole serial number in the range of
    [Date]: the double arithmetic is exact on it, and gives UTC midnight of
    the day [n - 25569]. *)
Lemma serial_instant n :
  25569 < n <= 100025569 ->
  (Double.mul (Double.mul (Double.sub (inject_Z n) 25569) 86400) 1000
   == inject_Z (MakeDate (n - 25569) 0))%Q.
Proof.
  intros Hn.
  assert (Ha : (Double.sub (inject_Z n) 25569 == inject_Z (n - 25569))%Q).
  { apply round_Z; [|lia]. unfold Z.sub. rewrite inject_Z_plus. reflexivity. }
  assert (Hb : (Double.mul (Double.sub (inject_Z n) 25569) 86400
                == inject_Z ((n - 25569) * 86400))%Q).
  { apply round_Z; [|lia]. rewrite Ha, inject_Z_mult. reflexivity. }
  unfold MakeDate, msPerDay. apply round_Z; [|lia].
  rewrite Hb. rewrite <- (inject_Z_mult _ 1000). apply inject_Z_injective. lia.
Qed.

Lemma new_Date_value_Z v t :
  (v == inject_Z t)%Q -> 0 <= t <= maxTime -> new_Date_value v = Some t.
Proof.
  intros Hv Ht. unfold new_Date_value, Qtruncate.
  assert (Hpos : (0 <= v)%Q) by (rewrite Hv, <- (Zle_Qle 0); lia).
  assert (Hmax : (Qabs v <= inject_Z maxTime)%Q).
  { rewrite Qabs_pos by done. rewrite Hv, <- Zle_Qle. lia. }
  rewrite (proj2 (Qle_bool_iff _ _) Hmax), (proj2 (Qle_bool_iff _ _) Hpos).
  by rewrite (Qfloor_comp _ _ Hv), Qfloor_Z.
Qed.

Lemma serial_date n :
  25569 < n <= 100025569 ->
  date_of_cell (VNum (inject_Z n)) = Some (Some (MakeDate (n - 25569) 0)).
Proof.
  intros Hn. cbn [date_of_cell].
  assert (Hle : Qle_bool (inject_Z n) 25569 = false).
  { destruct (Qle_bool (inject_Z n) 25569) eqn:E; [|done].
    apply Qle_bool_iff in E. change 25569%Q with (inject_Z 25569) in E.
    rewrite <- Zle_Qle in E. lia. }
  rewrite Hle. cbn [negb]. f_equal.
  apply new_Date_value_Z; [by apply serial_instant|].
  unfold MakeDate, msPerDay, maxTime. lia.
Qed.

Lemma normalize_serial n :
  zone_bounded -> 25569 < n <= 100025569 ->
  normalize_value (VNum (inject_Z n))
  = VStr (formatDate (Some (MakeDate (n - 25569) 0))).
Proof.
  intros Hz Hn. rewrite (accepted_normalize _ _ (serial_date n Hn)).
  cbn [accepted isNaN_time negb andb getFullYear mbind option_bind].
  assert (Hpos : 0 <= MakeDate (n - 25569) 0) by (unfold MakeDate, msPerDay; lia).
  pose proof (year_after_epoch _ Hz Hpos) as Hy.
  by rewrite (proj2 (Z.ltb_lt _ _) Hy).
Qed.

(** On a serial number with a fraction the arithmetic rounds: for the double
    nearest to 75280.20833333333 the product is the whole millisecond
    4295048400000, where the exact product is a little less. *)
Lemma serial_fraction_rounded :
  date_of_cell (VNum (5173216525243733 # 68719476736))
  = Some (Some 4295048400000).
Proof. vm_compute. reflexivity. Qed.

(** Beyond the range of [Date] the rounded product stays beyond it. *)
Lemma normalize_serial_beyond n :
  100025569 < n -> normalize_value (VNum (inject_Z n)) = VNum (inject_Z n).
Proof.
  intros Hn. unfold normalize_value. cbn [date_of_cell].
  assert (Hle : Qle_bool (inject_Z n) 25569 = false).
  { destruct (Qle_bool (inject_Z n) 25569) eqn:E; [|done].
    apply Qle_bool_iff in E. change 25569%Q with (inject_Z 25569) in E.
    rewrite <- Zle_Qle in E. lia. }
  rewrite Hle. cbn [negb].
  set (a := Double.sub (inject_Z n) 25569).
  set (b := Double.mul a 86400). set (c := Double.mul b 1000).
  assert (Ha : (inject_Z 100000001 <= a)%Q).
  { apply round_ge; [lia|]. change 25569%Q with (inject_Z 25569).
    unfold Qminus. rewrite <- inject_Z_opp, <- inject_Z_plus, <- Zle_Qle. lia. }
  assert (Hb : (inject_Z 8640000086400 <= b)%Q).
  { apply round_ge; [lia|].
    change (inject_Z 8640000086400) with (inject_Z 100000001 * 86400)%Q.
    apply Qmult_le_compat_r; [done|discriminate]. }
  assert (Hc : (inject_Z 8640000000000001 <= c)%Q).
  { apply round_ge; [lia|].
    apply (Qle_trans _ (inject_Z 8640000086400 * 1000)); [discriminate|].
    apply Qmult_le_compat_r; [done|discriminate]. }
  assert (Hmax : Qle_bool (Qabs c) (inject_Z maxTime) = false).
  { destruct (Qle_bool (Qabs c) (inject_Z maxTime)) eqn:E; [|reflexivity].
    apply Qle_bool_iff in E.
    assert (H0 : (0 <= c)%Q) by (apply (Qle_trans _ (inject_Z 8640000000000001)); [discriminate|done]).
    rewrite Qabs_pos in E by done.
    assert (Hlt : (inject_Z maxTime < inject_Z 8640000000000001)%Q) by reflexivity.
    exfalso. apply (Qlt_irrefl (inject_Z maxTime)).
    apply (Qlt_le_trans _ _ _ Hlt). by apply (Qle_trans _ c). }
  unfold new_Date_value. by rewrite Hmax.
Qed.

Lemma length_append a b :
  String.length (String.append a b) = (String.length a + String.length b)%nat.
Proof.
  induction a as [|c a IH]; [done|]. rewrite append_cons. cbn [String.length]. lia.
Qed.

Lemma expand_year_range y : 0 <= y < 10000 -> 100 <= expand_year y < 10000.
Proof. unfold expand_year. intros. destruct (Z.ltb_spec y 100); lia. Qed.

Lemma DaysInMonth_le leap m : 0 <= leap <= 1 -> 0 <= m <= 11 -> DaysInMonth leap m <= 31.
Proof. intros Hl Hm. unfold DaysInMonth. split_month Hm; lia. Qed.

Lemma MakeDay_bounds y m d :
  99 <= y + m / 12 -> y + m / 12 <= 10007 -> 0 <= d < 100 ->
  -683369 <= MakeDay y m d <= 2935917.
Proof.
  intros Hlo Hhi Hd. unfold MakeDay. cbv zeta.
  pose proof (DayFromYear_mono 99 _ Hlo) as H1.
  pose proof (DayFromYear_mono _ 10007 Hhi) as H2.
  change (DayFromYear 99) with (-683368) in H1.
  change (DayFromYear 10007) with 2935454 in H2.
  pose proof (InLeapYear_cases (y + m / 12)).
  pose proof (MonthStart_bounds (InLeapYear (y + m / 12)) (m mod 12) ltac:(lia)
                ltac:(pose proof (Z.mod_pos_bound m 12); lia)).
  lia.
Qed.

Lemma dmy_date s p1 p2 p3 :
  match_dmy s = Some (p1, p2, p3) ->
  date_of_cell (VStr s)
  = Some (TimeClip (UTC (MakeDate (MakeDay (expand_year (parseInt p3))
                                     (parseInt p2 - 1) (parseInt p1)) 0))).
Proof.
  intros Hm. pose proof (match_dmy_bounds _ _ _ _ Hm) as (_ & _ & Hy).
  pose proof (expand_year_range _ Hy) as He.
  cbn [date_of_cell]. rewrite Hm. cbv zeta. fold (expand_year (parseInt p3)).
  unfold new_Date_ymd. cbv zeta.
  destruct (Z.leb_spec (expand_year (parseInt p3)) 99); [lia|].
  by rewrite andb_false_r.
Qed.

(** A matching string is left as it is, or becomes the date its numbers roll
    over to. *)
Lemma normalize_dmy_cases s p1 p2 p3 :
  match_dmy s = Some (p1, p2, p3) ->
  let n := MakeDay (expand_year (parseInt p3)) (parseInt p2 - 1) (parseInt p1) in
  midnight_on_day n ->
  normalize_value (VStr s) = VStr s
  \/ normalize_value (VStr s) = VStr (civil_string n).
Proof.
  intros Hm n Hk. unfold midnight_on_day in Hk.
  rewrite (accepted_normalize _ _ (dmy_date _ _ _ _ Hm)). fold n.
  unfold TimeClip. destruct (_ <=? _); [|by left].
  destruct (accepted _); [|by left]. right.
  by rewrite formatDate_civil, Hk.
Qed.

Lemma normalize_dmy s p1 p2 p3 :
  zone_bounded -> zone_keeps_midnight -> match_dmy s = Some (p1, p2, p3) ->
  let n := MakeDay (expand_year (parseInt p3)) (parseInt p2 - 1) (parseInt p1) in
  normalize_value (VStr s)
  = if 1000 <? YearFromDay n then VStr (civil_string n) else VStr s.
Proof.
  intros Hb Hk Hm n. rewrite (accepted_normalize _ _ (dmy_date _ _ _ _ Hm)). fold n.
  specialize (Hk n). unfold midnight_on_day in Hk.
  pose proof (match_dmy_bounds _ _ _ _ Hm) as (Hd & Hmo & Hy).
  pose proof (expand_year_range _ Hy) as He.
  assert (Hn : -683369 <= n <= 2935917).
  { apply MakeDay_bounds; [| |done].
    - assert (-1 <= (parseInt p2 - 1) / 12) by div_lia. lia.
    - assert ((parseInt p2 - 1) / 12 <= 8) by div_lia. lia. }
  pose proof (Hb (MakeDate n 0) false) as Hz.
  unfold TimeClip.
  destruct (Z.leb_spec (Z.abs (UTC (MakeDate n 0))) maxTime) as [_ | Hbad].
  - cbn [accepted isNaN_time negb andb getFullYear mbind option_bind].
    unfold YearFromTime. rewrite formatDate_civil, Hk. done.
  - unfold UTC, MakeDate, maxTime, msPerDay in *. lia.
Qed.

(** Numbers that name a day of the calendar are kept as they are. *)
Lemma civil_string_calendar year month day :
  calendar_date year month day ->
  YearFromDay (MakeDay year (month - 1) day) = year
  /\ civil_string (MakeDay year (month - 1) day) = dd_mm_yyyy day month year.
Proof.
  intros [Hm Hd].
  destruct (day_of_MakeDay year (month - 1) day ltac:(lia) Hd) as (Hy & Hmo & Hda).
  split; [done|]. unfold civil_string. rewrite Hy, Hmo, Hda. f_equal; f_equal; lia.
Qed.

Lemma civil_string_is_calendar n :
  calendar_date (YearFromDay n) (MonthFromDay n + 1) (DateFromDay n).
Proof.
  pose proof (MonthFromDay_range n). pose proof (DateFromDay_range n).
  unfold calendar_date. replace (MonthFromDay n + 1 - 1) with (MonthFromDay n) by lia.
  lia.
Qed.

Lemma calendar_date_bounds year month day :
  calendar_date year month day -> 1 <= month <= 12 /\ 1 <= day <= 31.
Proof.
  intros [Hm Hd]. pose proof (InLeapYear_cases year).
  pose proof (DaysInMonth_le (InLeapYear year) (month - 1) ltac:(lia) ltac:(lia)). lia.
Qed.

(** A written date of the calendar with a year of four digits is read back
    component by component. *)
Lemma match_dmy_dd_mm_yyyy year month day :
  calendar_date year month day -> 0 <= year < 10010 ->
  match_dmy (dd_mm_yyyy day month year)
  = if year <? 10000
    then (if 1000 <=? year
          then Some (padStart2 (string_of_Z day), padStart2 (string_of_Z month),
                     string_of_Z year)
          else match_dmy (dd_mm_yyyy day month year))
    else None.
Proof.
  intros Hc Hy. apply calendar_date_bounds in Hc as [Hm Hd].
  destruct (padded_facts day ltac:(lia)) as (D1 & _ & L1).
  destruct (padded_facts month ltac:(lia)) as (D2 & _ & L2).
  destruct (numeral_facts year Hy) as (D3 & _ & L4 & L5).
  unfold dd_mm_yyyy. rewrite match_dmy_formatted by done.
  destruct (Z.ltb_spec year 10000).
  - destruct (Z.leb_spec 1000 year); [|done]. by rewrite L4 by lia.
  - by rewrite L5 by lia.
Qed.

Lemma rollover_differs s p1 p2 p3 :
  match_dmy s = Some (p1, p2, p3) ->
  let day := parseInt p1 in
  let month := parseInt p2 in
  let year := expand_year (parseInt p3) in
  let n := MakeDay year (month - 1) day in
  1000 < YearFromDay n -> ~ calendar_date year month day ->
  civil_string n <> s.
Proof.
  intros Hm day month year n Hy Hnot Heq.
  pose proof (match_dmy_bounds _ _ _ _ Hm) as (Hd & Hmo & Hyr).
  pose proof (expand_year_range _ Hyr) as He. fold year in He.
  assert (Hn : -683369 <= n <= 2935917).
  { apply MakeDay_bounds; [| |done].
    - assert (-1 <= (month - 1) / 12) by (unfold month; div_lia). lia.
    - assert ((month - 1) / 12 <= 8) by (unfold month; div_lia). lia. }
  assert (HY : YearFromDay n < 10010).
  { apply YearFromDay_lt. change (DayFromYear 10010) with 2936550. lia. }
  pose proof (civil_string_is_calendar n) as Hcal.
  pose proof (match_dmy_dd_mm_yyyy _ _ _ Hcal ltac:(lia)) as Hmatch.
  fold (civil_string n) in Hmatch. rewrite Heq, Hm in Hmatch.
  destruct (Z.ltb_spec (YearFromDay n) 10000); [|done].
  destruct (Z.leb_spec 1000 (YearFromDay n)); [|lia].
  apply calendar_date_bounds in Hcal as Hb.
  destruct (padded_facts (DateFromDay n) ltac:(lia)) as (_ & P1 & _).
  destruct (padded_facts (MonthFromDay n + 1) ltac:(lia)) as (_ & P2 & _).
  destruct (numeral_facts (YearFromDay n) ltac:(lia)) as (_ & P3 & _).
  apply Hnot. unfold day, month, year.
  inversion Hmatch as [[E1 E2 E3]]. rewrite P1, P2, P3.
  unfold expand_year. destruct (Z.ltb_spec (YearFromDay n) 100); [lia|]. done.
Qed.

Lemma rollover_year y m d :
  1002 <= y -> -1 <= m -> 0 <= d -> 1000 < YearFromDay (MakeDay y m d).
Proof.
  intros Hy Hm Hd.
  assert (DayFromYear 1001 <= MakeDay y m d); [|pose proof (YearFromDay_ge _ _ H0); lia].
  unfold MakeDay. cbv zeta.
  pose proof (InLeapYear_cases (y + m / 12)).
  pose proof (MonthStart_bounds (InLeapYear (y + m / 12)) (m mod 12) ltac:(lia)
                ltac:(pose proof (Z.mod_pos_bound m 12); lia)) as Hs.
  destruct (Z.eq_dec m (-1)) as [-> | Hne].
  - change (-1 / 12) with (-1) in *. change (-1 mod 12) with 11 in *.
    cbv [MonthStart].
    pose proof (DayFromYear_mono 1001 (y + -1) ltac:(lia)). lia.
  - assert (0 <= m / 12) by (apply Z.div_pos; lia).
    pose proof (DayFromYear_mono 1002 (y + m / 12) ltac:(lia)) as Hmono.
    change (DayFromYear 1002) with (DayFromYear 1001 + 365) in Hmono. lia.
Qed.

(** An accepted date was written by [formatDate]. *)
Lemma normalize_value_changed v s :
  normalize_value v = VStr s ->
  v = VStr s
  \/ exists t, s = civil_string (Day (LocalTime t))
               /\ 1000 < YearFromDay (Day (LocalTime t)).
Proof.
  unfold normalize_value. destruct (date_of_cell v) as [d|]; [|by left].
  destruct (accepted (Some d)) eqn:Ha; [|by left].
  intros Hs. right. destruct d as [t|]; [|done].
  cbn [accepted isNaN_time negb andb getFullYear mbind option_bind] in Ha.
  apply Z.ltb_lt in Ha. exists t. by inversion Hs.
Qed.

Lemma normalize_value_idempotent v s :
  zone_days_have_midnight -> normalize_value v = VStr s ->
  String.length s = 10%nat ->
  normalize_value (VStr s) = VStr s.
Proof.
  intros Hk Hv Hlen. destruct (normalize_value_changed v s Hv) as [-> | (t & -> & Hy)];
    [done|].
  specialize (Hk t). set (n := Day (LocalTime t)) in *.
  pose proof (civil_string_is_calendar n) as Hcal.
  apply calendar_date_bounds in Hcal as Hb.
  destruct (padded_facts (DateFromDay n) ltac:(lia)) as (_ & P1 & L1).
  destruct (padded_facts (MonthFromDay n + 1) ltac:(lia)) as (_ & P2 & L2).
  assert (HY : YearFromDay n < 10000).
  { destruct (Z.lt_ge_cases (YearFromDay n) 10000) as [|Hbig]; [done|].
    pose proof (string_of_Z_5_digits _ Hbig) as H5.
    unfold civil_string, dd_mm_yyyy in Hlen. rewrite !length_append, L1, L2 in Hlen.
    cbn [String.length] in Hlen. lia. }
  destruct (numeral_facts (YearFromDay n) ltac:(lia)) as (_ & P3 & _).
  pose proof (match_dmy_dd_mm_yyyy _ _ _ Hcal ltac:(lia)) as Hmatch.
  fold (civil_string n) in Hmatch.
  destruct (Z.ltb_spec (YearFromDay n) 10000); [|lia].
  destruct (Z.leb_spec 1000 (YearFromDay n)); [|lia].
  assert (Hday : MakeDay (expand_year (parseInt (string_of_Z (YearFromDay n))))
                   (parseInt (padStart2 (string_of_Z (MonthFromDay n + 1))) - 1)
                   (parseInt (padStart2 (string_of_Z (DateFromDay n)))) = n).
  { rewrite P1, P2, P3. unfold expand_year.
    destruct (Z.ltb_spec (YearFromDay n) 100); [lia|].
    replace (MonthFromDay n + 1 - 1) with (MonthFromDay n) by lia.
    apply MakeDay_of_day. }
  destruct (normalize_dmy_cases _ _ _ _ Hmatch) as [Hsame | Hroll];
    [by rewrite Hday | done | by rewrite Hroll, Hday].
Qed.

End Normaliser.

(** ** Hosts at a fixed offset *)

Lemma host_zone_bounded tza :
  - msPerDay < tza < msPerDay -> zone_bounded (H := ExampleHost.host tza).
Proof. intros Ht t isUTC. exact Ht. Qed.

Lemma host_zone_keeps_midnight tza : zone_keeps_midnight (H := ExampleHost.host tza).
Proof.
  intros n. unfold midnight_on_day, LocalTime, UTC, Day, MakeDate, msPerDay.
  cbn [LocalTZA ExampleHost.host]. div_lia.
Qed.

Lemma host_zone_days_have_midnight tza :
  zone_days_have_midnight (H := ExampleHost.host tza).
Proof. intros t. apply host_zone_keeps_midnight. Qed.

Lemma date_cell_single `{Host} h v :
  is_date_header h = true -> date_cell [[(h, v)]] [h] 0 h v.
Proof.
  intros Hh. split; [|split; [|split]].
  - apply NoDup_singleton.
  - by apply list_elem_of_singleton.
  - done.
  - exists [(h, v)]. split; [done|]. cbn [get]. by rewrite String.eqb_refl.
Qed.

(** ** Claims on the date normaliser *)

(** C4 (amended). On a host less than a day away from UTC, a whole number
    [n] in a date column with [25569 < n <= 100025569] is read as a
    spreadsheet day count: the instant built from it is UTC midnight of the
    day [n - 25569] after the epoch, and where the zone is not behind UTC at
    that instant the cell becomes the zero-padded DD-MM-YYYY of that day;
    serial 44927 then gives 01-01-2023. A whole number above 100025569, whose
    instant is beyond the range of [Date], is left as it is. *)
Theorem serial_number_formatted `{Host} data headers i h n :
  zone_bounded -> date_cell data headers i h (VNum (inject_Z n)) -> 25569 < n ->
  let t := MakeDate (n - 25569) 0 in
  (n <= 100025569 ->
   date_of_cell (VNum (inject_Z n)) = Some (Some t)
   /\ (0 <= LocalTZA t true ->
       cell_after data headers i h = Some (VStr (civil_string (n - 25569)))
       /\ (n = 44927 ->
           cell_after data headers i h = Some (VStr "01-01-2023"))))
  /\ (100025569 < n -> cell_after data headers i h = Some (VNum (inject_Z n))).
Proof.
  intros Hz Hcell Hlo t. split.
  - intros Hhi. split; [by apply serial_date|]. intros Hpos.
    assert (Hcell' : cell_after data headers i h
                     = Some (VStr (civil_string (n - 25569)))).
    { rewrite (cell_after_date_cell _ _ _ _ _ Hcell), (normalize_serial n) by done.
      rewrite formatDate_civil. do 3 f_equal.
      unfold LocalTime. apply Day_MakeDate.
      pose proof (Hz t true). fold t. lia. }
    split; [done|]. intros ->. by rewrite Hcell'.
  - intros Hbeyond.
    by rewrite (cell_after_date_cell _ _ _ _ _ Hcell), normalize_serial_beyond.
Qed.

Lemma serial_number_formatted_witness :
  cell_after (H := ExampleHost.canarias) [[("Fecha", VNum 44927)]] ["Fecha"] 0 "Fecha"
  = Some (VStr "01-01-2023").
Proof.
  refine (proj2 (proj2 (proj1 (serial_number_formatted (H := ExampleHost.canarias)
            [[("Fecha", VNum 44927)]] ["Fecha"] 0%nat "Fecha" 44927 _ _ _) _) _)
            eq_refl).
  - apply host_zone_bounded. unfold msPerDay. lia.
  - by apply date_cell_single.
  - reflexivity.
  - discriminate.
  - cbn. lia.
Defined.

(** C4, as stated, fails: a serial number beyond the range of [Date] is left
    as the number it was; a host behind UTC shows the day before; and a
    serial number with a fraction, whose instant is no midnight, is shown as
    the next day on a host far enough ahead of UTC. *)
Lemma serial_number_counterexample :
  cell_after (H := ExampleHost.canarias)
    [[("Fecha", VNum 100025570)]] ["Fecha"] 0 "Fecha"
  = Some (VNum 100025570)
  /\ cell_after (H := ExampleHost.new_york)
       [[("Fecha", VNum 44927)]] ["Fecha"] 0 "Fecha"
     = Some (VStr "31-12-2022")
  /\ cell_after (H := ExampleHost.host 28800000)
       [[("Fecha", VNum (179711 # 4))]] ["Fecha"] 0 "Fecha"
     = Some (VStr "02-01-2023").
Proof. repeat split; vm_compute; reflexivity. Qed.

(** C5 (amended). On a host less than a day away from UTC that keeps local
    midnights, a string cell of a date column that matches the pattern is read
    as day, month and year, a year below 100 being taken as 2000+YY; when the
    three name a day of the calendar, the cell becomes the zero-padded
    DD-MM-YYYY of that day if the year is above 1000 and is left unchanged
    otherwise. "05/06/23" gives "05-06-2023". *)
Theorem dmy_string_formatted `{Host} data headers i h s p1 p2 p3 :
  zone_bounded -> zone_keeps_midnight ->
  date_cell data headers i h (VStr s) -> match_dmy s = Some (p1, p2, p3) ->
  let day := parseInt p1 in
  let month := parseInt p2 in
  let year := expand_year (parseInt p3) in
  calendar_date year month day ->
  cell_after data headers i h
  = Some (VStr (if 1000 <? year then dd_mm_yyyy day month year else s))
  /\ (s = "05/06/23"%string ->
      cell_after data headers i h = Some (VStr "05-06-2023")).
Proof.
  intros Hb Hk Hcell Hm day month year Hcal.
  assert (Hcell' : cell_after data headers i h
            = Some (VStr (if 1000 <? year then dd_mm_yyyy day month year else s))).
  { rewrite (cell_after_date_cell _ _ _ _ _ Hcell), (normalize_dmy _ _ _ _ Hb Hk Hm).
    fold day month year.
    destruct (civil_string_calendar _ _ _ Hcal) as [-> ->].
    by destruct (1000 <? year). }
  split; [done|]. intros ->. rewrite Hcell'.
  vm_compute in Hm. inversion Hm; subst p1 p2 p3. reflexivity.
Qed.

Lemma dmy_string_formatted_witness :
  cell_after (H := ExampleHost.canarias) [[("Fecha", VStr "05/06/23")]] ["Fecha"] 0 "Fecha"
  = Some (VStr "05-06-2023").
Proof.
  refine (proj2 (dmy_string_formatted (H := ExampleHost.canarias)
            [[("Fecha", VStr "05/06/23")]] ["Fecha"] 0%nat "Fecha" "05/06/23"
            "05" "06" "23" _ _ _ _ _) eq_refl).
  - apply host_zone_bounded. unfold msPerDay. lia.
  - apply host_zone_keeps_midnight.
  - by apply date_cell_single.
  - reflexivity.
  - vm_compute. intuition discriminate.
Defined.

(** C5, as stated, fails: a matching string whose year is not above 1000 is
    left unchanged. *)
Lemma dmy_string_counterexample :
  match_dmy "15/08/999" = Some ("15", "08", "999")%string
  /\ cell_after (H := ExampleHost.canarias)
       [[("Fecha", VStr "15/08/999")]] ["Fecha"] 0 "Fecha"
     = Some (VStr "15/08/999").
Proof. split; vm_compute; reflexivity. Qed.

(** C9. Date normalisation is idempotent on its own output: where the
    normaliser left the string [s] of the shape DD-MM-YYYY (ten characters) in
    a cell of a date column, a second run leaves [s] there. The host is one
    where the midnight of a local day that occurs, taken to UTC and back,
    falls on that day. *)
Theorem normalisation_idempotent `{Host} data headers i h v s :
  zone_days_have_midnight -> date_cell data headers i h v ->
  cell_after data headers i h = Some (VStr s) -> String.length s = 10%nat ->
  cell_after (processDataForDates data headers) headers i h = Some (VStr s).
Proof.
  intros Hk Hcell Hs Hlen.
  pose proof (cell_after_date_cell _ _ _ _ _ Hcell) as Hnorm.
  rewrite Hs in Hnorm. inversion Hnorm as [Hv]. symmetry in Hv.
  assert (Hcell2 : date_cell (processDataForDates data headers) headers i h (VStr s)).
  { destruct Hcell as (Hnd & Hin & Hdate & _). repeat split; [done..|].
    unfold cell_after in Hs.
    destruct (processDataForDates data headers !! i) as [row'|]; [|done].
    by exists row'. }
  rewrite (cell_after_date_cell _ _ _ _ _ Hcell2).
  by rewrite (normalize_value_idempotent v s).
Qed.

Lemma normalisation_idempotent_witness :
  cell_after (H := ExampleHost.canarias)
    (processDataForDates (H := ExampleHost.canarias)
       [[("Fecha", VNum 44927)]] ["Fecha"]) ["Fecha"] 0 "Fecha"
  = Some (VStr "01-01-2023").
Proof.
  apply (normalisation_idempotent (H := ExampleHost.canarias)
           [[("Fecha", VNum 44927)]] ["Fecha"] 0%nat "Fecha" (VNum 44927)).
  - apply host_zone_days_have_midnight.
  - by apply date_cell_single.
  - vm_compute. reflexivity.
  - reflexivity.
Defined.

(** C10 (amended). The day/month/year path does not check that day and month
    are in range: the numbers of a matching string roll over to a day [n] of
    the calendar. When the year of that day is above 1000, which a year of at
    least 1002 guarantees, the cell becomes the DD-MM-YYYY of day [n], and this
    differs from the string when its numbers name no day of the calendar;
    "31/02/2023" becomes "03-03-2023". *)
Theorem dmy_string_rollover `{Host} data headers i h s p1 p2 p3 :
  zone_bounded -> zone_keeps_midnight ->
  date_cell data headers i h (VStr s) -> match_dmy s = Some (p1, p2, p3) ->
  let day := parseInt p1 in
  let month := parseInt p2 in
  let year := expand_year (parseInt p3) in
  let n := MakeDay year (month - 1) day in
  (1002 <= year -> 1000 < YearFromDay n)
  /\ (1000 < YearFromDay n ->
      cell_after data headers i h = Some (VStr (civil_string n))
      /\ (~ calendar_date year month day -> civil_string n <> s))
  /\ (s = "31/02/2023"%string ->
      cell_after data headers i h = Some (VStr "03-03-2023")).
Proof.
  intros Hb Hk Hcell Hm day month year n.
  pose proof (match_dmy_bounds _ _ _ _ Hm) as (Hd & Hmo & Hyr).
  assert (Hcell' : cell_after data headers i h
            = Some (if 1000 <? YearFromDay n then VStr (civil_string n) else VStr s)).
  { by rewrite (cell_after_date_cell _ _ _ _ _ Hcell), (normalize_dmy _ _ _ _ Hb Hk Hm). }
  split; [|split].
  - intros Hy. apply rollover_year; unfold month, day; lia.
  - intros Hy. split.
    + rewrite Hcell'. by rewrite (proj2 (Z.ltb_lt _ _) Hy).
    + by apply rollover_differs.
  - intros ->. rewrite Hcell'. subst n day month year.
    vm_compute in Hm. inversion Hm; subst p1 p2 p3. reflexivity.
Qed.

Lemma dmy_string_rollover_witness :
  cell_after (H := ExampleHost.canarias)
    [[("Fecha", VStr "31/02/2023")]] ["Fecha"] 0 "Fecha"
  = Some (VStr "03-03-2023").
Proof.
  refine (proj2 (proj2 (dmy_string_rollover (H := ExampleHost.canarias)
            [[("Fecha", VStr "31/02/2023")]] ["Fecha"] 0%nat "Fecha" "31/02/2023"
            "31" "02" "2023" _ _ _ _)) eq_refl).
  - apply host_zone_bounded. unfold msPerDay. lia.
  - apply host_zone_keeps_midnight.
  - by apply date_cell_single.
  - reflexivity.
Defined.

(** C10, as stated, fails: the year of "00/01/1001" is above 1000, but day 0
    of January rolls back into the year 1000 and the string is left
    unchanged. *)
Lemma dmy_string_rollover_counterexample :
  match_dmy "00/01/1001" = Some ("00", "01", "1001")%string
  /\ 1000 < expand_year (parseInt "1001")
  /\ cell_after (H := ExampleHost.canarias)
       [[("Fecha", VStr "00/01/1001")]] ["Fecha"] 0 "Fecha"
     = Some (VStr "00/01/1001").
Proof. split; [|split]; vm_compute; reflexivity. Qed.

(** ** The header list *)

Lemma first_seen_filter (P : string -> Prop) `{!forall x, Decision (P x)} ks :
  first_seen (filter P ks) = filter P (first_seen ks).
Proof.
  induction ks as [|k ks IH]; [done|].
  rewrite filter_cons. destruct (decide (P k)) as [Hk | Hk].
  - cbn [first_seen]. rewrite filter_cons, decide_True by done. f_equal.
    rewrite IH, !list_filter_filter. apply list_filter_iff. intros x. cbn beta.
    split; intros [? ?]; done.
  - cbn [first_seen]. rewrite filter_cons, decide_False by done.
    rewrite IH, list_filter_filter. apply list_filter_iff.
    intros x. cbn beta.
    split; [intros Hx; split; [done | by intros ->] | by intros [? _]].
Qed.

Lemma Set_from_acc ks acc :
  fold_left (fun s x => Set_add x s) ks acc
  = acc ++ first_seen (filter (fun k => k ∉ acc) ks).
Proof.
  revert acc. induction ks as [|k ks IH]; intros acc; cbn [fold_left].
  - by rewrite filter_nil, app_nil_r.
  - rewrite IH, filter_cons. unfold Set_add.
    destruct (decide (k ∈ acc)) as [Hin | Hout].
    + by rewrite decide_False by tauto.
    + rewrite decide_True by done. cbn [first_seen].
      rewrite <- app_assoc. cbn [app]. do 2 f_equal.
      rewrite <- first_seen_filter, list_filter_filter. f_equal.
      apply list_filter_iff. intros x. cbn beta.
      rewrite elem_of_app, list_elem_of_singleton.
      split; [intros Hn; split; intros ?; apply Hn; auto | intros [? ?] [?|?]; done].
Qed.

Lemma Set_from_first_seen ks : Set_from ks = first_seen ks.
Proof.
  unfold Set_from. rewrite Set_from_acc. cbn [app]. f_equal.
  induction ks as [|k ks IH]; [done|].
  rewrite filter_cons, decide_True; [by f_equal | apply not_elem_of_nil].
Qed.

Lemma elem_of_first_seen ks k : k ∈ first_seen ks <-> k ∈ ks.
Proof.
  induction ks as [|k0 ks IH]; [done|].
  cbn [first_seen]. rewrite !elem_of_cons, list_elem_of_filter, IH.
  destruct (decide (k = k0)); tauto.
Qed.

Lemma NoDup_first_seen ks : NoDup (first_seen ks).
Proof.
  induction ks as [|k ks IH]; [constructor|].
  cbn [first_seen]. constructor; [|by apply NoDup_filter].
  rewrite list_elem_of_filter. tauto.
Qed.

(** C7. The header list is the union of the keys of all rows: a key is a
    header exactly when some row has it, no header occurs twice, and the
    headers stand in the order in which the scan of the rows first meets
    them; the rows [{a:1},{b:2}] give the headers a, b. *)
Theorem headers_are_key_union `{Host} (rows : list TableRow) :
  let hs := headers (processAndResolve rows) in
  hs = first_seen (flat_map keys rows)
  /\ (forall k, k ∈ hs <-> exists row, row ∈ rows /\ k ∈ keys row)
  /\ NoDup hs
  /\ headers (processAndResolve [[("a", VNum 1)]; [("b", VNum 2)]]) = ["a"; "b"]%string.
Proof.
  assert (Hhs : headers (processAndResolve rows) = first_seen (flat_map keys rows)).
  { destruct rows as [|row rows]; [done|].
    cbn [processAndResolve headers]. apply Set_from_first_seen. }
  cbv zeta. rewrite Hhs. split; [done|]. split; [|split].
  - intros k. rewrite elem_of_first_seen, list_elem_of_In, in_flat_map.
    setoid_rewrite list_elem_of_In. done.
  - apply NoDup_first_seen.
  - reflexivity.
Qed.

(** ** [parseFile] *)

(** C8. [parseFile] rejects every file whose extension is not csv, json, xlsx
    or xls, and every JSON file whose root is not an array, with a message
    that says so, and never resolves then; a source with zero rows (an empty
    JSON array, a CSV without a row to keep, an empty first sheet) resolves to
    no headers and no rows. *)
Theorem parseFile_outcomes `{Host} (file : File) :
  (extension file ∉ supported ->
   parseFile file
   = Reject (String.append "Tipo de archivo no soportado: ." (extension file)))
  /\ (extension file = "json"%string -> JSON_parse file = inr JsonOther ->
      (exists message, parseFile file = Reject message)
      /\ (forall t, text file = ReadLoaded (Some t) -> t <> EmptyString ->
          parseFile file
          = Reject "El archivo JSON debe contener un array de objetos."))
  /\ (extension file = "json"%string -> JSON_parse file = inr (JsonArray []) ->
      forall t, text file = ReadLoaded (Some t) -> t <> EmptyString ->
      parseFile file = Resolve {| headers := []; data := [] |})
  /\ (extension file = "csv"%string ->
      forall rows, papa file = PapaComplete [] (Some rows) ->
      List.filter csv_keeps rows = [] ->
      parseFile file = Resolve {| headers := []; data := [] |})
  /\ (extension file ∈ ["xlsx"; "xls"]%string ->
      forall wb sheetName rest,
      workbook file = ReadLoaded (Some (inr wb)) ->
      SheetNames wb = sheetName :: rest -> sheetName <> EmptyString ->
      sheet_to_json wb sheetName = inr [] ->
      parseFile file = Resolve {| headers := []; data := [] |}).
Proof.
  unfold parseFile, supported. cbv zeta.
  split; [|split; [|split; [|split]]].
  - intros Hext. rewrite !elem_of_cons in Hext.
    destruct (String.eqb_spec (extension file) "csv"); [tauto|].
    destruct (String.eqb_spec (extension file) "json"); [tauto|].
    destruct (String.eqb_spec (extension file) "xlsx"); [tauto|].
    destruct (String.eqb_spec (extension file) "xls"); [tauto|]. done.
  - intros -> Hroot. cbn [String.eqb Ascii.eqb Bool.eqb]. rewrite Hroot. split.
    + destruct (text file) as [|[t|]]; [by eexists| |by eexists].
      destruct t; by eexists.
    + intros t -> Ht. by destruct t.
  - intros -> Hroot t -> Ht. cbn [String.eqb Ascii.eqb Bool.eqb]. rewrite Hroot.
    by destruct t.
  - intros -> rows -> Hrows. cbn [String.eqb Ascii.eqb Bool.eqb]. by rewrite Hrows.
  - intros Hext wb sheetName rest -> Hnames Hname Hjson.
    rewrite !elem_of_cons in Hext.
    destruct Hext as [-> | [-> | Hnil]]; [| |by apply elem_of_nil in Hnil];
      cbn [String.eqb Ascii.eqb Bool.eqb orb]; rewrite Hnames;
      (destruct sheetName; [done|]); by rewrite Hjson.
Qed.

Lemma parseFile_outcomes_witness :
  parseFile (H := ExampleHost.canarias)
    {| name := "candidatos.txt"; papa := PapaError EmptyString; text := ReadFailed;
       JSON_parse := inr JsonOther; workbook := ReadFailed |}
  = Reject "Tipo de archivo no soportado: .txt"
  /\ parseFile (H := ExampleHost.canarias)
       {| name := "candidatos.JSON"; papa := PapaError EmptyString;
          text := ReadLoaded (Some "{}"%string); JSON_parse := inr JsonOther;
          workbook := ReadFailed |}
     = Reject "El archivo JSON debe contener un array de objetos."
  /\ parseFile (H := ExampleHost.canarias)
       {| name := "candidatos.json"; papa := PapaError EmptyString;
          text := ReadLoaded (Some "[]"%string); JSON_parse := inr (JsonArray []);
          workbook := ReadFailed |}
     = Resolve {| headers := []; data := [] |}.
Proof.
  split; [|split].
  - refine (eq_trans (proj1 (parseFile_outcomes (H := ExampleHost.canarias) _) _) _);
      [|reflexivity].
    intros Hin%list_elem_of_In. vm_compute in Hin. intuition discriminate.
  - refine (proj2 (proj1 (proj2 (parseFile_outcomes (H := ExampleHost.canarias) _)) _ _)
              "{}"%string _ _); done.
  - refine (proj1 (proj2 (proj2 (parseFile_outcomes (H := ExampleHost.canarias) _))) _ _
              "[]"%string _ _); done.
Defined.

Import JsArray.

(** ** Sorting *)

Lemma insert_sorted_Permutation {A} (compare : A -> A -> Z) x l :
  insert_sorted compare x l ≡ₚ x :: l.
Proof.
  induction l as [|y l IH]; [done|]. cbn [insert_sorted].
  destruct (0 <? compare x y); [|done].
  rewrite IH. apply Permutation_swap.
Qed.

Lemma sort_by_Permutation {A} (compare : A -> A -> Z) l : sort_by compare l ≡ₚ l.
Proof.
  induction l as [|x l IH]; [done|].
  unfold sort_by in *. cbn [fold_right]. by rewrite insert_sorted_Permutation, IH.
Qed.

Lemma sort_nil_iff l : sort l = [] <-> l = [].
Proof.
  split; [|by intros ->]. intros Hs.
  apply Permutation_nil_r. rewrite <- Hs. symmetry. apply sort_by_Permutation.
Qed.

Lemma filter_nil_iff {A} (p : A -> bool) l :
  List.filter p l = [] <-> forall x, x ∈ l -> p x = false.
Proof.
  induction l as [|y l IH]; cbn [List.filter].
  - split; [|done]. by intros _ x Hx%elem_of_nil.
  - destruct (p y) eqn:Hy.
    + split; [done|]. intros Hall. specialize (Hall y ltac:(left)). congruence.
    + rewrite IH. split.
      * intros Hall x [-> | Hx]%elem_of_cons; auto.
      * intros Hall x Hx. apply Hall. by right.
Qed.

(** ** The identity of a candidate *)

Section Identity.
Context `{Host}.
Import Report.

Lemma no_column_filter p row :
  ~ has_column p row -> List.filter p (keys row) = [].
Proof.
  intros Hno. apply filter_nil_iff. intros k Hk.
  destruct (p k) eqn:Hp; [|done]. destruct Hno. by exists k.
Qed.

Lemma has_column_filter p row :
  has_column p row -> sort (List.filter p (keys row)) <> [].
Proof.
  intros (k & Hk & Hp) Hnil. apply (proj1 (sort_nil_iff _)) in Hnil.
  pose proof (proj1 (filter_nil_iff p (keys row)) Hnil k Hk). congruence.
Qed.

Lemma getCandidateIdentifier_eq row :
  getCandidateIdentifier row
  = match map (cell row) (sort (List.filter is_surname (keys row)))
          ++ map (cell row) (sort (List.filter is_given_name (keys row))) with
    | _ :: _ =>
        trim (join " "
                (map (cell row) (sort (List.filter is_surname (keys row)))
                 ++ map (cell row) (sort (List.filter is_given_name (keys row)))))
    | [] =>
        match sort (List.filter is_name_like (keys row)) with
        | _ :: _ =>
            trim (join " " (map (cell row)
                              (sort (List.filter is_name_like (keys row)))))
        | [] =>
            match List.find is_identifier (keys row) with
            | Some dniKey => ToString (prop row dniKey)
            | None =>
                ToString (nullish (List.hd VUndefined (values row)) (VStr sentinel))
            end
        end
    end.
Proof. reflexivity. Qed.

(** C3 (amended). The identity resolver is total, and its rules apply in
    order, the first rule whose columns the row has winning whatever it
    yields: (1) with a surname or given-name column, the values of the surname
    columns, then those of the given-name columns, each group in the order of
    the column names, joined by spaces and trimmed; (2) else, with a column of
    the broad name pattern, the values of those columns joined and trimmed;
    (3) else, with an identifier column, the value of the first one; (4) else
    the value of the first column, and the sentinel when that value is absent
    or null. *)
Theorem identifier_rules (row : TableRow) :
  let named :=
    sort (List.filter is_surname (keys row))
    ++ sort (List.filter is_given_name (keys row)) in
  let broad := sort (List.filter is_name_like (keys row)) in
  (exists s, getCandidateIdentifier row = s)
  /\ (has_column is_surname row \/ has_column is_given_name row ->
      getCandidateIdentifier row = trim (join " " (map (cell row) named)))
  /\ (~ has_column is_surname row -> ~ has_column is_given_name row ->
      (has_column is_name_like row ->
       getCandidateIdentifier row = trim (join " " (map (cell row) broad)))
      /\ (~ has_column is_name_like row ->
          (forall k, List.find is_identifier (keys row) = Some k ->
                     getCandidateIdentifier row = ToString (prop row k))
          /\ (List.find is_identifier (keys row) = None ->
              getCandidateIdentifier row
              = ToString (nullish (List.hd VUndefined (values row)) (VStr sentinel))
              /\ (is_nullish (List.hd VUndefined (values row)) ->
                  getCandidateIdentifier row = sentinel)))).
Proof.
  cbv zeta. rewrite getCandidateIdentifier_eq. split; [by eexists|]. split.
  - intros Hcol.
    destruct (map (cell row) (sort (List.filter is_surname (keys row)))
              ++ map (cell row) (sort (List.filter is_given_name (keys row))))
      as [|part parts] eqn:Hparts.
    + apply app_eq_nil in Hparts as [H1%map_eq_nil H2%map_eq_nil].
      destruct Hcol as [Hc | Hc]; by apply has_column_filter in Hc.
    + by rewrite List.map_app, Hparts.
  - intros Hs Hg.
    rewrite (no_column_filter _ _ Hs), (no_column_filter _ _ Hg).
    cbn [sort sort_by fold_right map app]. split.
    + intros Hb. pose proof (has_column_filter _ _ Hb).
      by destruct (sort (List.filter is_name_like (keys row))).
    + intros Hb. rewrite (no_column_filter _ _ Hb). cbn [sort sort_by fold_right].
      split.
      * by intros k ->.
      * intros ->. split; [done|]. by intros [-> | ->].
Qed.

End Identity.

(** C3, as stated, fails: a name column wins although it yields the empty
    string and an identifier column has a value, and a row whose only
    candidate value is empty gives the empty string, not the sentinel. *)
Lemma identifier_rules_counterexample :
  Report.getCandidateIdentifier (H := ExampleHost.canarias)
    [("Nombre", VStr ""); ("DNI", VStr "12345678Z")] = EmptyString
  /\ ToString (H := ExampleHost.canarias)
       (prop [("Nombre", VStr ""); ("DNI", VStr "12345678Z")] "DNI")
     = "12345678Z"%string
  /\ Report.getCandidateIdentifier (H := ExampleHost.canarias) [("Nombre", VStr "")]
     = EmptyString
  /\ EmptyString <> sentinel.
Proof. repeat split; try (vm_compute; reflexivity). discriminate. Qed.

(** ** Text search *)

Section Search.
Context `{Host}.
Import App.

Lemma elem_of_withIndices data d :
  d ∈ withIndices data <-> data !! originalIndex d = Some (row d).
Proof.
  unfold withIndices. rewrite elem_of_lookup_imap. split.
  - by intros (i & r & -> & Hr).
  - intros Hr. exists (originalIndex d), (row d). by destruct d.
Qed.

Lemma withIndices_inj data d d' :
  d ∈ withIndices data -> d' ∈ withIndices data ->
  originalIndex d = originalIndex d' -> d = d'.
Proof.
  rewrite !elem_of_withIndices. intros Hd Hd' Hi. rewrite Hi in Hd.
  destruct d, d'; cbn in *. congruence.
Qed.

Lemma search_filter data searchTerm :
  search data searchTerm
  = List.filter (matches (searchTerms_of searchTerm)) (withIndices data).
Proof.
  unfold search, filteredData_of. cbv zeta.
  destruct (searchTerms_of searchTerm) as [|term terms] eqn:Hterms.
  { symmetry. apply forallb_filter_id. by apply forallb_forall. }
  apply filter_ext_in. intros d Hd%list_elem_of_In.
  apply eq_true_iff_eq. rewrite bool_decide_eq_true.
  rewrite elem_of_list_to_set, list_elem_of_fmap.
  setoid_rewrite elem_of_List_filter. unfold searchableData_of.
  setoid_rewrite list_elem_of_fmap. split.
  - intros (s & Hi & (d' & -> & Hd') & Hm). cbn [searchable_index searchableString] in *.
    by rewrite (withIndices_inj data d d' Hd Hd' Hi).
  - intros Hm. eexists. split; [|split; [by exists d|]]; done.
Qed.

Lemma matches_Permutation terms terms' d :
  terms ≡ₚ terms' -> matches terms d = matches terms' d.
Proof.
  intros Hp. unfold matches. apply eq_true_iff_eq. rewrite !forallb_forall.
  setoid_rewrite <- list_elem_of_In. by setoid_rewrite Hp.
Qed.

End Search.

(** C6 (amended). The rows shown for a query are exactly the rows whose
    normalised concatenation of field values contains every term of the
    query, the terms being the pieces of the normalised query between space
    characters (U+0020) that are not blank; the order of the terms does not
    matter, and a query without terms shows every row. Normalisation makes
    the match blind to accents and case: "maria garcia" finds the row with
    "María García" and not the one with "María López". *)
Theorem search_and_semantics `{Host} (data : list TableRow) (searchTerm : string) :
  let terms := App.searchTerms_of searchTerm in
  terms = List.filter (fun term => negb (String.eqb (trim term) EmptyString))
            (split " " (App.normalizeText searchTerm))
  /\ (forall d, d ∈ App.search data searchTerm <->
        data !! App.originalIndex d = Some (App.row d)
        /\ forall term, term ∈ terms ->
                        includes (searchable_text (App.row d)) term = true)
  /\ (terms = [] -> App.search data searchTerm = App.withIndices data)
  /\ (forall searchTerm',
        App.searchTerms_of searchTerm' ≡ₚ terms ->
        App.search data searchTerm' = App.search data searchTerm)
  /\ map App.originalIndex
       (App.search (H := ExampleHost.canarias)
          [[("Nombre", VStr "María García")]; [("Nombre", VStr "María López")]]
          "maria garcia")
     = [0%nat].
Proof.
  cbv zeta. split; [done|]. split; [|split; [|split]].
  - intros d. rewrite search_filter, elem_of_List_filter, elem_of_withIndices.
    unfold matches. rewrite forallb_forall. by setoid_rewrite <- list_elem_of_In.
  - intros Hterms. rewrite search_filter, Hterms.
    apply forallb_filter_id. by apply forallb_forall.
  - intros searchTerm' Hp. rewrite !search_filter. apply filter_ext.
    intros d. by apply matches_Permutation.
  - vm_compute. reflexivity.
Qed.

(** C6, as stated, fails: the terms of a query are split at spaces only. In
    "maria<TAB>garcia" the tab does not separate two terms, and the row with
    "María García", which contains both words, is not shown. *)
Lemma search_counterexample :
  includes (searchable_text (H := ExampleHost.canarias) [("Nombre", VStr "María García")])
    (App.normalizeText (H := ExampleHost.canarias) "maria") = true
  /\ includes (searchable_text (H := ExampleHost.canarias) [("Nombre", VStr "María García")])
       (App.normalizeText (H := ExampleHost.canarias) "garcia") = true
  /\ App.search (H := ExampleHost.canarias) [[("Nombre", VStr "María García")]]
       (String.append "maria" (String.append (chr 9) "garcia"))
     = [].
Proof. repeat split; vm_compute; reflexivity. Qed.

(** ** Duplicated candidates *)

Section Duplicates.
Import Report.

(** Under a name that no member of [Object.prototype] has, the read of a
    mark gives the mark the state holds. *)
Lemma checked_own_mark checkedState i u :
  inherited u = false -> checked checkedState i u = own_mark checkedState i u.
Proof.
  intros Hu. unfold checked, own_mark.
  destruct (checkedState !! i) as [marks|]; [|done].
  destruct (marks !! u); [done|]. by rewrite Hu.
Qed.

(** What the read of a mark says in general. *)
Lemma checked_true_iff checkedState i u :
  checked checkedState i u = true
  <-> exists marks, checkedState !! i = Some marks
        /\ (marks !! u = Some true
            \/ (marks !! u = None /\ u ∈ Object_prototype_names)).
Proof.
  unfold checked, inherited. split.
  - destruct (checkedState !! i) as [marks|]; [|done].
    intros Hc. exists marks. split; [done|].
    destruct (marks !! u) as [b|]; [left; by rewrite Hc|right].
    split; [done|]. by apply bool_decide_eq_true in Hc.
  - intros (marks & -> & [-> | [-> Hin]]); [done|].
    by apply bool_decide_eq_true.
Qed.

Lemma fold_Set_add_elem cu s0 u :
  u ∈ fold_left (fun s x => Set_add x s) cu s0 <-> u ∈ s0 \/ u ∈ cu.
Proof.
  rewrite Set_from_acc, elem_of_app, elem_of_first_seen, list_elem_of_filter.
  destruct (decide (u ∈ s0)); tauto.
Qed.

Lemma fold_Set_add_NoDup cu s0 :
  NoDup s0 -> NoDup (fold_left (fun s x => Set_add x s) cu s0).
Proof.
  intros Hs. rewrite Set_from_acc. apply NoDup_app. split; [done|]. split.
  - intros x Hx. rewrite elem_of_first_seen, list_elem_of_filter. tauto.
  - apply NoDup_first_seen.
Qed.

Lemma Map_get_add_union m id u k :
  Map_get (add_union m id u) k
  = if decide (k = id) then with_union u <$> Map_get m id else Map_get m k.
Proof.
  induction m as [|[k' c] m IH]; cbn [add_union Map_get].
  - by case_decide.
  - destruct (String.eqb_spec k' id) as [-> | Hne]; cbn [Map_get].
    + case_decide as Hk.
      * subst. by rewrite String.eqb_refl.
      * by destruct (String.eqb_spec id k) as [-> | ?].
    + rewrite IH. destruct (String.eqb_spec k' k) as [-> | Hk].
      * by rewrite decide_False by done.
      * done.
Qed.

Lemma keys_add_union m id u : (add_union m id u).*1 = m.*1.
Proof.
  induction m as [|[k' c] m IH]; [done|]. cbn [add_union].
  destruct (String.eqb k' id); [done|]. cbn [fmap list_fmap fst]. f_equal. apply IH.
Qed.

Lemma Map_get_fold_add m id cu k :
  Map_get (fold_left (fun m u => add_union m id u) cu m) k
  = if decide (k = id) then with_unions cu <$> Map_get m id else Map_get m k.
Proof.
  revert m. induction cu as [|u cu IH]; intros m; cbn [fold_left].
  - case_decide; [|done]. subst. destruct (Map_get m id) as [[]|]; done.
  - rewrite IH, !Map_get_add_union. case_decide; [|done].
    rewrite decide_True by done. by destruct (Map_get m id) as [[]|].
Qed.

Lemma keys_fold_add m id cu :
  (fold_left (fun m u => add_union m id u) cu m).*1 = m.*1.
Proof.
  revert m. induction cu as [|u cu IH]; intros m; [done|].
  cbn [fold_left]. by rewrite IH, keys_add_union.
Qed.

Lemma Map_get_snoc m id c k :
  Map_get (m ++ [(id, c)]) k
  = match Map_get m k with
    | Some c' => Some c'
    | None => if decide (k = id) then Some c else None
    end.
Proof.
  induction m as [|[k' c'] m IH]; cbn [app Map_get].
  - destruct (String.eqb_spec id k) as [-> | ?]; case_decide; congruence.
  - by destruct (String.eqb k' k).
Qed.

Lemma Map_get_keys m k : is_Some (Map_get m k) <-> k ∈ m.*1.
Proof.
  induction m as [|[k' c] m IH]; cbn [Map_get fmap list_fmap fst].
  - split; [by intros [? ?] | by intros ?%elem_of_nil].
  - rewrite elem_of_cons. destruct (String.eqb_spec k' k) as [-> | Hne].
    + split; [by left | by eexists].
    + rewrite IH. split; [by right | by intros [-> | ?]].
Qed.

Lemma Map_has_keys m k : Map_has m k = true <-> k ∈ m.*1.
Proof.
  unfold Map_has. rewrite existsb_exists, list_elem_of_fmap.
  setoid_rewrite <- list_elem_of_In. setoid_rewrite String.eqb_eq.
  split; intros (e & ? & ?); by exists e.
Qed.

Lemma Map_get_elem m k c : Map_get m k = Some c -> (k, c) ∈ m.
Proof.
  induction m as [|[k' c'] m IH]; cbn [Map_get]; [done|].
  destruct (String.eqb_spec k' k) as [-> | Hne].
  - intros [= ->]. by left.
  - intros Hg. right. by apply IH.
Qed.

Lemma elem_Map_get m k c : NoDup (m.*1) -> (k, c) ∈ m -> Map_get m k = Some c.
Proof.
  induction m as [|[k' c'] m IH]; cbn [Map_get fmap list_fmap fst].
  - by intros _ ?%elem_of_nil.
  - intros [Hk' Hnd]%NoDup_cons [[= -> ->] | Hin]%elem_of_cons.
    + by rewrite String.eqb_refl.
    + destruct (String.eqb_spec k' k) as [-> | Hne]; [|by apply IH].
      destruct Hk'. apply list_elem_of_fmap. by exists (k, c).
Qed.

Context `{host : Host}.

Lemma elem_of_checked_unions checkedState allUnions i u :
  u ∈ checked_unions checkedState allUnions i
  <-> u ∈ allUnions /\ checked checkedState i u = true.
Proof. unfold checked_unions. by rewrite elem_of_list_to_set, elem_of_List_filter. Qed.

Lemma accumulated_snoc data checkedState allUnions row X :
  accumulated (data ++ [row]) checkedState allUnions X
  = accumulated data checkedState allUnions X
    ∪ (if decide (getCandidateIdentifier row = X)
       then checked_unions checkedState allUnions (length data) else ∅).
Proof.
  unfold accumulated. rewrite imap_app, union_list_app_L. cbn [imap union_list].
  rewrite Nat.add_0_r. f_equal. apply (right_id_L ∅ (∪)).
Qed.

Lemma elem_of_accumulated data checkedState allUnions X u :
  u ∈ accumulated data checkedState allUnions X
  <-> exists i row, data !! i = Some row /\ getCandidateIdentifier row = X
                    /\ u ∈ allUnions /\ checked checkedState i u = true.
Proof.
  unfold accumulated. rewrite elem_of_union_list. split.
  - intros (S & (i & row & -> & Hrow)%elem_of_lookup_imap & Hu).
    case_decide; [|by apply elem_of_empty in Hu].
    apply elem_of_checked_unions in Hu as [? ?]. by exists i, row.
  - intros (i & row & Hrow & HX & Hu & Hc). eexists. split.
    + apply elem_of_lookup_imap. by exists i, row.
    + cbn beta. rewrite decide_True by done. by apply elem_of_checked_unions.
Qed.

Lemma candidatesMap_of_snoc data checkedState allUnions row :
  candidatesMap_of (data ++ [row]) checkedState allUnions
  = visit_row checkedState allUnions
      (candidatesMap_of data checkedState allUnions) (length data, row).
Proof.
  unfold candidatesMap_of. rewrite imap_app, fold_left_app. cbn [imap fold_left].
  by rewrite Nat.add_0_r.
Qed.

Lemma visit_row_ok data checkedState allUnions m row :
  candidates_ok data checkedState allUnions m ->
  candidates_ok (data ++ [row]) checkedState allUnions
    (visit_row checkedState allUnions m (length data, row)).
Proof.
  intros (Hnd & Hent & Hall). unfold visit_row.
  set (id := getCandidateIdentifier row).
  destruct (List.filter (checked checkedState (length data)) allUnions)
    as [|u0 cu] eqn:Hcu.
  { assert (Hacc : forall k, accumulated (data ++ [row]) checkedState allUnions k
                             = accumulated data checkedState allUnions k).
    { intros k. rewrite accumulated_snoc. unfold checked_unions. rewrite Hcu.
      case_decide; cbn [list_to_set foldr]; apply (right_id_L ∅ (∪)). }
    split; [done|]. split.
    - intros k c Hk. setoid_rewrite Hacc. by apply Hent.
    - intros k u. rewrite Hacc. apply Hall. }
  set (m1 := if Map_has m id then m else m ++ [(id, {| cand_unions := []; cand_row := row |})]).
  assert (Hacc : forall k u,
            u ∈ accumulated (data ++ [row]) checkedState allUnions k
            <-> u ∈ accumulated data checkedState allUnions k
                \/ (k = id /\ u ∈ u0 :: cu)).
  { intros k u. rewrite accumulated_snoc, elem_of_union. fold id.
    unfold checked_unions. rewrite Hcu.
    case_decide as Hk; [rewrite elem_of_list_to_set | rewrite elem_of_empty];
      intuition congruence. }
  assert (Hnd1 : NoDup (m1.*1)).
  { unfold m1. destruct (Map_has m id) eqn:Hhas; [done|].
    rewrite fmap_app. apply NoDup_app. split; [done|]. split; [|apply NoDup_singleton].
    intros k Hk ->%list_elem_of_singleton.
    apply Map_has_keys in Hk. cbn [fst] in Hk. congruence. }
  assert (Hget1 : forall k, Map_get m1 k
            = match Map_get m k with
              | Some c => Some c
              | None => if decide (k = id)
                        then Some {| cand_unions := []; cand_row := row |} else None
              end).
  { intros k. unfold m1. destruct (Map_has m id) eqn:Hhas.
    - destruct (Map_get m k) as [c|] eqn:Hk; [done|]. case_decide; [|done]. subst k.
      apply Map_has_keys, Map_get_keys in Hhas as [? ?]. congruence.
    - apply Map_get_snoc. }
  split; [by rewrite keys_fold_add|]. split.
  - intros k c. rewrite Map_get_fold_add, !Hget1. case_decide as Hk.
    + subst k. destruct (Map_get m id) as [c0|] eqn:Hm.
      * intros [= <-]. destruct (Hent id c0 Hm) as (Hid & Hnd0 & Hu0).
        split; [done|]. split; [by apply fold_Set_add_NoDup|].
        intros u. cbn [with_unions cand_unions]. rewrite fold_Set_add_elem, Hacc, Hu0.
        intuition congruence.
      * rewrite decide_True by done. intros [= <-].
        split; [done|]. split; [apply fold_Set_add_NoDup; constructor|].
        intros u. cbn [with_unions cand_unions]. rewrite fold_Set_add_elem, Hacc.
        split.
        -- intros [Hu | Hu]; [by apply elem_of_nil in Hu | by right].
        -- intros [Hu | [_ Hu]]; [|by right].
           destruct (Hall id u Hu) as [? ?]. congruence.
    + destruct (Map_get m k) as [c0|] eqn:Hm; [|done].
      intros [= <-]. destruct (Hent k c0 Hm) as (Hid & Hnd0 & Hu0).
      split; [done|]. split; [done|]. intros u. rewrite Hu0, Hacc. intuition congruence.
  - intros k u. rewrite Hacc, Map_get_fold_add, !Hget1. intros [Hu | [-> Hu]].
    + destruct (Hall k u Hu) as [c Hc]. rewrite Hc.
      case_decide; [subst; rewrite Hc|]; by eexists.
    + rewrite decide_True by done.
      destruct (Map_get m id); [|rewrite decide_True by done]; by eexists.
Qed.

Lemma candidatesMap_ok data checkedState allUnions :
  candidates_ok data checkedState allUnions
    (candidatesMap_of data checkedState allUnions).
Proof.
  induction data as [|row data IH] using rev_ind.
  - split; [constructor|]. split; [done|].
    intros k u (i & row & Hrow & _)%elem_of_accumulated. by rewrite lookup_nil in Hrow.
  - rewrite candidatesMap_of_snoc. by apply visit_row_ok.
Qed.

Lemma elem_of_map {A B} (f : A -> B) l y :
  y ∈ map f l <-> exists x, y = f x /\ x ∈ l.
Proof. apply list_elem_of_fmap. Qed.

Lemma elem_of_actualDuplicates m dup :
  dup ∈ actualDuplicates_of m
  <-> exists k c, (k, c) ∈ m /\ (1 < length (cand_unions c))%nat
                  /\ dup = {| dup_identifier := getCandidateIdentifier (cand_row c);
                              dup_unions := sort (cand_unions c);
                              dup_row := cand_row c |}.
Proof.
  unfold actualDuplicates_of. rewrite elem_of_map.
  setoid_rewrite elem_of_List_filter. setoid_rewrite elem_of_map.
  setoid_rewrite Nat.ltb_lt. split.
  - intros (c & -> & ([k c'] & -> & Hin) & Hlen). by exists k, c'.
  - intros (k & c & Hin & Hlen & ->). exists c. split; [done|]. split; [|done].
    by exists (k, c).
Qed.

Lemma elem_of_candidatesInUnion dups U e :
  e ∈ candidatesInUnion dups U
  <-> exists dup, dup ∈ dups /\ U ∈ dup_unions dup
                  /\ e = {| identifier := dup_identifier dup;
                            otherUnions :=
                              List.filter (fun u => negb (String.eqb u U)) (dup_unions dup);
                            row := dup_row dup |}.
Proof.
  unfold candidatesInUnion. rewrite elem_of_map.
  setoid_rewrite elem_of_List_filter. setoid_rewrite bool_decide_eq_true.
  split.
  - intros (dup & -> & Hin & HU). by exists dup.
  - intros (dup & Hin & HU & ->). by exists dup.
Qed.

Lemma group_fold_lookup dups us g U :
  fold_left (group_union dups) us g !! U
  = if decide (U ∈ us)
    then match candidatesInUnion dups U with
         | [] => g !! U
         | _ :: _ =>
             Some (sort_by (fun a b => localeCompare (identifier a) (identifier b))
                     (candidatesInUnion dups U))
         end
    else g !! U.
Proof.
  revert g. induction us as [|u us IH]; intros g; cbn [fold_left].
  - rewrite decide_False; [done | apply not_elem_of_nil].
  - rewrite IH. clear IH.
    assert (Hstep : group_union dups g u !! U
              = if decide (U = u)
                then match candidatesInUnion dups U with
                     | [] => g !! U
                     | _ :: _ =>
                         Some (sort_by (fun a b => localeCompare (identifier a) (identifier b))
                                 (candidatesInUnion dups U))
                     end
                else g !! U).
    { unfold group_union. case_decide as HU.
      - subst u. destruct (candidatesInUnion dups U); [done|].
        by rewrite lookup_insert_eq.
      - destruct (candidatesInUnion dups u); [done|].
        by rewrite lookup_insert_ne. }
    destruct (decide (U ∈ us)) as [Hin | Hout].
    + rewrite decide_True by (by right). rewrite Hstep.
      destruct (candidatesInUnion dups U); [|done]. by case_decide.
    + rewrite Hstep. destruct (decide (U = u)) as [-> | Hne].
      * by rewrite decide_True by left.
      * rewrite decide_False; [done|]. by intros [-> | ?]%elem_of_cons.
Qed.

Section Result.
Variables (data : list TableRow) (checkedState : gmap nat (gmap string bool))
  (allUnions : list string).

Let result := duplicatedCandidatesByUnion data checkedState allUnions.
Let acc := accumulated data checkedState allUnions.
Let dups := actualDuplicates_of (candidatesMap_of data checkedState allUnions).

Lemma result_lookup U l :
  result !! U = Some l
  <-> U ∈ allUnions /\ candidatesInUnion dups U <> []
      /\ l = sort_by (fun a b => localeCompare (identifier a) (identifier b))
               (candidatesInUnion dups U).
Proof.
  unfold result, duplicatedCandidatesByUnion. cbv zeta. fold dups.
  rewrite group_fold_lookup, lookup_empty.
  destruct (decide (U ∈ allUnions)) as [Hin | Hout]; [|intuition congruence].
  destruct (candidatesInUnion dups U) eqn:Hc; intuition congruence.
Qed.

Lemma dups_sound dup :
  dup ∈ dups ->
  (2 <= size (acc (dup_identifier dup)))%nat
  /\ forall u, u ∈ dup_unions dup <-> u ∈ acc (dup_identifier dup).
Proof.
  destruct (candidatesMap_ok data checkedState allUnions) as (Hnd & Hent & Hall).
  unfold dups, acc. intros (k & c & Hin & Hlen & ->)%elem_of_actualDuplicates.
  cbn [dup_identifier dup_unions dup_row].
  apply elem_Map_get in Hin; [|done].
  destruct (Hent k c Hin) as (Hid & Hndu & Hu). rewrite Hid.
  assert (Hset : accumulated data checkedState allUnions k
                 = list_to_set (cand_unions c)).
  { apply set_eq. intros u. by rewrite elem_of_list_to_set, Hu. }
  split.
  - rewrite Hset, size_list_to_set by done. lia.
  - intros u. rewrite <- Hu. unfold sort. by rewrite sort_by_Permutation.
Qed.

Lemma dups_complete X :
  (2 <= size (acc X))%nat ->
  exists dup, dup ∈ dups /\ dup_identifier dup = X
              /\ forall u, u ∈ dup_unions dup <-> u ∈ acc X.
Proof.
  destruct (candidatesMap_ok data checkedState allUnions) as (Hnd & Hent & Hall).
  unfold dups, acc. intros Hsize.
  assert (Hne : exists u, u ∈ accumulated data checkedState allUnions X).
  { apply set_choose_L. intros Hempty. rewrite Hempty, size_empty in Hsize. lia. }
  destruct Hne as [u0 Hu0]. destruct (Hall X u0 Hu0) as [c Hget].
  destruct (Hent X c Hget) as (Hid & Hndu & Hu).
  assert (Hset : accumulated data checkedState allUnions X
                 = list_to_set (cand_unions c)).
  { apply set_eq. intros u. by rewrite elem_of_list_to_set, Hu. }
  eexists. split; [|split].
  - apply elem_of_actualDuplicates. exists X, c.
    split; [by apply Map_get_elem|]. split; [|done].
    rewrite Hset, size_list_to_set in Hsize by done. lia.
  - done.
  - intros u. cbn [dup_unions]. rewrite <- Hu. unfold sort.
    by rewrite sort_by_Permutation.
Qed.

Lemma elem_of_otherUnions (us : list string) U V :
  V ∈ List.filter (fun u => negb (String.eqb u U)) us <-> V ∈ us /\ V <> U.
Proof.
  rewrite elem_of_List_filter, negb_true_iff, String.eqb_neq. done.
Qed.

(** What an entry of the list of [U] says. *)
Lemma listed_entry U l e :
  result !! U = Some l -> e ∈ l ->
  U ∈ acc (identifier e) /\ (2 <= size (acc (identifier e)))%nat
  /\ forall V, V ∈ otherUnions e <-> V ∈ acc (identifier e) /\ V <> U.
Proof.
  intros (HU & Hne & ->)%result_lookup He.
  rewrite sort_by_Permutation in He.
  apply elem_of_candidatesInUnion in He as (dup & Hdup & HUdup & ->).
  cbn [identifier otherUnions].
  destruct (dups_sound dup Hdup) as [Hsize Hu].
  split; [by apply Hu|]. split; [done|].
  intros V. by rewrite elem_of_otherUnions, Hu.
Qed.

Lemma listed_intro U X :
  U ∈ acc X -> (2 <= size (acc X))%nat ->
  exists l e, result !! U = Some l /\ e ∈ l /\ identifier e = X
              /\ forall V, V ∈ otherUnions e <-> V ∈ acc X /\ V <> U.
Proof.
  intros HU Hsize. destruct (dups_complete X Hsize) as (dup & Hdup & Hid & Hu).
  set (e := {| identifier := dup_identifier dup;
               otherUnions := List.filter (fun u => negb (String.eqb u U)) (dup_unions dup);
               row := dup_row dup |}).
  assert (He : e ∈ candidatesInUnion dups U).
  { apply elem_of_candidatesInUnion. exists dup. by rewrite Hu. }
  eexists _, e. split; [|split; [|split]].
  - apply result_lookup. split; [|split; [|done]].
    + unfold acc in HU. by apply elem_of_accumulated in HU as (? & ? & ? & ? & ? & ?).
    + intros Hnil. rewrite Hnil in He. by apply elem_of_nil in He.
  - by rewrite sort_by_Permutation.
  - done.
  - intros V. cbn [otherUnions e]. by rewrite elem_of_otherUnions, Hu.
Qed.

End Result.
End Duplicates.

(** ** Claims on the duplicate grouper *)

(** C2. The grouper lists exactly the duplicates: the identity [X] is in the
    list of the union [U] if and only if [U] is in the accumulated union set
    of [X] (the unions checked, over all rows that resolve to [X]) and that
    set has at least two members. An identity checked under exactly one union
    is in no list, no list of the result is empty, and a union without a
    duplicate identity has no entry in the result. A union is checked for a
    row when the read [checkedState[rowIndex]?.[union]] counts as true: the
    marks of the row hold [true] for it, or hold nothing for it and it has the
    name of a member of [Object.prototype]; for unions without such a name,
    when the selection state maps the row and the union to [true]. *)
Theorem duplicates_exact `{Host} (data : list TableRow)
    (checkedState : gmap nat (gmap string bool)) (allUnions : list string) :
  let result := Report.duplicatedCandidatesByUnion data checkedState allUnions in
  let acc := accumulated data checkedState allUnions in
  (forall X u, u ∈ acc X <->
     exists i row, data !! i = Some row /\ Report.getCandidateIdentifier row = X
                   /\ u ∈ allUnions /\ Report.checked checkedState i u = true)
  /\ (forall U X, listed result U X <-> U ∈ acc X /\ (2 <= size (acc X))%nat)
  /\ (forall X, size (acc X) = 1%nat -> forall U, ~ listed result U X)
  /\ (forall U l, result !! U = Some l -> l <> [])
  /\ (forall U, (forall X, U ∈ acc X -> (size (acc X) < 2)%nat) -> result !! U = None)
  /\ (forall i u,
        Report.checked checkedState i u = true
        <-> exists marks, checkedState !! i = Some marks
              /\ (marks !! u = Some true
                  \/ (marks !! u = None /\ u ∈ Report.Object_prototype_names)))
  /\ (plain_unions allUnions ->
      forall X u, u ∈ acc X <->
        exists i row, data !! i = Some row /\ Report.getCandidateIdentifier row = X
                      /\ u ∈ allUnions /\ own_mark checkedState i u = true).
Proof.
  intros result acc.
  assert (Hlisted : forall U X, listed result U X
                                <-> U ∈ acc X /\ (2 <= size (acc X))%nat).
  { intros U X. split.
    - intros (l & e & Hl & He & <-).
      destruct (listed_entry _ _ _ _ _ _ Hl He) as (? & ? & _). done.
    - intros [HU Hsize].
      destruct (listed_intro _ _ _ U X HU Hsize) as (l & e & Hl & He & Hid & _).
      by exists l, e. }
  assert (Hnonempty : forall U l, result !! U = Some l -> l <> []).
  { intros U l (_ & Hne & ->)%result_lookup Hnil. apply Hne.
    apply Permutation_nil_r. rewrite <- Hnil. symmetry. apply sort_by_Permutation. }
  split; [intros X u; apply elem_of_accumulated|]. split; [done|].
  split; [|split; [|split; [|split]]].
  - intros X Hone U [_ Hsize]%Hlisted. lia.
  - done.
  - intros U Hnone. destruct (result !! U) as [l|] eqn:Hl; [|done].
    destruct l as [|e l]; [by destruct (Hnonempty U [] Hl)|].
    destruct (listed_entry _ _ _ _ _ _ Hl (list_elem_of_here e l)) as (HU & Hsize & _).
    specialize (Hnone _ HU). fold acc in Hsize. lia.
  - intros i u. apply checked_true_iff.
  - intros Hplain X u. unfold acc. rewrite elem_of_accumulated.
    split; intros (i & row & Hi & Hid & Hu & Hc); exists i, row;
      (split; [done|]; split; [done|]; split; [done|]).
    + by rewrite <- (checked_own_mark _ _ _ (Hplain u Hu)).
    + by rewrite (checked_own_mark _ _ _ (Hplain u Hu)).
Qed.

(** C1. Duplicate grouping is symmetric: when the identity [X] is in the list
    of the union [U] with [V] among its other unions, [X] is in the list of
    [V] with [U] among its other unions. *)
Theorem duplicates_symmetric `{Host} (data : list TableRow)
    (checkedState : gmap nat (gmap string bool)) (allUnions : list string)
    (U V X : string) :
  let result := Report.duplicatedCandidatesByUnion data checkedState allUnions in
  listed_with result U X V -> listed_with result V X U.
Proof.
  intros result (l & e & Hl & He & <- & HV).
  destruct (listed_entry _ _ _ _ _ _ Hl He) as (HU & Hsize & Hother).
  apply Hother in HV as [HV Hne].
  destruct (listed_intro _ _ _ V _ HV Hsize) as (l' & e' & Hl' & He' & Hid & Hother').
  exists l', e'. split; [done|]. split; [done|]. split; [done|].
  apply Hother'. by split.
Qed.

(** The example of the specification: Juan Pérez, checked under CCOO in one
    row and under UGT in another, is listed under each with the other. *)
Lemma example_listed_under_CCOO :
  listed_with
    (Report.duplicatedCandidatesByUnion (H := ExampleHost.canarias)
       example_rows example_checked example_unions)
    "CCOO" "Juan Pérez" "UGT".
Proof.
  exists [ {| Report.identifier := "Juan Pérez"; Report.otherUnions := ["UGT"%string];
              Report.row := [("Nombre", VStr "Juan Pérez"); ("Centro", VStr "Telde")] |} ].
  eexists. split; [vm_compute; reflexivity|].
  split; [apply list_elem_of_here|]. split; [reflexivity|]. apply list_elem_of_here.
Defined.

Lemma duplicates_symmetric_witness :
  listed_with
    (Report.duplicatedCandidatesByUnion (H := ExampleHost.canarias)
       example_rows example_checked example_unions)
    "UGT" "Juan Pérez" "CCOO".
Proof.
  exact (duplicates_symmetric (H := ExampleHost.canarias)
           example_rows example_checked example_unions "CCOO" "UGT" "Juan Pérez"
           example_listed_under_CCOO).
Defined.

(** ** More on the report of duplicates *)

Import Notions.

(** *** Sorting with a comparison function *)

Lemma elem_of_insert_sorted {A} (compare : A -> A -> Z) x l z :
  z ∈ insert_sorted compare x l <-> z = x \/ z ∈ l.
Proof. by rewrite insert_sorted_Permutation, elem_of_cons. Qed.

Lemma insert_sorted_sorted {A} (compare : A -> A -> Z) x l :
  consistent_order compare ->
  StronglySorted (compare_le compare) l ->
  StronglySorted (compare_le compare) (insert_sorted compare x l).
Proof.
  intros [Hanti Htrans]. induction 1 as [|y l Hl IH Hy]; cbn [insert_sorted].
  - repeat constructor.
  - destruct (0 <? compare x y) eqn:Hc.
    + apply Z.ltb_lt in Hc. constructor; [done|].
      apply Forall_forall. intros z [->|Hz]%elem_of_insert_sorted.
      * by apply Hanti.
      * by apply (proj1 (Forall_forall _ _) Hy).
    + apply Z.ltb_ge in Hc. constructor; [by constructor|].
      constructor; [done|].
      apply Forall_forall. intros z Hz.
      apply (Htrans x y z); [done|]. by apply (proj1 (Forall_forall _ _) Hy).
Qed.

Lemma sort_by_sorted {A} (compare : A -> A -> Z) l :
  consistent_order compare -> StronglySorted (compare_le compare) (sort_by compare l).
Proof.
  intros Hc. induction l as [|x l IH]; [constructor|].
  unfold sort_by in *. cbn [fold_right]. by apply insert_sorted_sorted.
Qed.

Lemma sort_by_unique {A} (compare : A -> A -> Z) l1 l2 :
  consistent_order compare ->
  (forall a b, compare a b <= 0 -> compare b a <= 0 -> a = b) ->
  l1 ≡ₚ l2 -> sort_by compare l1 = sort_by compare l2.
Proof.
  intros Hc Hanti Hp.
  apply (StronglySorted_unique (compare_le compare) (AntiSymm0 := Hanti)).
  - by apply sort_by_sorted.
  - by apply sort_by_sorted.
  - by rewrite !sort_by_Permutation.
Qed.

(** The order of code units is an order. *)
Lemma String_compare_trans a b c :
  String.compare a b <> Gt -> String.compare b c <> Gt -> String.compare a c <> Gt.
Proof.
  revert b c. induction a as [|x a IH]; intros [|y b] [|z c]; cbn [String.compare]; try done.
  unfold Ascii.compare.
  destruct (N.compare_spec (N_of_ascii x) (N_of_ascii y)) as [Hxy|Hxy|Hxy];
    destruct (N.compare_spec (N_of_ascii y) (N_of_ascii z)) as [Hyz|Hyz|Hyz];
    destruct (N.compare_spec (N_of_ascii x) (N_of_ascii z)) as [Hxz|Hxz|Hxz];
    try done; try lia.
  apply IH.
Qed.

Lemma default_compare_consistent : consistent_order default_compare.
Proof.
  unfold default_compare. split.
  - intros a b. rewrite (String.compare_antisym a b).
    destruct (String.compare b a); cbn; lia.
  - intros a b c Hab Hbc.
    pose proof (String_compare_trans a b c).
    destruct (String.compare a b), (String.compare b c), (String.compare a c);
      try lia; exfalso; try lia; tauto.
Qed.

Lemma default_compare_antisym a b :
  compare_le default_compare a b -> compare_le default_compare b a -> a = b.
Proof.
  unfold compare_le, default_compare. rewrite (String.compare_antisym a b).
  destruct (String.compare b a) eqn:Hc; cbn; try lia.
  intros _ _. symmetry. by apply String.compare_eq_iff.
Qed.

Lemma sort_sorted l : StronglySorted (compare_le default_compare) (sort l).
Proof. apply sort_by_sorted, default_compare_consistent. Qed.

Lemma sort_Permutation l1 l2 : l1 ≡ₚ l2 -> sort l1 = sort l2.
Proof.
  apply sort_by_unique; [apply default_compare_consistent|].
  apply default_compare_antisym.
Qed.

(** *** [filter] with a test *)

Lemma StronglySorted_List_filter {A} (R : relation A) (p : A -> bool) l :
  StronglySorted R l -> StronglySorted R (List.filter p l).
Proof.
  induction 1 as [|x l Hl IH Hx]; cbn [List.filter]; [constructor|].
  destruct (p x); [|done]. constructor; [done|].
  apply Forall_forall. intros z [Hz _]%elem_of_List_filter.
  by apply (proj1 (Forall_forall _ _) Hx).
Qed.

Lemma List_filter_sublist {A} (p : A -> bool) l : (List.filter p l) `sublist_of` l.
Proof.
  induction l as [|x l IH]; cbn [List.filter]; [done|].
  destruct (p x); by constructor.
Qed.

Lemma NoDup_map_List_filter {A B} (f : A -> B) (p : A -> bool) l :
  NoDup (map f l) -> NoDup (map f (List.filter p l)).
Proof.
  intros Hnd. eapply sublist_NoDup; [exact Hnd|].
  apply (fmap_sublist f), List_filter_sublist.
Qed.

Lemma List_filter_filter {A} (p q : A -> bool) l :
  (forall x, p x = true -> q x = true) ->
  List.filter p l = List.filter p (List.filter q l).
Proof.
  intros Hpq. induction l as [|x l IH]; cbn [List.filter]; [done|].
  destruct (p x) eqn:Hp.
  - rewrite (Hpq x Hp). cbn [List.filter]. by rewrite Hp, IH.
  - destruct (q x); cbn [List.filter]; by rewrite ?Hp, IH.
Qed.

Lemma List_filter_Permutation {A} (p : A -> bool) l1 l2 :
  l1 ≡ₚ l2 -> List.filter p l1 ≡ₚ List.filter p l2.
Proof.
  induction 1 as [|x l1 l2 Hp IH|x y l|l1 l2 l3 H1 IH1 H2 IH2]; cbn [List.filter].
  - done.
  - destruct (p x); by rewrite IH.
  - destruct (p x), (p y); try done. apply perm_swap.
  - by etrans.
Qed.

(** *** Marks *)

(** A mark set by [handleCheckboxChange] is held by the new state, and no
    other mark changes. *)
Lemma own_mark_mark i u b st j v :
  own_mark (AppHandlers.mark i u b st) j v
  = if decide (j = i /\ v = u) then b else own_mark st j v.
Proof.
  unfold own_mark, AppHandlers.mark.
  destruct (decide (j = i)) as [->|Hj].
  - rewrite lookup_insert_eq. destruct (decide (v = u)) as [->|Hv].
    + rewrite lookup_insert_eq. by rewrite decide_True.
    + rewrite lookup_insert_ne by done. rewrite decide_False by tauto.
      destruct (st !! i); cbn [default]; [done|]. by rewrite lookup_empty.
  - rewrite lookup_insert_ne by done. by rewrite decide_False by tauto.
Qed.

(** How the boxes read after [handleCheckboxChange]: the box set reads as
    set; the other boxes of the row read as before when the row had marks,
    and as what a new object inherits when it had none; the boxes of the
    other rows read as before. *)
Lemma checked_mark i u b st j v :
  Report.checked (AppHandlers.mark i u b st) j v
  = if decide (j = i)
    then if decide (v = u) then b
         else match st !! i with
              | Some _ => Report.checked st i v
              | None => Report.inherited v
              end
    else Report.checked st j v.
Proof.
  unfold Report.checked, AppHandlers.mark.
  destruct (decide (j = i)) as [->|Hj].
  - rewrite lookup_insert_eq. destruct (decide (v = u)) as [->|Hv].
    + by rewrite lookup_insert_eq.
    + rewrite lookup_insert_ne by done.
      destruct (st !! i); cbn [default]; [done|]. by rewrite lookup_empty.
  - by rewrite lookup_insert_ne by done.
Qed.

(** Checking a box unchecks none. *)
Lemma checked_mark_mono i u st j v :
  Report.checked st j v = true ->
  Report.checked (AppHandlers.mark i u true st) j v = true.
Proof.
  intros Hc. rewrite checked_mark.
  destruct (decide (j = i)) as [->|]; [|done].
  destruct (decide (v = u)); [done|].
  destruct (st !! i) as [marks|] eqn:Hst; [done|].
  unfold Report.checked in Hc. by rewrite Hst in Hc.
Qed.

Lemma checked_mark_same i u b st :
  Report.checked (AppHandlers.mark i u b st) i u = b.
Proof. rewrite checked_mark. by rewrite !decide_True. Qed.

Section ReportMore.
Import Report.
Context `{host : Host}.

Lemma result_list_nonempty data checkedState allUnions U l :
  duplicatedCandidatesByUnion data checkedState allUnions !! U = Some l -> l <> [].
Proof.
  intros (_ & Hne & ->)%result_lookup Hnil. apply Hne.
  apply Permutation_nil_r. rewrite <- Hnil. symmetry. apply sort_by_Permutation.
Qed.

Lemma result_empty_iff data checkedState allUnions :
  duplicatedCandidatesByUnion data checkedState allUnions = ∅
  <-> forall X, (size (accumulated data checkedState allUnions X) < 2)%nat.
Proof.
  split.
  - intros Hempty X.
    destruct (decide (size (accumulated data checkedState allUnions X) < 2)%nat)
      as [|Hn]; [done|].
    assert (Hsz : (2 <= size (accumulated data checkedState allUnions X))%nat) by lia.
    destruct (set_choose_L (accumulated data checkedState allUnions X)) as [U HU].
    { intros HX. rewrite HX, size_empty in Hsz. lia. }
    destruct (listed_intro data checkedState allUnions U X HU Hsz) as (l & e & Hl & _).
    rewrite Hempty in Hl. by rewrite lookup_empty in Hl.
  - intros Hsmall. apply map_empty. intros U.
    destruct (duplicatedCandidatesByUnion data checkedState allUnions !! U)
      as [l|] eqn:Hl; [|done].
    exfalso. pose proof (result_list_nonempty _ _ _ _ _ Hl) as Hne.
    destruct l as [|e l']; [done|].
    destruct (listed_entry data checkedState allUnions U (e :: l') e Hl)
      as (_ & Hsz & _); [left|].
    specialize (Hsmall (identifier e)). lia.
Qed.

(** The marks outside the rows of [data] and outside [allUnions] are not
    read. *)
Lemma candidatesMap_of_ext data st st' allUnions :
  (forall i u, (i < length data)%nat -> u ∈ allUnions ->
               checked st i u = checked st' i u) ->
  candidatesMap_of data st allUnions = candidatesMap_of data st' allUnions.
Proof.
  induction data as [|row data IH] using rev_ind; [done|].
  intros Hext. rewrite !candidatesMap_of_snoc.
  rewrite IH.
  2:{ intros i u Hi. apply Hext. rewrite length_app. lia. }
  unfold visit_row.
  replace (List.filter (checked st (length data)) allUnions)
    with (List.filter (checked st' (length data)) allUnions); [done|].
  apply List.filter_ext_in. intros u Hu%list_elem_of_In. symmetry. apply Hext; [|done].
  rewrite length_app. simpl. lia.
Qed.

(** Where an entry of the result comes from. *)
Lemma entry_origin data checkedState allUnions U l e :
  duplicatedCandidatesByUnion data checkedState allUnions !! U = Some l -> e ∈ l ->
  exists c,
    Map_get (candidatesMap_of data checkedState allUnions) (identifier e) = Some c
    /\ e = {| identifier := getCandidateIdentifier (cand_row c);
              otherUnions :=
                List.filter (fun u => negb (String.eqb u U)) (sort (cand_unions c));
              row := cand_row c |}.
Proof.
  intros (_ & _ & ->)%result_lookup He.
  rewrite sort_by_Permutation in He.
  apply elem_of_candidatesInUnion in He as (dup & Hdup & _ & ->).
  apply elem_of_actualDuplicates in Hdup as (k & c & Hkc & _ & ->). cbn.
  destruct (candidatesMap_ok data checkedState allUnions) as (Hnd & Hget & _).
  pose proof (elem_Map_get _ _ _ Hnd Hkc) as Hc.
  destruct (Hget k c Hc) as (Hid & _). exists c. by rewrite Hid.
Qed.

(** The accumulated union sets after a box is checked. *)
Lemma accumulated_tick data st allUnions i r u :
  data !! i = Some r -> u ∈ allUnions ->
  u ∈ accumulated data (AppHandlers.mark i u true st) allUnions
        (getCandidateIdentifier r).
Proof.
  intros Hi Hu. apply elem_of_accumulated. exists i, r.
  repeat split; try done. apply checked_mark_same.
Qed.

Lemma accumulated_mono_tick data st allUnions i u X :
  accumulated data st allUnions X
  ⊆ accumulated data (AppHandlers.mark i u true st) allUnions X.
Proof.
  intros v. rewrite !elem_of_accumulated.
  intros (j & r & Hj & Hid & Hv & Hc). exists j, r. repeat split; try done.
  by apply checked_mark_mono.
Qed.

(** X1. The report says there are duplicates exactly when some identity
    reads as checked under two or more unions: [hasDuplicates] holds if and
    only if the accumulated union set of some identity has at least two
    elements. *)
Theorem hasDuplicates_iff (data : list TableRow)
    (checkedState : gmap nat (gmap string bool)) (allUnions : list string) :
  ReportView.hasDuplicates (duplicatedCandidatesByUnion data checkedState allUnions) = true
  <-> exists X, (2 <= size (accumulated data checkedState allUnions X))%nat.
Proof.
  unfold ReportView.hasDuplicates. rewrite Nat.ltb_lt.
  set (result := duplicatedCandidatesByUnion data checkedState allUnions).
  split.
  - intros Hsz.
    destruct (decide (delete "__proto__"%string result = ∅)) as [He|Hne].
    { rewrite He, map_size_empty in Hsz. lia. }
    apply map_choose in Hne as (U & l & Hl).
    apply lookup_delete_Some in Hl as [_ Hl].
    pose proof (result_list_nonempty _ _ _ _ _ Hl) as Hne.
    destruct l as [|e l']; [done|]. exists (identifier e).
    by destruct (listed_entry data checkedState allUnions U (e :: l') e Hl)
      as (_ & Hsz' & _); [left|].
  - intros [X HX].
    assert (exists U, U ∈ accumulated data checkedState allUnions X
                      /\ U <> "__proto__"%string) as (U & HU & Hne).
    { destruct (decide (accumulated data checkedState allUnions X
                        ⊆ {[ "__proto__"%string ]})) as [Hsub|Hnsub].
      - apply subseteq_size in Hsub. rewrite size_singleton in Hsub. lia.
      - destruct (set_choose_L (accumulated data checkedState allUnions X
                                ∖ {[ "__proto__"%string ]})) as [U HU].
        { intros He. apply Hnsub. intros V HV.
          destruct (decide (V = "__proto__"%string)) as [->|Hne];
            [by apply elem_of_singleton|].
          assert (V ∈ accumulated data checkedState allUnions X
                      ∖ {[ "__proto__"%string ]}) as HV'.
          { apply elem_of_difference. split; [done|]. by rewrite elem_of_singleton. }
          rewrite He in HV'. by apply elem_of_empty in HV'. }
        apply elem_of_difference in HU as [HU Hne]. exists U. split; [done|].
        by rewrite elem_of_singleton in Hne. }
    destruct (listed_intro data checkedState allUnions U X HU HX) as (l & e & Hl & _).
    assert (Hdel : delete "__proto__"%string result !! U = Some l).
    { apply lookup_delete_Some. by split; [congruence|]. }
    assert (Hnonempty : delete "__proto__"%string result <> ∅).
    { intros He. rewrite He in Hdel. by rewrite lookup_empty in Hdel. }
    apply map_size_non_empty_iff in Hnonempty. lia.
Qed.

(** X2. Without a box that reads as checked there is nothing to report:
    when no row of the data reads as checked under a union of [allUnions]
    (no rows, no unions, no marks, or, for unions without the name of a
    member of [Object.prototype], only marks that were unchecked again), the
    result has no union at all. *)
Theorem no_marks_no_duplicates (data : list TableRow)
    (checkedState : gmap nat (gmap string bool)) (allUnions : list string) :
  (forall i row u, data !! i = Some row -> u ∈ allUnions ->
                   checked checkedState i u = false) ->
  duplicatedCandidatesByUnion data checkedState allUnions = ∅.
Proof.
  intros Hno. apply result_empty_iff. intros X.
  replace (accumulated data checkedState allUnions X) with (∅ : gset string);
    [rewrite size_empty; lia|].
  symmetry. apply set_eq. intros u. rewrite elem_of_accumulated.
  split; [|set_solver]. intros (i & row & Hi & _ & Hu & Hc).
  rewrite (Hno i row u Hi Hu) in Hc. done.
Qed.

(** X3. The report depends on the selection state through the reads of
    the boxes of the rows of the data under the unions of [allUnions] and
    nothing else: two states whose boxes read alike there give the same
    result. (They may differ at indices past the last row; a mark under
    another union name changes a read only by giving marks to a row that had
    none, under a union with the name of a member of [Object.prototype].) *)
Theorem irrelevant_marks_ignored (data : list TableRow)
    (st st' : gmap nat (gmap string bool)) (allUnions : list string) :
  (forall i u, (i < length data)%nat -> u ∈ allUnions ->
               checked st i u = checked st' i u) ->
  duplicatedCandidatesByUnion data st allUnions
  = duplicatedCandidatesByUnion data st' allUnions.
Proof.
  intros Hext. unfold duplicatedCandidatesByUnion.
  by rewrite (candidatesMap_of_ext data st st' allUnions Hext).
Qed.

(** X4. The other unions of an entry listed under the union [U]: there is
    at least one, [U] is not among them, none occurs twice, all are unions of
    [allUnions], and they stand in the order of their code units. *)
Theorem other_unions_shape (data : list TableRow)
    (checkedState : gmap nat (gmap string bool)) (allUnions : list string)
    (U : string) (l : list Entry) (e : Entry) :
  duplicatedCandidatesByUnion data checkedState allUnions !! U = Some l -> e ∈ l ->
  otherUnions e <> [] /\ (U ∉ otherUnions e) /\ NoDup (otherUnions e)
  /\ (forall V, V ∈ otherUnions e -> V ∈ allUnions)
  /\ StronglySorted (compare_le default_compare) (otherUnions e).
Proof.
  intros Hl He.
  destruct (listed_entry data checkedState allUnions U l e Hl He) as (HU & Hsz & Hother).
  destruct (entry_origin _ _ _ U l e Hl He) as (c & Hc & Heq).
  destruct (candidatesMap_ok data checkedState allUnions) as (_ & Hget & _).
  destruct (Hget _ _ Hc) as (_ & Hnd & _).
  repeat split.
  - destruct (decide (accumulated data checkedState allUnions (identifier e) ⊆ {[U]}))
      as [Hsub|Hnsub].
    + apply subseteq_size in Hsub. rewrite size_singleton in Hsub. lia.
    + intros Hnil. apply Hnsub. intros V HV. apply elem_of_singleton.
      destruct (decide (V = U)) as [|Hne]; [done|].
      assert (V ∈ otherUnions e) as HV' by (by apply Hother).
      rewrite Hnil in HV'. by apply elem_of_nil in HV'.
  - intros HV%Hother. tauto.
  - rewrite Heq. cbn. apply NoDup_List_filter.
    unfold sort. by rewrite sort_by_Permutation.
  - intros V [HV _]%Hother.
    apply elem_of_accumulated in HV as (i & r & _ & _ & HV & _). exact HV.
  - rewrite Heq. cbn. apply StronglySorted_List_filter, sort_sorted.
Qed.

(** X5. No identity is listed twice under a union: the identifiers of the
    entries of a list of the result are pairwise different. *)
Theorem identities_listed_once (data : list TableRow)
    (checkedState : gmap nat (gmap string bool)) (allUnions : list string)
    (U : string) (l : list Entry) :
  duplicatedCandidatesByUnion data checkedState allUnions !! U = Some l ->
  NoDup (map identifier l).
Proof.
  intros (_ & _ & ->)%result_lookup.
  rewrite sort_by_Permutation.
  destruct (candidatesMap_ok data checkedState allUnions) as (Hnd & Hget & _).
  unfold candidatesInUnion, actualDuplicates_of.
  set (m := candidatesMap_of data checkedState allUnions) in *.
  rewrite List.map_map. cbn.
  apply NoDup_map_List_filter.
  change (NoDup (map dup_identifier (map (fun candidate =>
    {| dup_identifier := getCandidateIdentifier (cand_row candidate);
       dup_unions := sort (cand_unions candidate); dup_row := cand_row candidate |})
    (List.filter (fun candidate => (1 <? length (cand_unions candidate))%nat)
       (map snd m))))).
  rewrite List.map_map. cbn.
  apply NoDup_map_List_filter.
  change (NoDup (map (fun c => getCandidateIdentifier (cand_row c)) (map snd m))).
  rewrite List.map_map.
  replace (map (fun x => getCandidateIdentifier (cand_row x.2)) m) with (m.*1); [done|].
  change (m.*1) with (map fst m). apply List.map_ext_in.
  intros [k c] Hin%list_elem_of_In. cbn. symmetry.
  by apply (Hget k c), elem_Map_get.
Qed.

(** X6. Where [localeCompare] is a consistent order, every list of the
    result is sorted by it: no entry comes after a later one. *)
Theorem union_lists_sorted (data : list TableRow)
    (checkedState : gmap nat (gmap string bool)) (allUnions : list string)
    (U : string) (l : list Entry) :
  consistent_order localeCompare ->
  duplicatedCandidatesByUnion data checkedState allUnions !! U = Some l ->
  StronglySorted (fun a b => localeCompare (identifier a) (identifier b) <= 0) l.
Proof.
  intros [Hanti Htrans] (_ & _ & ->)%result_lookup.
  apply (sort_by_sorted (fun a b => localeCompare (identifier a) (identifier b))).
  split; intros; eauto.
Qed.

(** X7. [handleCheckboxChange] sets one box and clears the search: in the
    new state the mark of the row and union it is called for is the new
    value and every other mark is as before; the box set reads as the new
    value, the other boxes of the row read as before when the row had marks
    (and as a new object inherits when it had none), the boxes of the other
    rows read as before; and the search term it leaves shows every row. *)
Theorem checkbox_change_sets_one_box (data : list TableRow) (rowIndex : nat)
    (union : string) (isChecked : bool) (checkedState : gmap nat (gmap string bool)) :
  let '(newState, searchTerm) :=
    AppHandlers.handleCheckboxChange rowIndex union isChecked checkedState in
  (forall j v, own_mark newState j v
               = if decide (j = rowIndex /\ v = union) then isChecked
                 else own_mark checkedState j v)
  /\ (forall j v, checked newState j v
                  = if decide (j = rowIndex)
                    then if decide (v = union) then isChecked
                         else match checkedState !! rowIndex with
                              | Some _ => checked checkedState rowIndex v
                              | None => inherited v
                              end
                    else checked checkedState j v)
  /\ App.search data searchTerm = App.withIndices data.
Proof.
  cbn. split; [|split; [|done]].
  - intros j v. apply own_mark_mark.
  - intros j v. apply checked_mark.
Qed.

(** X8. From the table to the report: when two rows shown by searches
    resolve to the same identity, and the box of the first is checked under
    the union [u] and the box of the second under another union [v], the
    report over the rows the application holds lists that identity under [u]
    with [v] among its other unions. *)
Theorem ticked_twice_reported (data : list TableRow) (q1 q2 : string)
    (d1 d2 : App.Indexed) (u v : string)
    (checkedState : gmap nat (gmap string bool)) (allUnions : list string) :
  d1 ∈ App.search data q1 -> d2 ∈ App.search data q2 ->
  getCandidateIdentifier (App.row d1) = getCandidateIdentifier (App.row d2) ->
  u ∈ allUnions -> v ∈ allUnions -> u <> v ->
  let st1 := (AppHandlers.handleCheckboxChange (App.originalIndex d1) u true
                checkedState).1 in
  let st2 := (AppHandlers.handleCheckboxChange (App.originalIndex d2) v true st1).1 in
  listed_with
    (duplicatedCandidatesByUnion
       (AppHandlers.rows_to_save (App.withIndices data)) st2 allUnions)
    u (getCandidateIdentifier (App.row d1)) v.
Proof.
  intros Hd1 Hd2 Hid Hu Hv Hne. cbn [AppHandlers.handleCheckboxChange fst].
  assert (Hrows : AppHandlers.rows_to_save (App.withIndices data) = data).
  { unfold AppHandlers.rows_to_save, App.withIndices. apply list_eq. intros i.
    change (map ?f ?l) with (f <$> l). rewrite list_lookup_fmap, list_lookup_imap.
    by destruct (data !! i). }
  rewrite Hrows.
  rewrite search_filter in Hd1, Hd2.
  apply elem_of_List_filter in Hd1 as [Hd1%elem_of_withIndices _].
  apply elem_of_List_filter in Hd2 as [Hd2%elem_of_withIndices _].
  set (X := getCandidateIdentifier (App.row d1)) in *.
  set (st1 := AppHandlers.mark (App.originalIndex d1) u true checkedState).
  set (st2 := AppHandlers.mark (App.originalIndex d2) v true st1).
  assert (HuX : u ∈ accumulated data st2 allUnions X).
  { apply accumulated_mono_tick. unfold st1, X.
    by apply accumulated_tick. }
  assert (HvX : v ∈ accumulated data st2 allUnions X).
  { unfold st2. rewrite Hid. by apply accumulated_tick. }
  assert (Hsz : (2 <= size (accumulated data st2 allUnions X))%nat).
  { assert ({[u; v]} ⊆ accumulated data st2 allUnions X) as Hsub.
    { intros w [->%elem_of_singleton| ->%elem_of_singleton]%elem_of_union; done. }
    apply subseteq_size in Hsub.
    rewrite size_union in Hsub by set_solver. rewrite !size_singleton in Hsub. lia. }
  destruct (listed_intro data st2 allUnions u X HuX Hsz) as (l & e & Hl & He & HeX & Hother).
  exists l, e. repeat split; try done. apply Hother. split; [done|congruence].
Qed.

(** X9. Unchecking a box that was checked by mistake restores the report:
    when the box did not read as checked before, and the row had marks
    already or no union of [allUnions] has the name of a member of
    [Object.prototype], checking the box and unchecking it again gives the
    result of the state before (the state itself now holds a [false]
    mark). *)
Theorem untick_restores_report (data : list TableRow)
    (checkedState : gmap nat (gmap string bool)) (allUnions : list string)
    (rowIndex : nat) (union : string) :
  checked checkedState rowIndex union = false ->
  is_Some (checkedState !! rowIndex) \/ plain_unions allUnions ->
  duplicatedCandidatesByUnion data
    (AppHandlers.mark rowIndex union false
       (AppHandlers.mark rowIndex union true checkedState)) allUnions
  = duplicatedCandidatesByUnion data checkedState allUnions.
Proof.
  intros Hfalse Hrow. unfold duplicatedCandidatesByUnion.
  rewrite (candidatesMap_of_ext data _ checkedState allUnions); [done|].
  intros i u _ Hu. rewrite checked_mark.
  destruct (decide (i = rowIndex)) as [->|]; [|by rewrite checked_mark, decide_False].
  destruct (decide (u = union)) as [->|Hne]; [done|].
  assert (Hsome : is_Some (AppHandlers.mark rowIndex union true checkedState !! rowIndex)).
  { unfold AppHandlers.mark. by rewrite lookup_insert_eq. }
  destruct Hsome as [marks ->].
  rewrite checked_mark, decide_True, decide_False by done.
  destruct (checkedState !! rowIndex) as [marks0|] eqn:Hst; [done|].
  destruct Hrow as [[? [=]]|Hplain].
  unfold checked. rewrite Hst. by apply Hplain.
Qed.

End ReportMore.

(** A union with the name of a member of [Object.prototype] reads as
    checked for every row that has marks: a candidate checked under CCOO
    alone is listed under CCOO and under that union. *)
Lemma inherited_union_listed :
  Report.duplicatedCandidatesByUnion (H := ExampleHost.canarias)
    [[("Nombre", VStr "Ana Suárez")]] {[ 0%nat := {[ "CCOO"%string := true ]} ]}
    ["CCOO"; "constructor"]%string
  = {[ "CCOO"%string :=
         [ {| Report.identifier := "Ana Suárez";
              Report.otherUnions := ["constructor"%string];
              Report.row := [("Nombre", VStr "Ana Suárez")] |} ];
       "constructor"%string :=
         [ {| Report.identifier := "Ana Suárez";
              Report.otherUnions := ["CCOO"%string];
              Report.row := [("Nombre", VStr "Ana Suárez")] |} ] ]}.
Proof. vm_compute. reflexivity. Qed.

(** None of the unions of the application has such a name: for them a box
    reads as checked exactly when its mark is [true]. *)
Lemma application_unions_plain : plain_unions example_unions.
Proof.
  intros u Hu. unfold example_unions in Hu.
  repeat (apply elem_of_cons in Hu as [->|Hu]; [reflexivity|]).
  by apply elem_of_nil in Hu.
Qed.

(** The two candidates of the example are listed under CCOO, in
    alphabetical order. *)
Lemma two_duplicates_under_CCOO :
  Report.duplicatedCandidatesByUnion (H := ExampleHost.canarias)
    two_duplicates two_duplicates_checked example_unions !! "CCOO"%string
  = Some two_duplicates_CCOO.
Proof. vm_compute. reflexivity. Qed.

Lemma no_marks_no_duplicates_witness :
  Report.duplicatedCandidatesByUnion (H := ExampleHost.canarias)
    example_rows {[ 0%nat := {[ "CCOO"%string := false ]} ]} example_unions = ∅.
Proof.
  apply (no_marks_no_duplicates (host := ExampleHost.canarias)).
  intros i row u _ Hu. apply list_elem_of_In in Hu. cbn in Hu.
  unfold Report.checked.
  destruct (decide (i = 0%nat)) as [->|Hi]; [|by rewrite lookup_singleton_ne].
  rewrite lookup_singleton_eq.
  destruct Hu as [<-|[<-|[<-|[<-|[<-|[]]]]]]; vm_compute; reflexivity.
Defined.

Lemma irrelevant_marks_ignored_witness :
  Report.duplicatedCandidatesByUnion (H := ExampleHost.canarias)
    example_rows example_checked example_unions
  = Report.duplicatedCandidatesByUnion (H := ExampleHost.canarias)
      example_rows
      (<[ 7%nat := {[ "CCOO"%string := true ]} ]>
         (AppHandlers.mark 0 "USO" true example_checked))
      example_unions.
Proof.
  apply (irrelevant_marks_ignored (host := ExampleHost.canarias)).
  intros i u Hi Hu. apply list_elem_of_In in Hu. cbn in Hu.
  destruct i as [|[|[|i]]]; [| | |cbn in Hi; lia];
    destruct Hu as [<-|[<-|[<-|[<-|[<-|[]]]]]]; vm_compute; reflexivity.
Defined.

Lemma other_unions_shape_witness :
  Report.otherUnions zoe_under_CCOO <> []
  /\ ("CCOO"%string ∉ Report.otherUnions zoe_under_CCOO)
  /\ NoDup (Report.otherUnions zoe_under_CCOO)
  /\ (forall V, V ∈ Report.otherUnions zoe_under_CCOO -> V ∈ example_unions)
  /\ StronglySorted (compare_le default_compare) (Report.otherUnions zoe_under_CCOO).
Proof.
  apply (other_unions_shape (host := ExampleHost.canarias)
           two_duplicates two_duplicates_checked example_unions "CCOO"
           two_duplicates_CCOO zoe_under_CCOO two_duplicates_under_CCOO).
  right. left.
Defined.

Lemma identities_listed_once_witness :
  NoDup (map Report.identifier two_duplicates_CCOO).
Proof.
  exact (identities_listed_once (host := ExampleHost.canarias)
           two_duplicates two_duplicates_checked example_unions "CCOO"
           two_duplicates_CCOO two_duplicates_under_CCOO).
Defined.

Lemma union_lists_sorted_witness :
  StronglySorted
    (fun a b => default_compare (Report.identifier a) (Report.identifier b) <= 0)
    two_duplicates_CCOO.
Proof.
  exact (union_lists_sorted (host := ExampleHost.canarias)
           two_duplicates two_duplicates_checked example_unions "CCOO"
           two_duplicates_CCOO default_compare_consistent two_duplicates_under_CCOO).
Defined.

Lemma ticked_twice_reported_witness :
  listed_with
    (Report.duplicatedCandidatesByUnion (H := ExampleHost.canarias)
       (AppHandlers.rows_to_save (App.withIndices example_rows))
       (AppHandlers.mark 1 "SB" true (AppHandlers.mark 0 "CCOO" true ∅))
       example_unions)
    "CCOO" "Juan Pérez" "SB".
Proof.
  apply (ticked_twice_reported (host := ExampleHost.canarias) example_rows
           "perez telde" "JUAN arucas"
           {| App.row := [("Nombre", VStr "Juan Pérez"); ("Centro", VStr "Telde")];
              App.originalIndex := 0 |}
           {| App.row := [("Nombre", VStr "Juan Pérez"); ("Centro", VStr "Arucas")];
              App.originalIndex := 1 |}
           "CCOO" "SB" ∅ example_unions).
  - vm_compute. left.
  - vm_compute. left.
  - reflexivity.
  - left.
  - right. right. left.
  - discriminate.
Defined.

Lemma untick_restores_report_witness :
  Report.duplicatedCandidatesByUnion (H := ExampleHost.canarias) example_rows
    (AppHandlers.mark 2 "CCOO" false (AppHandlers.mark 2 "CCOO" true example_checked))
    example_unions
  = Report.duplicatedCandidatesByUnion (H := ExampleHost.canarias)
      example_rows example_checked example_unions.
Proof.
  apply (untick_restores_report (host := ExampleHost.canarias)).
  - vm_compute. reflexivity.
  - left. by eexists.
Defined.

(** ** More on identifiers, names, export, settings and search *)

(** *** Rows as objects *)

Lemma get_Some_elem row k v : get row k = Some v -> (k, v) ∈ row.
Proof.
  induction row as [|[k0 v0] row IH]; cbn [get]; [done|].
  destruct (String.eqb_spec k0 k) as [->|Hne].
  - intros [= ->]. by left.
  - intros Hg. right. by apply IH.
Qed.

Lemma elem_get_Some row k v : NoDup (keys row) -> (k, v) ∈ row -> get row k = Some v.
Proof.
  unfold keys. induction row as [|[k0 v0] row IH]; cbn [get map fst].
  - by intros _ ?%elem_of_nil.
  - intros [Hnotin Hnd]%NoDup_cons [[= -> ->]|Hin]%elem_of_cons.
    + by rewrite String.eqb_refl.
    + destruct (String.eqb_spec k0 k) as [->|Hne]; [|by apply IH].
      destruct Hnotin. apply elem_of_map. by exists (k, v).
Qed.

(** What a row holds under a key does not depend on the order of its
    properties. *)
Lemma get_Permutation row1 row2 k :
  NoDup (keys row1) -> row1 ≡ₚ row2 -> get row1 k = get row2 k.
Proof.
  intros Hnd Hp.
  assert (Hnd2 : NoDup (keys row2)).
  { unfold keys in *. by rewrite <- Hp. }
  destruct (get row1 k) as [v|] eqn:H1.
  - symmetry. apply elem_get_Some; [done|]. rewrite <- Hp. by apply get_Some_elem.
  - destruct (get row2 k) as [v|] eqn:H2; [|done].
    apply get_Some_elem in H2. rewrite <- Hp in H2.
    apply elem_get_Some in H2; [congruence|done].
Qed.

Lemma elem_of_keys_set k v row k' :
  k' ∈ keys (set k v row) <-> k' ∈ keys row \/ k' = k.
Proof.
  unfold keys. induction row as [|[k0 v0] row IH]; cbn [set map fst].
  - rewrite list_elem_of_singleton, elem_of_nil. tauto.
  - destruct (String.eqb_spec k0 k) as [->|Hne]; cbn [map fst].
    + rewrite !elem_of_cons. tauto.
    + rewrite !elem_of_cons, IH. tauto.
Qed.

(** *** Splitting at a character *)

Lemma split_nonempty sep s : split sep s <> [].
Proof.
  destruct s as [|c s]; cbn [split]; [done|].
  destruct (Ascii.eqb c sep); [done|]. by destruct (split sep s).
Qed.

Lemma split_app sep a b :
  split sep (String.append a (String sep b)) = split sep a ++ split sep b.
Proof.
  induction a as [|c a IH].
  - rewrite append_nil. cbn [split]. by rewrite Ascii.eqb_refl.
  - rewrite append_cons. cbn [split]. destruct (Ascii.eqb c sep); [by rewrite IH|].
    rewrite IH. pose proof (split_nonempty sep a). by destruct (split sep a).
Qed.

Lemma split_free sep s : has_char sep s = false -> split sep s = [s].
Proof.
  induction s as [|c s IH]; [done|]. cbn [has_char split].
  intros [Hc Hs]%orb_false_iff. rewrite Hc. by rewrite (IH Hs).
Qed.

(** *** The export *)

Section ExportData.
Variables (visibleUnions : list string) (checkedState : gmap nat (gmap string bool)).

Let mark_text (index : nat) (union : string) : string :=
  if Report.checked checkedState index union then "VERDADERO" else "FALSO".

Lemma assign_text_keys k v row k' :
  k' ∈ keys (AppHandlers.assign_text k v row)
  <-> k' ∈ keys row \/ (k' = k /\ k <> "__proto__"%string).
Proof.
  unfold AppHandlers.assign_text.
  destruct (String.eqb_spec k "__proto__") as [->|Hk]; cbn [andb].
  - destruct (decide ("__proto__"%string ∈ keys row)) as [Hin|Hnin].
    + rewrite (bool_decide_eq_true_2 _ Hin). cbn [negb].
      rewrite elem_of_keys_set. split; [intros [?| ->]; by left|intros [?|[_ ?]]; [by left|done]].
    + rewrite (bool_decide_eq_false_2 _ Hnin). cbn [negb].
      split; [by left|intros [?|[_ ?]]; done].
  - rewrite elem_of_keys_set. split; intros [?|?]; try (by left); right; tauto.
Qed.

Lemma assign_text_get k v row k' :
  get (AppHandlers.assign_text k v row) k'
  = if bool_decide (k' = k /\ assignable k row) then Some (VStr v) else get row k'.
Proof.
  unfold AppHandlers.assign_text, assignable.
  destruct (String.eqb_spec k "__proto__") as [->|Hk]; cbn [andb].
  - destruct (decide ("__proto__"%string ∈ keys row)) as [Hin|Hnin].
    + rewrite (bool_decide_eq_true_2 _ Hin). cbn [negb].
      destruct (decide (k' = "__proto__"%string)) as [->|Hne].
      * rewrite get_set_eq. rewrite bool_decide_eq_true_2; [done|]. split; [done|by right].
      * rewrite get_set_ne by done. rewrite bool_decide_eq_false_2; [done|]. tauto.
    + rewrite (bool_decide_eq_false_2 _ Hnin). cbn [negb].
      rewrite bool_decide_eq_false_2; [done|]. tauto.
  - destruct (decide (k' = k)) as [->|Hne].
    + rewrite get_set_eq. rewrite bool_decide_eq_true_2; [done|]. split; [done|by left].
    + rewrite get_set_ne by done. rewrite bool_decide_eq_false_2; [done|]. tauto.
Qed.

Lemma assignable_assign k k' v row :
  assignable k (AppHandlers.assign_text k' v row) <-> assignable k row.
Proof.
  unfold assignable. rewrite assign_text_keys. split.
  - intros [?|[?|[-> ?]]]; [by left|by right|by left].
  - intros [?|?]; [by left|right; by left].
Qed.

Lemma export_fold_get index us row k :
  get (fold_left (fun newRow union =>
                    AppHandlers.assign_text union (mark_text index union) newRow)
         us row) k
  = if bool_decide (k ∈ us /\ assignable k row)
    then Some (VStr (mark_text index k)) else get row k.
Proof.
  revert row. induction us as [|u us IH]; intros row; cbn [fold_left].
  { rewrite bool_decide_eq_false_2; [done|]. intros [?%elem_of_nil _]. done. }
  rewrite IH, assign_text_get.
  pose proof (assignable_assign k u (mark_text index u) row) as Has.
  pose proof (elem_of_cons us k u) as Hc.
  destruct (decide (k ∈ us /\ assignable k (AppHandlers.assign_text u (mark_text index u) row)))
    as [[Hin Ha]|Hn1].
  - rewrite (bool_decide_eq_true_2 _ (conj Hin Ha)). apply Has in Ha.
    rewrite bool_decide_eq_true_2; [done|]. split; [apply Hc; by right|done].
  - rewrite (bool_decide_eq_false_2 _ Hn1).
    destruct (decide (k = u /\ assignable u row)) as [[-> Ha]|Hn2].
    + rewrite (bool_decide_eq_true_2 _ (conj eq_refl Ha)).
      rewrite bool_decide_eq_true_2; [done|]. split; [apply Hc; by left|done].
    + rewrite (bool_decide_eq_false_2 _ Hn2).
      rewrite bool_decide_eq_false_2; [done|].
      intros [[->|Hin]%Hc Ha].
      * by apply Hn2.
      * apply Hn1. split; [done|by apply Has].
Qed.

Lemma export_fold_keys index us row k :
  k ∈ keys (fold_left (fun newRow union =>
                         AppHandlers.assign_text union (mark_text index union) newRow)
              us row)
  <-> k ∈ keys row \/ (k ∈ us /\ k <> "__proto__"%string).
Proof.
  revert row. induction us as [|u us IH]; intros row; cbn [fold_left].
  - split; [by left|]. intros [?|[?%elem_of_nil _]]; done.
  - rewrite IH, assign_text_keys, elem_of_cons. split.
    + intros [[?|[-> ?]]|[? ?]]; [by left|right|right]; tauto.
    + intros [?|[[-> |?] ?]]; [left; by left|left; right|right]; tauto.
Qed.

(** X10. What an exported row holds: the row at each position of the data
    is exported at the same position; under every visible union it holds
    VERDADERO or FALSO as the box of its original index reads as checked or
    not (a column of the file with the name of a visible union is
    overwritten); under every other key it holds what the row holds; and its
    keys are those of the row and the visible unions. The one exception is a
    visible union of the name [__proto__] on a row without a column of that
    name: the assignment under that name is lost. *)
Theorem exported_rows (originalData : list App.Indexed) (i : nat) (d : App.Indexed) :
  originalData !! i = Some d ->
  exists r,
    AppHandlers.dataToExport originalData visibleUnions checkedState !! i = Some r
    /\ (forall u, u ∈ visibleUnions -> assignable u (App.row d) ->
          get r u
          = Some (VStr (if Report.checked checkedState (App.originalIndex d) u
                        then "VERDADERO" else "FALSO")))
    /\ (forall k, k ∉ visibleUnions \/ ~ assignable k (App.row d) ->
          get r k = get (App.row d) k)
    /\ (forall k, k ∈ keys r
                  <-> k ∈ keys (App.row d)
                      \/ (k ∈ visibleUnions /\ k <> "__proto__"%string)).
Proof.
  intros Hd. exists (AppHandlers.export_row visibleUnions checkedState d).
  split.
  { unfold AppHandlers.dataToExport.
    change (map ?f ?l) with (f <$> l). by rewrite list_lookup_fmap, Hd. }
  unfold AppHandlers.export_row. split; [|split].
  - intros u Hu Ha. rewrite (export_fold_get (App.originalIndex d)).
    by rewrite bool_decide_eq_true_2.
  - intros k Hk. rewrite (export_fold_get (App.originalIndex d)).
    rewrite bool_decide_eq_false_2; [done|]. tauto.
  - intros k. apply (export_fold_keys (App.originalIndex d)).
Qed.

End ExportData.

Section AppMore.
Context `{host : Host}.
Import Report.

(** X11. The identifier does not depend on the order of the columns when
    the row has a column for names: two rows with the same properties in
    different orders, one of them matching nombre, apellidos, name or
    candidato, resolve to the same identifier. (Without such a column the
    first matching key, or the first value, decides, and the order
    matters.) *)
Theorem identifier_ignores_column_order (row1 row2 : TableRow) :
  NoDup (keys row1) -> row1 ≡ₚ row2 -> has_column is_name_like row1 ->
  getCandidateIdentifier row1 = getCandidateIdentifier row2.
Proof.
  intros Hnd Hp Hname.
  assert (Hkeys : keys row1 ≡ₚ keys row2) by (unfold keys; by rewrite Hp).
  assert (Hcell : forall ks, map (cell row1) ks = map (cell row2) ks).
  { intros ks. apply List.map_ext. intros k. unfold cell, prop.
    by rewrite (get_Permutation row1 row2 k Hnd Hp). }
  assert (Hsort : forall p, sort (List.filter p (keys row1))
                            = sort (List.filter p (keys row2))).
  { intros p. by apply sort_Permutation, List_filter_Permutation. }
  rewrite !getCandidateIdentifier_eq.
  rewrite <- !Hsort, <- !Hcell.
  destruct (map (cell row1) (sort (List.filter is_surname (keys row1)))
            ++ map (cell row1) (sort (List.filter is_given_name (keys row1)))); [|done].
  pose proof (has_column_filter _ _ Hname) as Hne.
  by destruct (sort (List.filter is_name_like (keys row1))).
Qed.

(** X12. The identifier of the table and the one of the report agree on a
    row with one column for names: when [k] is the only key that matches
    nombre, apellidos, name or candidato, and it matches nombre or
    apellidos, both are the trimmed text of the cell under [k]. *)
Theorem table_identifier_agrees (row : TableRow) (k : string) :
  List.filter is_name_like (keys row) = [k] ->
  test_ci "nombre" k || test_ci "apellidos" k = true ->
  DataTable.getCandidateIdentifier row = trim (cell row k)
  /\ getCandidateIdentifier row = trim (cell row k).
Proof.
  intros Hk Hmatch.
  assert (Hsub : forall q : string -> bool,
            (forall x, q x = true -> is_name_like x = true) ->
            List.filter q (keys row) = List.filter q [k]).
  { intros q Hq. by rewrite (List_filter_filter q is_name_like _ Hq), Hk. }
  split.
  - unfold DataTable.getCandidateIdentifier. cbv zeta.
    rewrite (Hsub (fun k => test_ci "nombre" k || test_ci "apellidos" k
                            || test_ci "name" k)).
    2:{ intros x Hx. unfold is_name_like. by rewrite Hx. }
    cbn [List.filter]. rewrite Hmatch. cbn [orb map join].
    unfold cell. by destruct (prop row k).
  - rewrite getCandidateIdentifier_eq.
    rewrite (Hsub is_surname), (Hsub is_given_name).
    2:{ intros x [Hx _]%andb_true_iff. unfold is_name_like. by rewrite Hx. }
    2:{ intros x Hx. unfold is_name_like. unfold is_surname in Hx. rewrite Hx.
        by rewrite orb_true_r. }
    cbn [List.filter]. unfold is_surname, is_given_name.
    destruct (test_ci "apellidos" k) eqn:Ha; cbn [negb andb].
    + rewrite andb_false_r. reflexivity.
    + rewrite orb_false_r in Hmatch. rewrite Hmatch. reflexivity.
Qed.

(** X13. The format of a file is decided by what follows the last dot of
    its name, in lower case; a name without a dot is its own extension. *)
Theorem extension_after_last_dot (file : File) (base ext : string) :
  has_char "." ext = false ->
  name file = String.append base (String "." ext) \/ name file = ext ->
  extension file = toLowerCase ext.
Proof.
  intros Hext Hname. unfold extension. destruct Hname as [-> | ->].
  - by rewrite split_app, (split_free _ _ Hext), List.last_last.
  - by rewrite (split_free _ _ Hext).
Qed.

(** X14. The name of the exported file keeps what precedes the first dot
    of the name of the file that was loaded (the rest is dropped), and
    [parseFile] takes a file of that name for one of the exported format. *)
Theorem export_fileName_round_trip (fileName base rest format : string) :
  has_char "." base = false -> has_char "." format = false ->
  fileName = String.append base (String "." rest) \/ fileName = base ->
  AppHandlers.export_fileName fileName format
  = String.append "verificado_" (String.append base (String "." format))
  /\ forall file,
       name file = AppHandlers.export_fileName fileName format ->
       extension file = toLowerCase format.
Proof.
  intros Hbase Hformat HfileName.
  assert (Hname : AppHandlers.export_fileName fileName format
                  = String.append "verificado_"
                      (String.append base (String "." format))).
  { unfold AppHandlers.export_fileName. destruct HfileName as [-> | ->].
    - by rewrite split_app, (split_free _ _ Hbase).
    - by rewrite (split_free _ _ Hbase). }
  split; [done|]. intros file Hfile. rewrite Hname in Hfile.
  unfold extension. rewrite Hfile.
  assert (Hassoc : String.append "verificado_" (String.append base (String "." format))
                   = String.append (String.append "verificado_" base) (String "." format)).
  { by rewrite !append_cons, append_nil. }
  rewrite Hassoc, split_app, (split_free _ _ Hformat). by rewrite List.last_last.
Qed.

(** X15. The rows a search shows keep the order of the table and their
    original indices, and a query with more terms shows fewer: when every
    term of [searchTerm] is a term of [searchTerm'], the rows shown for
    [searchTerm'] are among the rows shown for [searchTerm], in the same
    order. The rows that are saved, the indexed table without its indices,
    are the rows that were parsed. *)
Theorem search_narrows (data : list TableRow) (searchTerm searchTerm' : string) :
  (forall term, term ∈ App.searchTerms_of searchTerm ->
                term ∈ App.searchTerms_of searchTerm') ->
  (App.search data searchTerm') `sublist_of` (App.search data searchTerm)
  /\ (App.search data searchTerm) `sublist_of` (App.withIndices data)
  /\ AppHandlers.rows_to_save (App.withIndices data) = data.
Proof.
  intros Hsub. split; [|split].
  - rewrite !search_filter.
    rewrite (List_filter_filter (matches (App.searchTerms_of searchTerm'))
               (matches (App.searchTerms_of searchTerm))).
    { apply List_filter_sublist. }
    intros d. unfold matches. rewrite !forallb_forall.
    intros Hall term Hterm%list_elem_of_In. apply Hall, list_elem_of_In. by apply Hsub.
  - rewrite search_filter. apply List_filter_sublist.
  - unfold AppHandlers.rows_to_save, App.withIndices. apply list_eq. intros i.
    change (map ?f ?l) with (f <$> l). rewrite list_lookup_fmap, list_lookup_imap.
    by destruct (data !! i).
Qed.

End AppMore.

(** X16. How the report prints an election date: the parts of a date
    written year-month-day are put as day/month/year; a text without a
    hyphen is printed behind [undefined/undefined/] (the fallback of the
    [catch] clause is never reached); the empty text is printed as
    [No especificada]. *)
Theorem formatDisplayDate_cases (year month day : string) :
  has_char "-" year = false -> has_char "-" month = false ->
  has_char "-" day = false ->
  ReportView.formatDisplayDate
    (String.append year (String "-" (String.append month (String "-" day))))
  = String.append day (String "/" (String.append month (String "/" year)))
  /\ (year <> EmptyString ->
      ReportView.formatDisplayDate year = String.append "undefined/undefined/" year)
  /\ ReportView.formatDisplayDate EmptyString = "No especificada"%string.
Proof.
  intros Hy Hm Hd. split; [|split; [|done]].
  - unfold ReportView.formatDisplayDate.
    rewrite !split_app, (split_free _ _ Hy), (split_free _ _ Hm), (split_free _ _ Hd).
    cbn [app ReportView.element nth].
    rewrite !append_cons, !append_nil.
    by destruct year.
  - intros Hs. unfold ReportView.formatDisplayDate.
    rewrite (split_free _ _ Hy). cbn [ReportView.element nth].
    destruct year; [done|]. reflexivity.
Qed.

(** X17. Toggling a union in the settings: the union toggled goes in when
    it was out and out when it was in, and the others stay; a selection
    without repetition stays so; toggling twice gives the same selection
    when the union was out, and moves the union to the last place when it
    was in. *)
Theorem union_toggle (union : string) (prev : list string) :
  NoDup prev ->
  (forall u, u ∈ DateModal.handleUnionToggle union prev
             <-> if decide (u = union) then union ∉ prev else u ∈ prev)
  /\ NoDup (DateModal.handleUnionToggle union prev)
  /\ DateModal.handleUnionToggle union (DateModal.handleUnionToggle union prev)
     = if bool_decide (union ∈ prev)
       then List.filter (fun u => negb (String.eqb u union)) prev ++ [union]
       else prev.
Proof.
  intros Hnd. unfold DateModal.handleUnionToggle. split; [|split].
  - intros u. destruct (decide (union ∈ prev)) as [Hin|Hnin].
    + rewrite bool_decide_eq_true_2 by done. rewrite elem_of_otherUnions.
      destruct (decide (u = union)); tauto.
    + rewrite bool_decide_eq_false_2 by done.
      rewrite elem_of_app, list_elem_of_singleton.
      destruct (decide (u = union)) as [->|]; tauto.
  - destruct (decide (union ∈ prev)) as [Hin|Hnin].
    + rewrite bool_decide_eq_true_2 by done. by apply NoDup_List_filter.
    + rewrite bool_decide_eq_false_2 by done. apply NoDup_app. split; [done|].
      split; [|apply NoDup_singleton]. intros x Hx ->%list_elem_of_singleton. done.
  - destruct (decide (union ∈ prev)) as [Hin|Hnin].
    + rewrite (bool_decide_eq_true_2 _ Hin).
      rewrite bool_decide_eq_false_2; [done|].
      rewrite elem_of_otherUnions. tauto.
    + rewrite (bool_decide_eq_false_2 _ Hnin).
      rewrite bool_decide_eq_true_2 by (apply elem_of_app; right; by left).
      rewrite List.filter_app. cbn [List.filter]. rewrite String.eqb_refl. cbn [negb].
      rewrite app_nil_r. apply forallb_filter_id. apply forallb_forall.
      intros x Hx%list_elem_of_In. apply negb_true_iff, String.eqb_neq. congruence.
Qed.

Lemma exported_rows_witness :
  exists r,
    AppHandlers.dataToExport (App.withIndices example_rows) ["UGT"; "Centro"]%string
      example_checked !! 1%nat = Some r
    /\ (forall u, u ∈ ["UGT"; "Centro"]%string ->
          assignable u [("Nombre", VStr "Juan Pérez"); ("Centro", VStr "Arucas")] ->
          get r u = Some (VStr (if Report.checked example_checked 1 u
                                then "VERDADERO" else "FALSO")))
    /\ (forall k, k ∉ ["UGT"; "Centro"]%string
                  \/ ~ assignable k [("Nombre", VStr "Juan Pérez");
                                     ("Centro", VStr "Arucas")] ->
          get r k = get [("Nombre", VStr "Juan Pérez"); ("Centro", VStr "Arucas")] k)
    /\ (forall k, k ∈ keys r
                  <-> k ∈ keys [("Nombre", VStr "Juan Pérez"); ("Centro", VStr "Arucas")]
                      \/ (k ∈ ["UGT"; "Centro"]%string /\ k <> "__proto__"%string)).
Proof.
  exact (exported_rows ["UGT"; "Centro"]%string example_checked
           (App.withIndices example_rows) 1
           {| App.row := [("Nombre", VStr "Juan Pérez"); ("Centro", VStr "Arucas")];
              App.originalIndex := 1 |} eq_refl).
Defined.

Lemma identifier_ignores_column_order_witness :
  Report.getCandidateIdentifier (H := ExampleHost.canarias)
    [("Nombre", VStr "Juan"); ("Centro", VStr "Telde"); ("Apellidos", VStr "Pérez")]
  = Report.getCandidateIdentifier (H := ExampleHost.canarias)
      [("Centro", VStr "Telde"); ("Nombre", VStr "Juan"); ("Apellidos", VStr "Pérez")].
Proof.
  apply (identifier_ignores_column_order (host := ExampleHost.canarias)).
  - apply (bool_decide_unpack _). vm_compute. reflexivity.
  - apply perm_swap.
  - exists "Nombre"%string. split; [left|reflexivity].
Defined.

Lemma table_identifier_agrees_witness :
  DataTable.getCandidateIdentifier (H := ExampleHost.canarias)
    [("Centro", VStr "Telde"); ("Nombre y apellidos", VStr " Juan Pérez ")]
  = trim (Report.cell (H := ExampleHost.canarias)
            [("Centro", VStr "Telde"); ("Nombre y apellidos", VStr " Juan Pérez ")]
            "Nombre y apellidos")
  /\ Report.getCandidateIdentifier (H := ExampleHost.canarias)
       [("Centro", VStr "Telde"); ("Nombre y apellidos", VStr " Juan Pérez ")]
     = trim (Report.cell (H := ExampleHost.canarias)
               [("Centro", VStr "Telde"); ("Nombre y apellidos", VStr " Juan Pérez ")]
               "Nombre y apellidos").
Proof.
  apply (table_identifier_agrees (host := ExampleHost.canarias)); reflexivity.
Defined.

Lemma extension_after_last_dot_witness :
  extension (H := ExampleHost.canarias) example_file = "csv"%string.
Proof.
  apply (extension_after_last_dot (host := ExampleHost.canarias) example_file
           "Censo.2024" "CSV").
  - reflexivity.
  - left. reflexivity.
Defined.

Lemma export_fileName_round_trip_witness :
  AppHandlers.export_fileName "Censo.2024.CSV" "xlsx" = "verificado_Censo.xlsx"%string
  /\ forall file,
       name file = AppHandlers.export_fileName "Censo.2024.CSV" "xlsx" ->
       extension (H := ExampleHost.canarias) file = "xlsx"%string.
Proof.
  apply (export_fileName_round_trip (host := ExampleHost.canarias)
           "Censo.2024.CSV" "Censo" "2024.CSV" "xlsx").
  - reflexivity.
  - reflexivity.
  - left. reflexivity.
Defined.

Lemma search_narrows_witness :
  (App.search (H := ExampleHost.canarias) example_rows "juan telde")
    `sublist_of` (App.search (H := ExampleHost.canarias) example_rows "Juan")
  /\ (App.search (H := ExampleHost.canarias) example_rows "Juan")
       `sublist_of` (App.withIndices example_rows)
  /\ AppHandlers.rows_to_save (App.withIndices example_rows) = example_rows.
Proof.
  apply (search_narrows (host := ExampleHost.canarias)).
  intros term Hterm. vm_compute in Hterm. vm_compute.
  apply list_elem_of_singleton in Hterm as ->. left.
Defined.

Lemma formatDisplayDate_cases_witness :
  ReportView.formatDisplayDate "2025-03-09" = "09/03/2025"%string
  /\ ("2025"%string <> EmptyString ->
      ReportView.formatDisplayDate "2025" = "undefined/undefined/2025"%string)
  /\ ReportView.formatDisplayDate EmptyString = "No especificada"%string.
Proof.
  apply (formatDisplayDate_cases "2025" "03" "09"); reflexivity.
Defined.

Lemma union_toggle_witness :
  (forall u, u ∈ DateModal.handleUnionToggle "UGT" example_unions
             <-> if decide (u = "UGT"%string) then "UGT"%string ∉ example_unions
                 else u ∈ example_unions)
  /\ NoDup (DateModal.handleUnionToggle "UGT" example_unions)
  /\ DateModal.handleUnionToggle "UGT" (DateModal.handleUnionToggle "UGT" example_unions)
     = ["CCOO"; "SB"; "SITCA"; "OTRO"; "UGT"]%string.
Proof.
  apply (union_toggle "UGT" example_unions).
  apply (bool_decide_unpack _). vm_compute. reflexivity.
Defined.

(** ** More on the parser and on the table *)

Lemma keys_set_present k v row : is_Some (get row k) -> keys (set k v row) = keys row.
Proof.
  unfold keys. induction row as [|[k0 v0] row IH]; cbn [get set map fst].
  - by intros [? ?].
  - destruct (String.eqb_spec k0 k) as [->|Hne]; cbn [map fst]; [done|].
    intros Hs. by rewrite IH.
Qed.

Section ParserMore.
Context `{host : Host}.

Lemma keys_normalize_header row h : keys (normalize_header row h) = keys row.
Proof.
  unfold normalize_header, prop. cbv zeta.
  destruct (get row h) as [v|] eqn:Hv.
  - destruct (accepted (date_of_cell v)); [|done].
    destruct (date_of_cell v); [|done]. apply keys_set_present. by rewrite Hv.
  - done.
Qed.

Lemma keys_fold_normalize hs row : keys (fold_left normalize_header hs row) = keys row.
Proof.
  revert row. induction hs as [|h hs IH]; intros row; cbn [fold_left]; [done|].
  by rewrite IH, keys_normalize_header.
Qed.

Lemma fold_normalize_other hs row k :
  k ∉ hs -> get (fold_left normalize_header hs row) k = get row k.
Proof.
  revert row. induction hs as [|h hs IH]; intros row Hk; cbn [fold_left]; [done|].
  rewrite IH by (intros ?; apply Hk; by right).
  rewrite normalize_header_get, decide_False; [done|].
  intros ->. apply Hk. by left.
Qed.

Lemma processDataForDates_lookup data headers i :
  processDataForDates data headers !! i
  = fold_left normalize_header (List.filter is_date_header headers) <$> data !! i.
Proof.
  unfold processDataForDates. cbv zeta.
  destruct (List.filter is_date_header headers) as [|h hs] eqn:Hf.
  - cbn [fold_left]. by destruct (data !! i).
  - change (map ?f ?l) with (f <$> l). by rewrite list_lookup_fmap.
Qed.

Lemma processDataForDates_keys data headers :
  map keys (processDataForDates data headers) = map keys data.
Proof.
  unfold processDataForDates. cbv zeta.
  destruct (List.filter is_date_header headers) as [|h hs] eqn:Hf; [done|].
  rewrite List.map_map. apply List.map_ext. intros row. apply keys_fold_normalize.
Qed.

(** A cell after the loop over the date headers holds what it held, or a
    date of the calendar. *)
Lemma fold_normalize_cases hs row k v' :
  get (fold_left normalize_header hs row) k = Some v' ->
  get row k = Some v' \/ exists s, v' = VStr s /\ calendar_string s.
Proof.
  revert row. induction hs as [|h hs IH]; intros row; cbn [fold_left]; [by left|].
  intros [Hget|Hdate]%IH; [|by right].
  rewrite normalize_header_get in Hget.
  destruct (decide (h = k)) as [->|Hne]; [|by left].
  destruct (get row k) as [v|] eqn:Hv; [|done]. cbn in Hget.
  injection Hget as Hn.
  destruct v' as [| | | |s| |];
    try (left; f_equal; revert Hn; unfold normalize_value;
         destruct (date_of_cell v) as [dt|]; [destruct (accepted (Some dt))|];
         congruence).
  apply normalize_value_changed in Hn as [->|(t & Hs & Hy)]; [by left|].
  right. exists s. split; [done|]. rewrite Hs.
  exists (DateFromDay (Day (LocalTime t))), (MonthFromDay (Day (LocalTime t)) + 1),
    (YearFromDay (Day (LocalTime t))).
  split; [done|]. split; [apply civil_string_is_calendar|done].
Qed.

Lemma processAndResolve_table rows :
  NoDup (headers (processAndResolve rows))
  /\ map keys (data (processAndResolve rows)) = map keys rows
  /\ forall k, k ∈ headers (processAndResolve rows)
               <-> exists row, row ∈ data (processAndResolve rows) /\ k ∈ keys row.
Proof.
  assert (Hkeys : map keys (data (processAndResolve rows)) = map keys rows).
  { destruct rows as [|row rows]; [done|]. cbn [processAndResolve data].
    apply processDataForDates_keys. }
  assert (Hhs : headers (processAndResolve rows) = first_seen (flat_map keys rows)).
  { destruct rows as [|row rows]; [done|].
    cbn [processAndResolve headers]. apply Set_from_first_seen. }
  split; [rewrite Hhs; apply NoDup_first_seen|]. split; [done|].
  intros k. rewrite Hhs, elem_of_first_seen.
  assert (forall l : list TableRow, (exists row, row ∈ l /\ k ∈ keys row)
          <-> exists ks, ks ∈ map keys l /\ k ∈ ks) as Hex.
  { intros l. split.
    - intros (row & Hr & Hk). exists (keys row). split; [|done].
      apply elem_of_map. by exists row.
    - intros (ks & (row & -> & Hr)%elem_of_map & Hk). by exists row. }
  rewrite Hex, Hkeys, <- Hex.
  rewrite list_elem_of_In, in_flat_map. by setoid_rewrite list_elem_of_In.
Qed.

(** Whatever [parseFile] resolves with comes out of [processAndResolve]. *)
Lemma parseFile_resolved file r :
  parseFile file = Resolve r -> exists rows, r = processAndResolve rows.
Proof.
  unfold parseFile, processAndResolve_json, settle. cbv zeta.
  repeat (match goal with
          | |- Resolve _ = Resolve _ -> _ =>
              intros [= <-]; first [by eexists | by exists []]
          | |- Reject _ = Resolve _ -> _ => discriminate
          | |- context [match ?x with _ => _ end] =>
              lazymatch x with
              | context [match _ with _ => _ end] => fail
              | _ => destruct x eqn:?
              end
          end).
Qed.

(** X18. Date normalisation keeps the shape of the table: as many rows,
    each with the same keys in the same order, and the cells under a header
    that does not indicate dates, or under a key that is no header, are
    untouched. *)
Theorem processDataForDates_shape (data : list TableRow) (headers : list string)
    (i : nat) (row : TableRow) :
  data !! i = Some row ->
  length (processDataForDates data headers) = length data
  /\ exists row', processDataForDates data headers !! i = Some row'
       /\ keys row' = keys row
       /\ forall k, is_date_header k = false \/ k ∉ headers -> get row' k = get row k.
Proof.
  intros Hrow. split.
  { rewrite <- (length_map keys), processDataForDates_keys. apply length_map. }
  eexists. split; [by rewrite processDataForDates_lookup, Hrow|].
  split; [apply keys_fold_normalize|].
  intros k Hk. apply fold_normalize_other. rewrite elem_of_List_filter.
  intros [Hin Hdate]. destruct Hk as [Hk|Hk]; [congruence|done].
Qed.

(** X19. A cell that date normalisation changes becomes a date: when a
    cell of the result differs from the cell of the data, it holds a string
    [DD-MM-YYYY] of a day that exists in the calendar, of a year after
    1000. *)
Theorem changed_cells_are_dates (data : list TableRow) (headers : list string)
    (i : nat) (row row' : TableRow) (k : string) (v' : Value) :
  data !! i = Some row ->
  processDataForDates data headers !! i = Some row' ->
  get row' k = Some v' -> get row k <> Some v' ->
  exists s, v' = VStr s /\ calendar_string s.
Proof.
  intros Hrow Hrow' Hget Hne.
  rewrite processDataForDates_lookup, Hrow in Hrow'. injection Hrow' as <-.
  by apply fold_normalize_cases in Hget as [?|?].
Qed.

(** X20. What [parseFile] resolves with is a table: no header occurs
    twice, the headers are exactly the keys of the rows of the result, and
    a result without rows has no headers. *)
Theorem parseFile_resolved_table (file : File) (r : ParseResult) :
  parseFile file = Resolve r ->
  NoDup (headers r)
  /\ (forall k, k ∈ headers r <-> exists row, row ∈ data r /\ k ∈ keys row)
  /\ (data r = [] -> headers r = []).
Proof.
  intros [rows ->]%parseFile_resolved.
  destruct (processAndResolve_table rows) as (Hnd & Hkeys & Hk).
  split; [done|]. split; [done|]. intros Hnil. rewrite Hnil in Hkeys.
  symmetry in Hkeys. apply map_eq_nil in Hkeys. by subst.
Qed.

End ParserMore.

(** *** The window of rows the table renders *)

Lemma Qfloor_lt_Z (x : Q) (n : Z) : (x < inject_Z n)%Q -> Qfloor x < n.
Proof.
  intros Hx. rewrite Zlt_Qlt. eapply Qle_lt_trans; [apply Qfloor_le|done].
Qed.

Lemma Z_lt_Qceiling (x : Q) (n : Z) : (inject_Z n < x)%Q -> n < Qceiling x.
Proof.
  intros Hx. rewrite Zlt_Qlt. eapply Qlt_le_trans; [done|apply Qle_ceiling].
Qed.

Lemma Qceiling_nonneg (x : Q) : (0 <= x)%Q -> 0 <= Qceiling x.
Proof. intros Hx. change 0 with (Qceiling 0). by apply Qceiling_resp_le. Qed.

Ltac push_inject_Z :=
  repeat (rewrite inject_Z_plus in * || rewrite inject_Z_mult in * );
  change (inject_Z 57) with 57%Q in *; change (inject_Z 1) with 1%Q in *.

(** X21. The rows around the viewport are rendered. After a scroll event
    the range starts at 0 or later and ends at the number of rows or
    earlier; it holds every row a part of which lies less than five row
    heights above or below the viewport (the rows being 57 pixels high from
    the top of the scrolled content); and with the scroll position inside
    the content it is a range, its start not after its end. *)
Theorem onScroll_window (scrollTop : Q) (clientHeight length : Z) :
  0 <= length ->
  let '(newStart, newEnd) := DataTable.onScroll scrollTop clientHeight length in
  0 <= newStart /\ newEnd <= length
  /\ (forall k, 0 <= k < length ->
        (scrollTop - 5 * 57 < inject_Z ((k + 1) * 57))%Q ->
        (inject_Z (k * 57) < scrollTop + inject_Z clientHeight + 5 * 57)%Q ->
        newStart <= k < newEnd)
  /\ ((0 <= scrollTop <= inject_Z (length * 57))%Q -> 0 <= clientHeight ->
      newStart <= newEnd).
Proof.
  intros Hlen. unfold DataTable.onScroll. cbv zeta.
  change (inject_Z DataTable.ROW_HEIGHT) with 57%Q.
  change DataTable.OVERSCAN_COUNT with 5.
  split; [lia|]. split; [lia|]. split.
  - intros k Hk Htop Hbottom.
    assert (Qfloor (scrollTop / 57) < k + 6).
    { apply Qfloor_lt_Z. push_inject_Z. change (inject_Z 6) with 6%Q.
      apply Qlt_shift_div_r; [done|]. lra. }
    assert (k - 5 < Qceiling ((scrollTop + inject_Z clientHeight) / 57)).
    { apply Z_lt_Qceiling. replace (k - 5) with (k + (-5)) by lia.
      push_inject_Z. change (inject_Z (-5)) with (-5 # 1)%Q.
      apply Qlt_shift_div_l; [done|]. lra. }
    lia.
  - intros [Hs0 Hs1] Hh.
    assert (0 <= inject_Z clientHeight)%Q by (by rewrite <- (Zle_Qle 0)).
    assert (Qfloor (scrollTop / 57) < length + 1).
    { apply Qfloor_lt_Z. push_inject_Z.
      apply Qlt_shift_div_r; [done|]. lra. }
    assert (0 <= Qceiling ((scrollTop + inject_Z clientHeight) / 57)).
    { apply Qceiling_nonneg. apply Qle_shift_div_l; [done|]. lra. }
    assert (Qfloor (scrollTop / 57)
            < Qceiling ((scrollTop + inject_Z clientHeight) / 57) + 1).
    { apply Qfloor_lt_Z. rewrite inject_Z_plus. change (inject_Z 1) with 1%Q.
      pose proof (Qle_ceiling ((scrollTop + inject_Z clientHeight) / 57)).
      assert (scrollTop / 57 <= (scrollTop + inject_Z clientHeight) / 57)%Q.
      { unfold Qdiv. apply Qmult_le_compat_r; [lra|done]. }
      lra. }
    lia.
Qed.

(** X22. The first range covers the viewport. The range the layout effect
    sets starts at 0, ends at the number of rows or earlier, and holds every
    row that begins less than ten row heights below the container. *)
Theorem initialRange_window (clientHeight length : Z) :
  0 <= length -> 0 <= clientHeight ->
  let '(start, final) := DataTable.initialRange clientHeight length in
  start = 0 /\ 0 <= final <= length
  /\ forall k, 0 <= k < length -> k * 57 < clientHeight + 10 * 57 -> k < final.
Proof.
  intros Hlen Hh. unfold DataTable.initialRange. cbv zeta.
  change (inject_Z DataTable.ROW_HEIGHT) with 57%Q.
  change DataTable.OVERSCAN_COUNT with 5.
  assert (0 <= inject_Z clientHeight)%Q by (by rewrite <- (Zle_Qle 0)).
  assert (0 <= Qceiling (inject_Z clientHeight / 57)).
  { apply Qceiling_nonneg. apply Qle_shift_div_l; [done|]. lra. }
  split; [done|]. split; [lia|].
  intros k Hk Hrow.
  assert (k - 10 < Qceiling (inject_Z clientHeight / 57)); [|lia].
  apply Z_lt_Qceiling. apply Qlt_shift_div_l; [done|].
  change 57%Q with (inject_Z 57). rewrite <- inject_Z_mult, <- Zlt_Qlt. lia.
Qed.

(** X23. The layout of the table adds up: for a range inside the data, the
    padding above, the rows rendered and the padding below are as high as
    all the rows together, and the rows rendered are those of the range, in
    order. *)
Theorem layout_conserves_height {A : Type} (data : list A) (start final : Z) :
  0 <= start <= final -> final <= Z.of_nat (length data) ->
  let '(topPadding, bottomPadding, itemsToRender) :=
    DataTable.layout data (start, final) in
  topPadding + Z.of_nat (length itemsToRender) * DataTable.ROW_HEIGHT + bottomPadding
  = Z.of_nat (length data) * DataTable.ROW_HEIGHT
  /\ Z.of_nat (length itemsToRender) = final - start
  /\ forall j, (j < length itemsToRender)%nat ->
       itemsToRender !! j = data !! (Z.to_nat start + j)%nat.
Proof.
  intros Hs Hf. unfold DataTable.layout, DataTable.slice. cbv zeta.
  change DataTable.ROW_HEIGHT with 57.
  destruct (Z.ltb_spec start 0) as [|_]; [lia|].
  destruct (Z.ltb_spec final 0) as [|_]; [lia|].
  rewrite (Z.min_l start) by lia. rewrite (Z.min_l final) by lia.
  assert (Hlen : Z.of_nat (length (take (Z.to_nat (final - start))
                                     (drop (Z.to_nat start) data)))
                 = final - start).
  { rewrite length_take, length_drop. lia. }
  split; [lia|]. split; [done|].
  intros j Hj. rewrite lookup_take_lt by lia. apply lookup_drop.
Qed.

Lemma processDataForDates_shape_witness :
  length (processDataForDates (H := ExampleHost.canarias)
            [[("Nombre", VStr "Ana Suárez"); ("Fecha alta", VStr "1/2/2020")]]
            ["Nombre"; "Fecha alta"]%string)
  = 1%nat
  /\ exists row',
       processDataForDates (H := ExampleHost.canarias)
         [[("Nombre", VStr "Ana Suárez"); ("Fecha alta", VStr "1/2/2020")]]
         ["Nombre"; "Fecha alta"]%string !! 0%nat = Some row'
       /\ keys row' = ["Nombre"; "Fecha alta"]%string
       /\ forall k,
            is_date_header (H := ExampleHost.canarias) k = false
            \/ k ∉ ["Nombre"; "Fecha alta"]%string ->
            get row' k
            = get [("Nombre", VStr "Ana Suárez"); ("Fecha alta", VStr "1/2/2020")] k.
Proof.
  exact (processDataForDates_shape (host := ExampleHost.canarias)
           [[("Nombre", VStr "Ana Suárez"); ("Fecha alta", VStr "1/2/2020")]]
           ["Nombre"; "Fecha alta"]%string 0
           [("Nombre", VStr "Ana Suárez"); ("Fecha alta", VStr "1/2/2020")] eq_refl).
Defined.

Lemma changed_cells_are_dates_witness :
  exists s, VStr "01-02-2020" = VStr s /\ calendar_string s.
Proof.
  apply (changed_cells_are_dates (host := ExampleHost.canarias)
           [[("Nombre", VStr "Ana Suárez"); ("Fecha alta", VStr "1/2/2020")]]
           ["Nombre"; "Fecha alta"]%string 0
           [("Nombre", VStr "Ana Suárez"); ("Fecha alta", VStr "1/2/2020")]
           [("Nombre", VStr "Ana Suárez"); ("Fecha alta", VStr "01-02-2020")]
           "Fecha alta").
  - reflexivity.
  - vm_compute. reflexivity.
  - reflexivity.
  - discriminate.
Defined.

Lemma parseFile_resolved_table_witness :
  NoDup ["Nombre"; "Fecha alta"]%string
  /\ (forall k, k ∈ ["Nombre"; "Fecha alta"]%string
                <-> exists row,
                      row ∈ [[("Nombre", VStr "Ana Suárez");
                               ("Fecha alta", VStr "01-02-2020")]]
                      /\ k ∈ keys row)
  /\ ([[("Nombre", VStr "Ana Suárez"); ("Fecha alta", VStr "01-02-2020")]] = [] ->
      ["Nombre"; "Fecha alta"]%string = []).
Proof.
  apply (parseFile_resolved_table (host := ExampleHost.canarias) example_file
           {| headers := ["Nombre"; "Fecha alta"]%string;
              data := [[("Nombre", VStr "Ana Suárez");
                        ("Fecha alta", VStr "01-02-2020")]] |}).
  vm_compute. reflexivity.
Defined.

Lemma onScroll_window_witness :
  let '(newStart, newEnd) := DataTable.onScroll 1000 600 100 in
  0 <= newStart /\ newEnd <= 100
  /\ (forall k, 0 <= k < 100 ->
        (1000 - 5 * 57 < inject_Z ((k + 1) * 57))%Q ->
        (inject_Z (k * 57) < 1000 + inject_Z 600 + 5 * 57)%Q ->
        newStart <= k < newEnd)
  /\ ((0 <= 1000 <= inject_Z (100 * 57))%Q -> 0 <= 600 -> newStart <= newEnd).
Proof.
  apply (onScroll_window 1000 600 100). lia.
Defined.

Lemma initialRange_window_witness :
  let '(start, final) := DataTable.initialRange 600 100 in
  start = 0 /\ 0 <= final <= 100
  /\ forall k, 0 <= k < 100 -> k * 57 < 600 + 10 * 57 -> k < final.
Proof.
  apply (initialRange_window 600 100); lia.
Defined.

Lemma layout_conserves_height_witness :
  let '(topPadding, bottomPadding, itemsToRender) :=
    DataTable.layout example_rows (1, 3) in
  topPadding + Z.of_nat (length itemsToRender) * DataTable.ROW_HEIGHT + bottomPadding
  = Z.of_nat (length example_rows) * DataTable.ROW_HEIGHT
  /\ Z.of_nat (length itemsToRender) = 3 - 1
  /\ forall j, (j < length itemsToRender)%nat ->
       itemsToRender !! j = example_rows !! (Z.to_nat 1 + j)%nat.
Proof.
  apply (layout_conserves_height example_rows 1 3); cbn; lia.
Defined.

(** ** The duplicates dialog and the report *)

Lemma List_filter_map {A B} (f : A -> B) (p : B -> bool) l :
  List.filter p (map f l) = map f (List.filter (fun x => p (f x)) l).
Proof.
  induction l as [|x l IH]; [done|]. cbn [map List.filter].
  destruct (p (f x)); cbn [map]; by rewrite IH.
Qed.

Lemma insert_sorted_map {A B} (f : A -> B) (compare : A -> A -> Z)
    (compare' : B -> B -> Z) x l :
  (forall a b, compare' (f a) (f b) = compare a b) ->
  insert_sorted compare' (f x) (map f l) = map f (insert_sorted compare x l).
Proof.
  intros Hc. induction l as [|y l IH]; [done|]. cbn [map insert_sorted].
  rewrite Hc. destruct (0 <? compare x y); [|done]. cbn [map]. by rewrite IH.
Qed.

Lemma sort_by_map {A B} (f : A -> B) (compare : A -> A -> Z)
    (compare' : B -> B -> Z) l :
  (forall a b, compare' (f a) (f b) = compare a b) ->
  sort_by compare' (map f l) = map f (sort_by compare l).
Proof.
  intros Hc. induction l as [|x l IH]; [done|].
  unfold sort_by in *. cbn [map fold_right]. rewrite IH.
  by apply insert_sorted_map.
Qed.

Lemma rows_add_union m id u :
  map (fun e => Report.cand_row e.2) (Report.add_union m id u)
  = map (fun e => Report.cand_row e.2) m.
Proof.
  induction m as [|[k c] m IH]; [done|]. cbn [Report.add_union].
  destruct (String.eqb k id); [done|]. cbn [map]. by rewrite IH.
Qed.

Lemma rows_fold_add_union m id us :
  map (fun e => Report.cand_row e.2)
    (fold_left (fun m union => Report.add_union m id union) us m)
  = map (fun e => Report.cand_row e.2) m.
Proof.
  revert m. induction us as [|u us IH]; intros m; cbn [fold_left]; [done|].
  by rewrite IH, rows_add_union.
Qed.

Section DialogMore.
Context `{host : Host}.

(** The rows [candidatesMap] keeps are rows of the data. *)
Lemma candidatesMap_rows data checkedState allUnions r :
  r ∈ map (fun e => Report.cand_row e.2)
        (Report.candidatesMap_of data checkedState allUnions) ->
  r ∈ data.
Proof.
  induction data as [|row data IH] using rev_ind.
  { by intros ?%elem_of_nil. }
  rewrite candidatesMap_of_snoc. unfold Report.visit_row.
  rewrite elem_of_app.
  destruct (List.filter (Report.checked checkedState (length data)) allUnions)
    as [|u us]; [by left; apply IH|].
  rewrite rows_fold_add_union.
  destruct (Report.Map_has _ _); [by left; apply IH|].
  rewrite List.map_app, elem_of_app. cbn [map snd].
  intros [Hin|Hin]; [by left; apply IH|by right].
Qed.

Lemma dialog_candidatesMap_of_snoc data checkedState unions row :
  DuplicatesModal.candidatesMap_of (data ++ [row]) checkedState unions
  = DuplicatesModal.visit_row checkedState unions
      (DuplicatesModal.candidatesMap_of data checkedState unions) (length data, row).
Proof.
  unfold DuplicatesModal.candidatesMap_of.
  rewrite imap_app, fold_left_app. cbn [imap fold_left].
  by rewrite Nat.add_0_r.
Qed.

Lemma dialog_candidatesMap_of data checkedState unions :
  (forall row, row ∈ data ->
     DataTable.getCandidateIdentifier row = Report.getCandidateIdentifier row) ->
  DuplicatesModal.candidatesMap_of data checkedState unions
  = Report.candidatesMap_of data checkedState unions.
Proof.
  induction data as [|row data IH] using rev_ind; [done|].
  intros Hagree. rewrite dialog_candidatesMap_of_snoc, candidatesMap_of_snoc.
  rewrite IH by (intros r Hr; apply Hagree, elem_of_app; by left).
  unfold DuplicatesModal.visit_row, Report.visit_row.
  rewrite (Hagree row) by (apply elem_of_app; right; by left). done.
Qed.

Lemma dialog_actualDuplicates_of data checkedState unions :
  (forall row, row ∈ data ->
     DataTable.getCandidateIdentifier row = Report.getCandidateIdentifier row) ->
  DuplicatesModal.actualDuplicates_of (Report.candidatesMap_of data checkedState unions)
  = map (fun dup => {| DuplicatesModal.dup_identifier := Report.dup_identifier dup;
                       DuplicatesModal.dup_unions := Report.dup_unions dup |})
      (Report.actualDuplicates_of (Report.candidatesMap_of data checkedState unions)).
Proof.
  intros Hagree. unfold DuplicatesModal.actualDuplicates_of, Report.actualDuplicates_of.
  rewrite List.map_map. cbn. apply List.map_ext_in.
  intros c [Hc _]%filter_In. apply list_elem_of_In in Hc.
  rewrite Hagree; [done|]. apply candidatesMap_rows with checkedState unions.
  apply elem_of_map in Hc as ([k c'] & -> & He). apply elem_of_map. by exists (k, c').
Qed.

Lemma dialog_candidatesInUnion dups U :
  DuplicatesModal.candidatesInUnion
    (map (fun dup => {| DuplicatesModal.dup_identifier := Report.dup_identifier dup;
                        DuplicatesModal.dup_unions := Report.dup_unions dup |}) dups) U
  = map without_row (Report.candidatesInUnion dups U).
Proof.
  unfold DuplicatesModal.candidatesInUnion, Report.candidatesInUnion.
  rewrite List_filter_map, !List.map_map. done.
Qed.

Lemma dialog_group_fold dups us g :
  fold_left
    (DuplicatesModal.group_union
       (map (fun dup => {| DuplicatesModal.dup_identifier := Report.dup_identifier dup;
                           DuplicatesModal.dup_unions := Report.dup_unions dup |}) dups))
    us (map without_row <$> g)
  = map without_row <$> fold_left (Report.group_union dups) us g.
Proof.
  revert g. induction us as [|u us IH]; intros g; cbn [fold_left]; [done|].
  rewrite <- IH. f_equal.
  unfold DuplicatesModal.group_union, Report.group_union.
  rewrite dialog_candidatesInUnion.
  destruct (Report.candidatesInUnion dups u) as [|e l]; [done|].
  rewrite fmap_insert. f_equal.
  exact (sort_by_map without_row
           (fun a b => localeCompare (Report.identifier a) (Report.identifier b))
           (fun a b => localeCompare (DuplicatesModal.identifier a)
                         (DuplicatesModal.identifier b))
           (e :: l) (fun a b => eq_refl)).
Qed.

(** X24. The duplicates dialog and the report agree where the two
    identifier functions do: when the identifier of the table and the one of
    the report are the same on every row of the data, the dialog lists, for
    the same unions, the entries of the report without their rows, union by
    union and in the same order. *)
Theorem dialog_agrees_with_report (data : list TableRow)
    (checkedState : gmap nat (gmap string bool)) (unions : list string) :
  (forall row, row ∈ data ->
     DataTable.getCandidateIdentifier row = Report.getCandidateIdentifier row) ->
  DuplicatesModal.duplicatedCandidatesByUnion data checkedState unions
  = (map without_row <$> Report.duplicatedCandidatesByUnion data checkedState unions).
Proof.
  intros Hagree.
  unfold DuplicatesModal.duplicatedCandidatesByUnion, Report.duplicatedCandidatesByUnion.
  cbv zeta. rewrite (dialog_candidatesMap_of _ _ _ Hagree).
  rewrite (dialog_actualDuplicates_of _ _ _ Hagree).
  rewrite <- dialog_group_fold. by rewrite fmap_empty.
Qed.

(** X25. The table is as wide as its columns: 80 pixels for every union
    and between 120 and 280 pixels for every header, a header for names
    taking 280 whatever else it contains. *)
Theorem totalWidth_bounds (unions headers : list string) :
  80 * Z.of_nat (length unions) + 120 * Z.of_nat (length headers)
  <= DataTable.totalWidth unions headers
  <= 80 * Z.of_nat (length unions) + 280 * Z.of_nat (length headers)
  /\ forall header,
       includes (toLowerCase header) "nombre" = true ->
       DataTable.getDataColumnWidth header = 280.
Proof.
  split.
  - unfold DataTable.totalWidth. cbv zeta. change DataTable.UNION_COL_WIDTH with 80.
    assert (Hw : forall h, 120 <= DataTable.getDataColumnWidth h <= 280).
    { intros h. unfold DataTable.getDataColumnWidth. cbv zeta.
      repeat (match goal with |- context [if ?b then _ else _] => destruct b end); lia. }
    assert (Hfold : forall hs acc,
              acc + 120 * Z.of_nat (length hs)
              <= fold_left (fun sum header => sum + DataTable.getDataColumnWidth header)
                   hs acc
              <= acc + 280 * Z.of_nat (length hs)).
    { induction hs as [|h hs IH]; intros acc; cbn [fold_left length]; [lia|].
      specialize (IH (acc + DataTable.getDataColumnWidth h)).
      specialize (Hw h). lia. }
    specialize (Hfold headers 0). lia.
  - intros header Hname. unfold DataTable.getDataColumnWidth. cbv zeta.
    by rewrite Hname.
Qed.

End DialogMore.

Lemma dialog_agrees_with_report_witness :
  DuplicatesModal.duplicatedCandidatesByUnion (H := ExampleHost.canarias)
    two_duplicates two_duplicates_checked example_unions
  = (map without_row
       <$> Report.duplicatedCandidatesByUnion (H := ExampleHost.canarias)
             two_duplicates two_duplicates_checked example_unions).
Proof.
  apply (dialog_agrees_with_report (host := ExampleHost.canarias)).
  intros row Hrow. apply list_elem_of_In in Hrow. cbn in Hrow.
  destruct Hrow as [<-|[<-|[]]]; reflexivity.
Defined.

(** ** More marks, rows of entries, rows of a CSV document *)

Lemma elem_of_values_set k v row : v ∈ values (set k v row).
Proof.
  unfold values. induction row as [|[k0 v0] row IH]; cbn [set map snd]; [by left|].
  destruct (String.eqb k0 k); cbn [map snd]; [by left|by right].
Qed.

Lemma append_not_empty a c b : String.append a (String c b) <> EmptyString.
Proof. by destruct a. Qed.

Lemma forallb_false_elem {A} (p : A -> bool) l :
  forallb p l = false -> exists x, x ∈ l /\ p x = false.
Proof.
  induction l as [|x l IH]; cbn [forallb]; [done|].
  destruct (p x) eqn:Hp; cbn [andb].
  - intros (y & Hy & Hpy)%IH. exists y. split; [by right|done].
  - intros _. exists x. split; [by left|done].
Qed.

Section FurtherMore.
Context `{host : Host}.
Import Report.

Lemma normalize_header_content row h :
  has_content row -> has_content (normalize_header row h).
Proof.
  intros Hrow. unfold normalize_header. cbv zeta.
  destruct (accepted (date_of_cell (prop row h))) eqn:Ha; [|done].
  destruct (date_of_cell (prop row h)) as [d|]; [|done].
  exists (VStr (formatDate d)). split; [apply elem_of_values_set|].
  cbn [accepted] in Ha. apply andb_true_iff in Ha as [Hnan _].
  unfold formatDate. destruct (isNaN_time d); [done|]. cbv zeta.
  cbn [blank].
  destruct (String.append _ _) eqn:Hs; [|done].
  by apply append_not_empty in Hs.
Qed.

Lemma fold_normalize_content hs row :
  has_content row -> has_content (fold_left normalize_header hs row).
Proof.
  revert row. induction hs as [|h hs IH]; intros row Hrow; cbn [fold_left]; [done|].
  by apply IH, normalize_header_content.
Qed.

Lemma processAndResolve_content rows :
  (forall row, row ∈ rows -> has_content row) ->
  forall row, row ∈ data (processAndResolve rows) -> has_content row.
Proof.
  intros Hrows row Hrow.
  destruct rows as [|row0 rows]; [by apply elem_of_nil in Hrow|].
  cbn [processAndResolve data] in Hrow.
  apply list_elem_of_lookup in Hrow as [i Hi].
  rewrite processDataForDates_lookup in Hi.
  destruct ((row0 :: rows) !! i) as [r|] eqn:Hr; [|done].
  injection Hi as <-. apply fold_normalize_content, Hrows.
  by apply list_elem_of_lookup_2 in Hr.
Qed.

(** X26. Checking more boxes never hides a duplicate: when every box
    checked in one state is checked in another, an identity listed under a
    union with some other union for the first state is listed so for the
    second. *)
Theorem more_marks_more_duplicates (data : list TableRow)
    (st st' : gmap nat (gmap string bool)) (allUnions : list string)
    (U X V : string) :
  marks_included st st' ->
  listed_with (duplicatedCandidatesByUnion data st allUnions) U X V ->
  listed_with (duplicatedCandidatesByUnion data st' allUnions) U X V.
Proof.
  intros Hincl (l & e & Hl & He & <- & HV).
  destruct (listed_entry _ _ _ _ _ _ Hl He) as (HU & Hsz & Hother).
  apply Hother in HV as [HV Hne].
  assert (Hsub : accumulated data st allUnions (identifier e)
                 ⊆ accumulated data st' allUnions (identifier e)).
  { intros u. rewrite !elem_of_accumulated.
    intros (i & r & Hi & Hid & Hu & Hc). exists i, r. repeat split; try done.
    by apply Hincl. }
  assert (Hsz' : (2 <= size (accumulated data st' allUnions (identifier e)))%nat).
  { apply subseteq_size in Hsub. lia. }
  destruct (listed_intro data st' allUnions U (identifier e) (Hsub _ HU) Hsz')
    as (l' & e' & Hl' & He' & Hid' & Hother').
  exists l', e'. repeat split; try done. apply Hother'. split; [|done]. by apply Hsub.
Qed.

(** X27. The row of an entry is a row of the data that resolves to the
    identifier of the entry. *)
Theorem entry_row_in_data (data : list TableRow)
    (checkedState : gmap nat (gmap string bool)) (allUnions : list string)
    (U : string) (l : list Entry) (e : Entry) :
  duplicatedCandidatesByUnion data checkedState allUnions !! U = Some l -> e ∈ l ->
  row e ∈ data /\ getCandidateIdentifier (row e) = identifier e.
Proof.
  intros Hl He.
  destruct (entry_origin _ _ _ U l e Hl He) as (c & Hc & Heq).
  split.
  - apply candidatesMap_rows with checkedState allUnions.
    apply elem_of_map. exists (identifier e, c). split; [by rewrite Heq|].
    by apply Map_get_elem.
  - by rewrite Heq.
Qed.

(** X28. Every row of a CSV document that reaches the table has content:
    when [parseFile] resolves for a file of extension csv, each row of the
    result has a value that is neither [null] nor the empty string. *)
Theorem csv_rows_have_content (file : File) (r : ParseResult) :
  extension file = "csv"%string -> parseFile file = Resolve r ->
  forall row, row ∈ data r -> has_content row.
Proof.
  intros Hext. unfold parseFile. cbv zeta. rewrite Hext. cbn [String.eqb Ascii.eqb Bool.eqb].
  destruct (papa file) as [message|errors rows]; [done|].
  destruct errors; [|done].
  destruct rows as [rows|]; intros [= <-].
  2:{ intros row Hrow. by apply elem_of_nil in Hrow. }
  apply processAndResolve_content. intros row Hrow.
  apply list_elem_of_In in Hrow.
  assert (Hkept : In (Some row) (List.filter csv_keeps rows)).
  { revert Hrow. generalize (List.filter csv_keeps rows). intros kept.
    induction kept as [|[x|] kept IH]; cbn; [done| |by right; apply IH].
    intros [->|Hin]; [by left|right; by apply IH]. }
  apply filter_In in Hkept as [_ Hkeeps]. cbn [csv_keeps] in Hkeeps.
  apply negb_true_iff in Hkeeps.
  apply (forallb_false_elem blank) in Hkeeps as (v & Hv & Hb).
  by exists v.
Qed.

End FurtherMore.

Lemma more_marks_more_duplicates_witness :
  listed_with
    (Report.duplicatedCandidatesByUnion (H := ExampleHost.canarias) example_rows
       (AppHandlers.mark 2 "CCOO" true example_checked) example_unions)
    "CCOO" "Juan Pérez" "UGT".
Proof.
  apply (more_marks_more_duplicates (host := ExampleHost.canarias) example_rows
           example_checked (AppHandlers.mark 2 "CCOO" true example_checked)
           example_unions "CCOO" "Juan Pérez" "UGT").
  - intros i u Hc. by apply checked_mark_mono.
  - exact example_listed_under_CCOO.
Defined.

Lemma entry_row_in_data_witness :
  Report.row zoe_under_CCOO ∈ two_duplicates
  /\ Report.getCandidateIdentifier (H := ExampleHost.canarias) (Report.row zoe_under_CCOO)
     = Report.identifier zoe_under_CCOO.
Proof.
  apply (entry_row_in_data (host := ExampleHost.canarias)
           two_duplicates two_duplicates_checked example_unions "CCOO"
           two_duplicates_CCOO zoe_under_CCOO two_duplicates_under_CCOO).
  right. left.
Defined.

Lemma csv_rows_have_content_witness :
  has_content [("Nombre", VStr "Ana Suárez"); ("Fecha alta", VStr "01-02-2020")].
Proof.
  apply (csv_rows_have_content (host := ExampleHost.canarias) example_file
           {| headers := ["Nombre"; "Fecha alta"]%string;
              data := [[("Nombre", VStr "Ana Suárez");
                        ("Fecha alta", VStr "01-02-2020")]] |}).
  - reflexivity.
  - vm_compute. reflexivity.
  - left.
Defined.
